(** * ChatRoom: the WebSocket room server

    A shallow embedding of the server (the module that creates the
    [WebSocketServer] and installs the ["message"] and ["close"] handlers),
    followed by the properties of its registry and dispatcher.

    Conventions of the embedding.
    - A [WebSocket] is an opaque handle compared by reference ([===]); it is a
      natural number here.
    - [allSockets], [rooms] and everything observable of the run-time system
      (the calls of [socket.send], of [Math.random] and of [new Date]) make up
      the [world] threaded through the handlers by the monad [M].
    - An exception that leaves a handler is the outcome [Thrown]; the handlers
      contain no [try]/[catch].  The recursion of [generateRoomId] has no
      bound but the call stack: the handlers take the number [fuel] of nested
      calls the stack has room for, and the call that exceeds it throws a
      [RangeError].
    - [JSON.parse], [JSON.stringify], [Math.random], [Date] and
      [Number.prototype.toString] belong to the platform.  An inbound frame is
      given by what [JSON.parse] makes of it, an outbound frame by the object
      handed to [JSON.stringify]; the other three are described where they are
      defined. *)

From Stdlib Require Import ZArith NArith Ascii String List Lia.
From stdpp Require Import base option list strings gmap.

Open Scope string_scope.

(** ** Strings the way JavaScript indexes them *)

Module JsString.

(** [s.charAt(i)]: the one-character string at index [i], or the empty
    string when [i] is out of range. *)
Definition charAt (s : string) (i : nat) : string :=
  match String.get i s with
  | Some c => String c EmptyString
  | None => EmptyString
  end.

(** [s.substring(start)] for [0 <= start]. *)
Definition substring_from (start : nat) (s : string) : string :=
  String.substring start (String.length s - start) s.

(** [s.substring(start, stop)] for [0 <= start <= stop]. *)
Definition substring (start stop : nat) (s : string) : string :=
  String.substring start (stop - start) s.

Definition is_upper (c : ascii) : bool :=
  (65 <=? nat_of_ascii c)%nat && (nat_of_ascii c <=? 90)%nat.
Definition is_lower (c : ascii) : bool :=
  (97 <=? nat_of_ascii c)%nat && (nat_of_ascii c <=? 122)%nat.
Definition is_digit (c : ascii) : bool :=
  (48 <=? nat_of_ascii c)%nat && (nat_of_ascii c <=? 57)%nat.

(** [/[C]/.test(s)] for a character class [C]: some character of [s] is
    in the class. *)
Definition test (class : ascii -> bool) (s : string) : bool :=
  existsb class (list_ascii_of_string s).

(** Every character of [s] is in the class. *)
Definition all (class : ascii -> bool) (s : string) : bool :=
  forallb class (list_ascii_of_string s).

End JsString.

(** ** Values produced by [JSON.parse], and property reads on them *)

#[local] Set Warnings "-register-all".

Inductive value :=
| VUndefined
| VNull
| VBool (b : bool)
| VNum (binary64 : N)
| VStr (s : string)
| VArr (items : list value)
| VObj (fields : list (string * value)).

(** What [JSON.parse(message.toString())] does with an inbound frame: it
    either throws a [SyntaxError] or returns a value. *)
Inductive frame :=
| Unparseable
| Parsed (v : value).

Inductive exn := SyntaxError | TypeError | RangeError.

Fixpoint assoc (key : string) (fields : list (string * value)) : value :=
  match fields with
  | [] => VUndefined
  | (k, v) :: rest => if String.eqb k key then v else assoc key rest
  end.

(** [v.key] (also the destructuring [{ key } = v]): a [TypeError] on
    [undefined] and [null], the own property of an object, and [undefined]
    on every other value.  The server reads the keys [type], [payload],
    [roomId] and [message] only; none of them is defined on the prototypes of
    booleans, numbers, strings or arrays. *)
Definition get_prop (v : value) (key : string) : exn + value :=
  match v with
  | VUndefined | VNull => inl TypeError
  | VObj fields => inr (assoc key fields)
  | _ => inr VUndefined
  end.

(** [v === s] for a string literal [s]. *)
Definition strict_eq_str (v : value) (s : string) : bool :=
  match v with
  | VStr s' => String.eqb s' s
  | _ => false
  end.

(** ** The registry *)

Definition WebSocket := nat.

Record User := mkUser {
  socket : WebSocket;
  room : string;
  userId : string;
}.

Record Room := mkRoom {
  id : string;
  users : list User;
  createdAt : Z;
}.

(** Outbound envelopes: the objects given to [JSON.stringify] before
    [socket.send].  A field whose value is [undefined] is left out by
    [JSON.stringify]; [message] and [userId] of a [message] envelope are the
    two fields the source does not build from a definite string. *)
Inductive envelope :=
| roomCreated (roomId userId : string)
| roomJoined (roomId userId : string) (userCount : nat)
| userJoined (userCount : nat)
| userLeft (userCount : nat)
| message (text : value) (userId : option string) (timestamp : string)
| error (message : string).

Record world := mkWorld {
  allSockets : list User;
  rooms : gmap string Room;
  (** every [socket.send] so far, oldest first *)
  wire : list (WebSocket * envelope);
  (** number of [Math.random()] calls so far *)
  randoms : nat;
  (** number of [new Date()] calls so far *)
  dates : nat;
}.

Definition initial : world :=
  {| allSockets := []; rooms := ∅; wire := []; randoms := 0; dates := 0 |}.

(** ** The handler monad: state and exceptions *)

Inductive outcome (A : Type) :=
| Returned (a : A) (w : world)
| Thrown (e : exn) (w : world).
Arguments Returned {A} a w.
Arguments Thrown {A} e w.

Definition M (A : Type) : Type := world -> outcome A.

Definition ret {A} (a : A) : M A := fun w => Returned a w.

Definition bind {A B} (m : M A) (k : A -> M B) : M B :=
  fun w =>
    match m w with
    | Returned a w' => k a w'
    | Thrown e w' => Thrown e w'
    end.

Notation "x <- m ;; k" := (bind m (fun x => k))
  (at level 100, m at next level, right associativity).
Notation "m ;;; k" := (bind m (fun _ => k))
  (at level 100, right associativity).

Definition throw {A} (e : exn) : M A := fun w => Thrown e w.
Definition gets {A} (f : world -> A) : M A := fun w => Returned (f w) w.
Definition modify (f : world -> world) : M unit := fun w => Returned tt (f w).

Definition lift {A} (r : exn + A) : M A :=
  match r with
  | inl e => throw e
  | inr a => ret a
  end.

(** [l.forEach(callback)]. *)
Fixpoint forEach {A} (l : list A) (callback : A -> M unit) : M unit :=
  match l with
  | [] => ret tt
  | x :: rest => callback x ;;; forEach rest callback
  end.

Definition set_allSockets (f : list User -> list User) (w : world) : world :=
  {| allSockets := f (allSockets w); rooms := rooms w; wire := wire w;
     randoms := randoms w; dates := dates w |}.

Definition set_rooms (f : gmap string Room -> gmap string Room) (w : world) : world :=
  {| allSockets := allSockets w; rooms := f (rooms w); wire := wire w;
     randoms := randoms w; dates := dates w |}.

(** [s.send(JSON.stringify(e))]. *)
Definition send (s : WebSocket) (e : envelope) : M unit :=
  modify (fun w =>
    {| allSockets := allSockets w; rooms := rooms w;
       wire := wire w ++ [(s, e)];
       randoms := randoms w; dates := dates w |}).

(** ** Platform functions *)

Module Platform.

(** [Math.random()] returns a double in the half-open interval from 0 to 1:
    [m / 2^53] for a numerator [0 <= m < 2^53].  A draw is given by its
    numerator. *)
Definition two53 : N := 2 ^ 53.

(** The arithmetic of doubles.  A positive double is given here by its
    numerator over a power of two that the context fixes.  The result of a
    multiplication or of an addition is the exact one rounded to 53
    significant bits, to the nearest and to the even one on a tie; no value
    below is large or small enough to overflow or to be subnormal. *)
Definition round53 (x : N) : N :=
  (if x <? two53 then x
   else
     let ulp := 2 ^ (N.log2 x - 52) in
     let q := x / ulp in
     let r := x mod ulp in
     if (ulp <? 2 * r) || ((2 * r =? ulp) && N.odd q)
     then (q + 1) * ulp
     else q * ulp)%N.

(** [Math.floor(r * n)] for the draw [r = m / 2^53]. *)
Definition floor_mul (m n : N) : nat :=
  N.to_nat (round53 (m * n) / two53)%N.

Definition digits36 : string := "0123456789abcdefghijklmnopqrstuvwxyz".

(** [r.toString(36)], as the engine of Node computes it (the routine
    [DoubleToRadixCString] of V8).  The specification of the language leaves
    the digits to the implementation; this one writes the digits of the
    fraction until what is left is below [delta], half the distance from
    [r] to the next double, and it computes with doubles: [fraction] and
    [delta] are multiplied by 36 at each digit, and rounded.  Both are
    numerators over [2^107] here. *)
Definition one : N := 2 ^ 107.

(** The carry of the last rounding, through the digits written, the last
    one first: a digit that cannot be raised is dropped.  [None] when the
    carry reaches the integer part. *)
Fixpoint carry_over (buffer : list N) : option (list N) :=
  match buffer with
  | [] => None
  | digit :: rest =>
      if (digit + 1 <? 36)%N then Some ((digit + 1)%N :: rest)
      else carry_over rest
  end.

(** The loop that writes the digits, the last one first in [buffer];
    [fuel] is the number of turns allowed.  [delta] grows 36-fold at each
    turn and the loop ends when it exceeds [fraction], which is below 1:
    24 turns are more than the loop takes ([toString36_turns]). *)
Fixpoint fraction36 (fuel : nat) (fraction delta : N) (buffer : list N)
    : option (list N) :=
  match fuel with
  | O => Some buffer
  | S fuel' =>
      let shifted := round53 (fraction * 36)%N in
      let delta := round53 (delta * 36)%N in
      let digit := (shifted / one)%N in
      let buffer := digit :: buffer in
      let fraction := (shifted mod one)%N in
      if ((one <? 2 * fraction)%N
          || ((2 * fraction =? one)%N && N.odd digit))
         && (one <? round53 (fraction + delta))%N
      then carry_over buffer
      else if (delta <=? fraction)%N then fraction36 fuel' fraction delta buffer
      else Some buffer
  end.

(** The characters of the digits, the first one first. *)
Fixpoint render (digits : list N) : string :=
  match digits with
  | [] => ""
  | digit :: rest => JsString.charAt digits36 (N.to_nat digit) ++ render rest
  end.

(** [r.toString(36)] for the draw [r = m / 2^53]: ["0"] for zero, ["1"]
    when the rounding carries into the integer part, and otherwise ["0."]
    followed by the digits.  The fraction starts as [m / 2^53] and [delta]
    as half the distance to the next double, [2^(b - 107)] for a numerator
    of [b] binary digits; the fraction is not below it, so the loop is
    entered. *)
Definition toString36 (m : N) : string :=
  if (m =? 0)%N then "0"
  else
    match fraction36 24 (m * 2 ^ 54)%N (2 ^ (N.log2 m + 1))%N [] with
    | Some buffer => "0." ++ render (rev buffer)
    | None => "1"
    end.

(** The [width] low-order decimal digits of [n], zero-padded. *)
Fixpoint pad (width : nat) (n : Z) : string :=
  match width with
  | O => ""
  | S w' =>
      pad w' (n / 10)
        ++ JsString.charAt digits36 (Z.to_nat (n mod 10))
  end.

(** [new Date(t).toISOString()] for a time value [t] in milliseconds since
    the epoch: [YYYY-MM-DDTHH:mm:ss.sssZ], with the expanded year
    [+YYYYYY] or [-YYYYYY] outside the years 0 to 9999.  The civil date is
    computed from the day number in the proleptic Gregorian calendar. *)
Definition toISOString (t : Z) : string :=
  let day := (t / 86400000)%Z in
  let ms := (t mod 86400000)%Z in
  let z := (day + 719468)%Z in
  let era := (z / 146097)%Z in
  let doe := (z mod 146097)%Z in
  let yoe := ((doe - doe / 1460 + doe / 36524 - doe / 146096) / 365)%Z in
  let doy := (doe - (365 * yoe + yoe / 4 - yoe / 100))%Z in
  let mp := ((5 * doy + 2) / 153)%Z in
  let d := (doy - (153 * mp + 2) / 5 + 1)%Z in
  let mo := (if (mp <? 10)%Z then mp + 3 else mp - 9)%Z in
  let y := (yoe + era * 400 + (if (mo <=? 2)%Z then 1 else 0))%Z in
  let year :=
    if ((0 <=? y) && (y <=? 9999))%Z then pad 4 y
    else (if (y <? 0)%Z then "-" else "+") ++ pad 6 (Z.abs y) in
  year ++ "-" ++ pad 2 mo ++ "-" ++ pad 2 d
    ++ "T" ++ pad 2 (ms / 3600000)
    ++ ":" ++ pad 2 (ms / 60000 mod 60)
    ++ ":" ++ pad 2 (ms / 1000 mod 60)
    ++ "." ++ pad 3 (ms mod 1000) ++ "Z".

End Platform.

(** ** The server *)

Section Server.

(** The run-time system's sources of randomness and time: the [k]-th call
    of [Math.random()] returns the double with numerator
    [entropy k mod 2^53], the [k]-th [new Date()] holds the time value
    [clock k]. *)
Variable entropy : nat -> N.
Variable clock : nat -> Z.

Definition Math_random : M N :=
  fun w =>
    Returned (entropy (randoms w) mod Platform.two53)%N
      {| allSockets := allSockets w; rooms := rooms w; wire := wire w;
         randoms := S (randoms w); dates := dates w |}.

Definition new_Date : M Z :=
  fun w =>
    Returned (clock (dates w))
      {| allSockets := allSockets w; rooms := rooms w; wire := wire w;
         randoms := randoms w; dates := S (dates w) |}.

(** [Math.floor(Math.random() * n)]. *)
Definition random_index (n : N) : M nat :=
  r <- Math_random ;; ret (Platform.floor_mul r n).

Definition chars : string :=
  "ABCDEFGHIJKLMNOPQRSTUVWXYZabcdefghijklmnopqrstuvwxyz0123456789".

(** The loop [for (let i = 0; i < 8; i++) result += chars.charAt(...)],
    with [n] iterations left. *)
Fixpoint random_chars (n : nat) (result : string) : M string :=
  match n with
  | O => ret result
  | S n' =>
      i <- random_index (N.of_nat (String.length chars)) ;;
      random_chars n' (result ++ JsString.charAt chars i)
  end.

(** The body of [generateRoomId] up to the collision check. *)
Definition candidate : M string :=
  result <- random_chars 8 "" ;;
  result <-
    (if negb (JsString.test JsString.is_upper result) then
       i <- random_index 26 ;;
       ret (JsString.substring_from 1 result ++ JsString.charAt chars i)
     else ret result) ;;
  result <-
    (if negb (JsString.test JsString.is_lower result) then
       i <- random_index 26 ;;
       ret (JsString.substring_from 1 result ++ JsString.charAt chars (26 + i))
     else ret result) ;;
  (if negb (JsString.test JsString.is_digit result) then
     i <- random_index 10 ;;
     ret (JsString.substring_from 1 result ++ JsString.charAt chars (52 + i))
   else ret result).

(** [rooms.has(key)] and, when it holds, [rooms.get(key)] with the key:
    the keys of [rooms] are strings, so only a string is ever found. *)
Definition rooms_get (key : value) (w : world) : option (string * Room) :=
  match key with
  | VStr k => pair k <$> rooms w !! k
  | _ => None
  end.

(** [generateRoomId()], with room on the stack for [fuel] nested calls of
    it: one call more is a [RangeError] (the engine's "Maximum call stack
    size exceeded"), thrown where the function is entered. *)
Fixpoint generateRoomId (fuel : nat) : M string :=
  match fuel with
  | O => throw RangeError
  | S fuel' =>
      result <- candidate ;;
      found <- gets (rooms_get (VStr result)) ;;
      match found with
      | Some _ => generateRoomId fuel'
      | None => ret result
      end
  end.

(** [generateUserId()]. *)
Definition generateUserId : M string :=
  r <- Math_random ;;
  ret (JsString.substring 2 15 (Platform.toString36 r)).

(** [l.findIndex(u => u.socket === s)], [None] standing for -1. *)
Definition findIndex (s : WebSocket) (l : list User) : option nat :=
  fst <$> list_find (fun u => socket u = s) l.

(** [l.find(u => u.socket === s)]. *)
Definition find (s : WebSocket) (l : list User) : option User :=
  snd <$> list_find (fun u => socket u = s) l.

(** The handlers below run on the connection [conn], the [socket] of the
    source's ["connection"] callback. *)

Definition createRoom (conn : WebSocket) (fuel : nat) : M unit :=
  roomId <- generateRoomId fuel ;;
  userId <- generateUserId ;;
  let user := {| socket := conn; room := roomId; userId := userId |} in
  now <- new_Date ;;
  let room := {| id := roomId; users := [user]; createdAt := now |} in
  modify (set_rooms (insert roomId room)) ;;;
  modify (set_allSockets (fun l => (l ++ [user])%list)) ;;;
  send conn (roomCreated roomId userId).

(** In the success branch [room] is the object stored in [rooms]:
    [room.users.push(user)] updates the stored room. *)
Definition joinRoom (conn : WebSocket) (parsedMessage : value) : M unit :=
  payload <- lift (get_prop parsedMessage "payload") ;;
  roomId <- lift (get_prop payload "roomId") ;;
  userId <- generateUserId ;;
  found <- gets (rooms_get roomId) ;;
  match found with
  | Some (roomId, room) =>
      forEach (users room) (fun u =>
        send (socket u) (userJoined (length (users room) + 1))) ;;;
      let user := {| socket := conn; room := roomId; userId := userId |} in
      let room :=
        {| id := id room; users := (users room ++ [user])%list;
           createdAt := createdAt room |} in
      modify (set_rooms (insert roomId room)) ;;;
      modify (set_allSockets (fun l => (l ++ [user])%list)) ;;;
      send conn (roomJoined roomId userId (length (users room)))
  | None =>
      send conn (error "Room not found")
  end.

Definition chat (conn : WebSocket) (parsedMessage : value) : M unit :=
  payload <- lift (get_prop parsedMessage "payload") ;;
  _ <- lift (get_prop payload "message") ;;
  user <- gets (fun w => find conn (allSockets w)) ;;
  let currentUserRoom := room <$> user in
  found <- gets (fun w =>
    match currentUserRoom with
    | Some r => if String.eqb r "" then None else rooms_get (VStr r) w
    | None => None
    end) ;;
  match found with
  | Some (_, room) =>
      forEach (users room) (fun u =>
        payload <- lift (get_prop parsedMessage "payload") ;;
        text <- lift (get_prop payload "message") ;;
        now <- new_Date ;;
        send (socket u)
          (message text (userId <$> user) (Platform.toISOString now)))
  | None => ret tt
  end.

(** The ["message"] handler. *)
Definition onMessage (conn : WebSocket) (fuel : nat) (message : frame) : M unit :=
  parsedMessage <-
    match message with
    | Unparseable => throw SyntaxError
    | Parsed v => ret v
    end ;;
  type <- lift (get_prop parsedMessage "type") ;;
  (if strict_eq_str type "createRoom" then createRoom conn fuel else ret tt) ;;;
  type <- lift (get_prop parsedMessage "type") ;;
  (if strict_eq_str type "joinRoom" then joinRoom conn parsedMessage else ret tt) ;;;
  type <- lift (get_prop parsedMessage "type") ;;
  (if strict_eq_str type "chat" then chat conn parsedMessage else ret tt).

(** The ["close"] handler; [user_room] is [user.room], and [room] the
    object stored under it, which [room.users.splice] updates. *)
Definition onClose (conn : WebSocket) : M unit :=
  userIndex <- gets (fun w => findIndex conn (allSockets w)) ;;
  match userIndex with
  | None => ret tt
  | Some userIndex =>
      user <- gets (fun w => allSockets w !! userIndex) ;;
      modify (set_allSockets (delete userIndex)) ;;;
      match user with
      | None => throw TypeError
      | Some user =>
          found <- gets (rooms_get (VStr (room user))) ;;
          match found with
          | None => ret tt
          | Some (user_room, room) =>
              match findIndex conn (users room) with
              | None => ret tt
              | Some roomUserIndex =>
                  let room :=
                    {| id := id room;
                       users := delete roomUserIndex (users room);
                       createdAt := createdAt room |} in
                  modify (set_rooms (insert user_room room)) ;;;
                  forEach (users room) (fun u =>
                    send (socket u) (userLeft (length (users room)))) ;;;
                  if (length (users room) =? 0)%nat
                  then modify (set_rooms (delete user_room))
                  else ret tt
              end
          end
      end
  end.

(** An event of the transport on one connection. *)
Inductive event :=
| Message (conn : WebSocket) (message : frame)
| Close (conn : WebSocket).

Definition handle (fuel : nat) (e : event) : M unit :=
  match e with
  | Message conn data => onMessage conn fuel data
  | Close conn => onClose conn
  end.

(** A sequence of events handled one after the other; an exception that
    leaves a handler ends the run, as an uncaught exception ends the
    process. *)
Fixpoint run (fuel : nat) (es : list event) : M unit :=
  match es with
  | [] => ret tt
  | e :: rest => handle fuel e ;;; run fuel rest
  end.

(** The worlds the server can be in: those reached from the initial one by
    handling events.  The world left behind by a handler that threw is kept
    too, so that the invariants below also cover a host that survives the
    exception. *)
Inductive reachable : world -> Prop :=
| reachable_initial : reachable initial
| reachable_returned w fuel e w' :
    reachable w -> handle fuel e w = Returned tt w' -> reachable w'
| reachable_thrown w fuel e x w' :
    reachable w -> handle fuel e w = Thrown x w' -> reachable w'.

(** The connection on which [e] asks for a room: a frame whose [type] is
    [createRoom] or [joinRoom]. *)
Definition binding_request (e : event) : option WebSocket :=
  match e with
  | Message conn (Parsed v) =>
      match get_prop v "type" with
      | inr t =>
          if strict_eq_str t "createRoom" || strict_eq_str t "joinRoom"
          then Some conn else None
      | inl _ => None
      end
  | _ => None
  end.

(** [e] respects the one-room-per-connection discipline in [w]: a connection
    that already has a record does not ask for a room again. *)
Definition disciplined (e : event) (w : world) : Prop :=
  forall conn, binding_request e = Some conn -> find conn (allSockets w) = None.

(** The worlds reached when every event is disciplined. *)
Inductive reachable_disciplined : world -> Prop :=
| disciplined_initial : reachable_disciplined initial
| disciplined_returned w fuel e w' :
    reachable_disciplined w -> disciplined e w ->
    handle fuel e w = Returned tt w' -> reachable_disciplined w'
| disciplined_thrown w fuel e x w' :
    reachable_disciplined w -> disciplined e w ->
    handle fuel e w = Thrown x w' -> reachable_disciplined w'.

End Server.

(** ** Vocabulary of the properties *)

(** The parsed frame [v] has the string [type] as its [type]. *)
Definition has_type (v : value) (type : string) : Prop :=
  get_prop v "type" = inr (VStr type).

(** The parsed frame [v] has a payload whose field [key] reads [x]
    ([undefined] when the payload has no such field). *)
Definition payload_field (v : value) (key : string) (x : value) : Prop :=
  exists payload,
    get_prop v "payload" = inr payload /\ get_prop payload key = inr x.

(** Frames the handler throws on: those [JSON.parse] rejects, the values
    without properties, and the [joinRoom] and [chat] envelopes whose
    payload is missing or [null]. *)
Definition malformed (data : frame) : bool :=
  match data with
  | Unparseable => true
  | Parsed v =>
      match get_prop v "type" with
      | inl _ => true
      | inr t =>
          if strict_eq_str t "joinRoom" || strict_eq_str t "chat" then
            match get_prop v "payload" with
            | inr (VUndefined | VNull) => true
            | _ => false
            end
          else false
      end
  end.

(** Frames without a recognised [type]. *)
Definition unrecognised (data : frame) : bool :=
  match data with
  | Unparseable => false
  | Parsed v =>
      match get_prop v "type" with
      | inl _ => false
      | inr t =>
          negb (strict_eq_str t "createRoom" || strict_eq_str t "joinRoom"
                || strict_eq_str t "chat")
      end
  end.

(** [w'] differs from [w] in the count of [Math.random()] calls at most. *)
Definition same_registry (w w' : world) : Prop :=
  allSockets w' = allSockets w /\ rooms w' = rooms w
  /\ wire w' = wire w /\ dates w' = dates w.

(** [e] is a [createRoom] envelope arriving on some connection. *)
Definition is_createRoom (e : event) : Prop :=
  exists conn v, e = Message conn (Parsed v) /\ has_type v "createRoom".

(** The records of the connection [conn] in a collection. *)
Definition records (conn : WebSocket) (l : list User) : list User :=
  filter (fun u => socket u = conn) l.

Definition is_userJoined (e : envelope) : bool :=
  match e with userJoined _ => true | _ => false end.
Definition is_userLeft (e : envelope) : bool :=
  match e with userLeft _ => true | _ => false end.
Definition is_message (e : envelope) : bool :=
  match e with message _ _ _ => true | _ => false end.

(** The envelopes of one kind sent to [conn] in a stretch of the wire. *)
Definition deliveries (kind : envelope -> bool) (conn : WebSocket)
    (sent : list (WebSocket * envelope)) : list envelope :=
  snd <$> filter (fun p => fst p = conn /\ kind (snd p) = true) sent.

(** The room identifiers announced by [roomCreated] envelopes. *)
Fixpoint created (sent : list (WebSocket * envelope)) : list string :=
  match sent with
  | [] => []
  | (_, roomCreated roomId _) :: rest => roomId :: created rest
  | _ :: rest => created rest
  end.

Definition is_alnum (c : ascii) : bool :=
  JsString.is_upper c || JsString.is_lower c || JsString.is_digit c.

Definition is_base36 (c : ascii) : bool :=
  JsString.is_lower c || JsString.is_digit c.

(** The registry is coherent: the members of a room are the records naming
    it, in the order of [allSockets]; a registered room has a member and
    an eight-character key; every record names a registered room. *)
Record coherent (w : world) : Prop := {
  coherent_members : forall k r,
    rooms w !! k = Some r -> users r = filter (fun u => room u = k) (allSockets w);
  coherent_nonempty : forall k r,
    rooms w !! k = Some r -> users r <> [];
  coherent_keys : forall k r,
    rooms w !! k = Some r -> String.length k = 8;
  coherent_records : forall u,
    u ∈ allSockets w -> is_Some (rooms w !! room u);
}.

(** ** Client frames and sources used in the scenarios *)

Module Scenario.

Definition createRoom_frame : frame :=
  Parsed (VObj [("type", VStr "createRoom")]).

Definition joinRoom_frame (roomId : string) : frame :=
  Parsed (VObj [("type", VStr "joinRoom");
                ("payload", VObj [("roomId", VStr roomId)])]).

Definition chat_frame (text : string) : frame :=
  Parsed (VObj [("type", VStr "chat");
                ("payload", VObj [("message", VStr text)])]).

Definition entropy (k : nat) : N :=
  (N.of_nat k * 123456789012345 + 77777777777)%N.

Definition clock (k : nat) : Z := (1705314600000 + Z.of_nat k)%Z.

(** The world after the events [es], or the initial one when the run does
    not return. *)
Definition after (es : list event) : world :=
  match run entropy clock 1 es initial with
  | Returned _ w => w
  | _ => initial
  end.

(** A [Math.random] that returns 1/2 at every call, and the world after one
    [createRoom] with it: every candidate of [generateRoomId] is the
    identifier of the room registered there. *)
Definition stuck (k : nat) : N := (2 ^ 52)%N.

Definition taken : world :=
  match onMessage stuck clock 1 1 createRoom_frame initial with
  | Returned _ w => w
  | _ => initial
  end.

End Scenario.

(** ** The effect of one handled event *)

(** What an event may do to the registry and the wire, read off the
    branches of the two handlers; the counters of [Math.random] and
    [new Date] are left out.  [handle_effect] shows that every event the
    handlers return from has one of these effects. *)
Inductive effect : event -> world -> world -> Prop :=
| effect_none e w w' :
    allSockets w' = allSockets w -> rooms w' = rooms w -> wire w' = wire w ->
    effect e w w'
| effect_not_found conn data w w' :
    allSockets w' = allSockets w -> rooms w' = rooms w ->
    wire w' = (wire w ++ [(conn, error "Room not found")])%list ->
    effect (Message conn data) w w'
| effect_created conn data w w' roomId userId now :
    rooms w !! roomId = None ->
    String.length roomId = 8 ->
    allSockets w' = (allSockets w ++ [mkUser conn roomId userId])%list ->
    rooms w' = <[roomId := mkRoom roomId [mkUser conn roomId userId] now]> (rooms w) ->
    wire w' = (wire w ++ [(conn, roomCreated roomId userId)])%list ->
    effect (Message conn data) w w'
| effect_joined conn data w w' roomId r userId :
    rooms w !! roomId = Some r ->
    allSockets w' = (allSockets w ++ [mkUser conn roomId userId])%list ->
    rooms w' =
      <[roomId := mkRoom (id r) (users r ++ [mkUser conn roomId userId]) (createdAt r)]>
        (rooms w) ->
    wire w' =
      (wire w
       ++ map (fun m => (socket m, userJoined (length (users r) + 1))) (users r)
       ++ [(conn, roomJoined roomId userId (length (users r) + 1))])%list ->
    effect (Message conn data) w w'
| effect_chat conn data w w' u r text stamps :
    find conn (allSockets w) = Some u ->
    rooms w !! room u = Some r ->
    allSockets w' = allSockets w -> rooms w' = rooms w ->
    length stamps = length (users r) ->
    wire w' =
      (wire w
       ++ zip_with (fun m stamp =>
            (socket m, message text (Some (userId u)) stamp)) (users r) stamps)%list ->
    effect (Message conn data) w w'
| effect_unlisted conn w w' i u :
    list_find (fun m => socket m = conn) (allSockets w) = Some (i, u) ->
    rooms w !! room u = None
    \/ (exists r, rooms w !! room u = Some r
                  /\ list_find (fun m => socket m = conn) (users r) = None) ->
    allSockets w' = delete i (allSockets w) ->
    rooms w' = rooms w -> wire w' = wire w ->
    effect (Close conn) w w'
| effect_closed conn w w' i u r j member :
    list_find (fun m => socket m = conn) (allSockets w) = Some (i, u) ->
    rooms w !! room u = Some r ->
    list_find (fun m => socket m = conn) (users r) = Some (j, member) ->
    allSockets w' = delete i (allSockets w) ->
    rooms w' =
      (if (length (delete j (users r)) =? 0)%nat
       then delete (room u) (rooms w)
       else <[room u := mkRoom (id r) (delete j (users r)) (createdAt r)]> (rooms w)) ->
    wire w' =
      (wire w
       ++ map (fun m => (socket m, userLeft (length (delete j (users r)))))
            (delete j (users r)))%list ->
    effect (Close conn) w w'.

(** The connection an event arrives on. *)
Definition connection (e : event) : WebSocket :=
  match e with
  | Message conn _ => conn
  | Close conn => conn
  end.

(** The record [u] was announced to its connection: a [roomCreated] or a
    [roomJoined] envelope with its room and user identifiers was sent
    there. *)
Definition announced (u : User) (sent : list (WebSocket * envelope)) : Prop :=
  (socket u, roomCreated (room u) (userId u)) ∈ sent
  \/ exists n, (socket u, roomJoined (room u) (userId u) n) ∈ sent.

(** The member count an envelope carries, if it carries one. *)
Definition userCount_of (e : envelope) : option nat :=
  match e with
  | roomJoined _ _ n | userJoined n | userLeft n => Some n
  | _ => None
  end.

(** The count [conn] goes by after one more envelope was sent. *)
Definition told_step (conn : WebSocket) (count : nat)
    (p : WebSocket * envelope) : nat :=
  if decide (fst p = conn) then default count (userCount_of (snd p)) else count.

(** The member count a connection was told last, 1 before it was told any
    (the count the client starts from). *)
Definition told (conn : WebSocket) (sent : list (WebSocket * envelope)) : nat :=
  foldl (told_step conn) 1 sent.

(** A connection is fresh when all it was ever sent are [error]
    envelopes: it has not been given a room yet. *)
Definition fresh (conn : WebSocket) (w : world) : Prop :=
  forall e, (conn, e) ∈ wire w -> exists text, e = error text.

(** The worlds reached when only fresh connections ask for a room: a
    connection asks once with success and is not used again for another
    room.  As for [reachable], the world left by a handler that threw is
    kept. *)
Inductive reachable_fresh (entropy : nat -> N) (clock : nat -> Z) : world -> Prop :=
| fresh_initial : reachable_fresh entropy clock initial
| fresh_returned w fuel e w' :
    reachable_fresh entropy clock w ->
    (forall conn, binding_request e = Some conn -> fresh conn w) ->
    handle entropy clock fuel e w = Returned tt w' ->
    reachable_fresh entropy clock w'
| fresh_thrown w fuel e x w' :
    reachable_fresh entropy clock w ->
    (forall conn, binding_request e = Some conn -> fresh conn w) ->
    handle entropy clock fuel e w = Thrown x w' ->
    reachable_fresh entropy clock w'.

(** ** Scripted random sources *)

Module Script.

(** A draw [r] with [Math.floor(r * 62) = i], for [i < 62]. *)
Definition draw (i : N) : N := (i * Platform.two53 / 62 + 1)%N.

(** The random source that returns the draws of [l] in turn, then 0. *)
Definition source (l : list N) (k : nat) : N := nth k l 0%N.

End Script.

(** ** The bundled client *)

(** The client component [App]: its state (the values of its [useState]
    hooks), the handlers it installs on a socket and the handlers of its
    buttons.  A handler takes the state to the state after its updates, and
    returns the frames it sends.  What the handlers read from the page (the
    trimmed value of an input) is given to them, an inbound frame is given
    by the envelope the server sent, and a callback passed to [setTimeout]
    is kept in [timers] until it is run by [fire]; delays are not
    modelled. *)
Module App.

Abbreviation message_envelope := message (only parsing).
Abbreviation error_envelope := error (only parsing).

Inductive AppState := landing | chat.

Record Message := mkMessage {
  message : value;
  sender : option string;
  timestamp : string;
}.

(** The callbacks given to [setTimeout]: the one of [roomCreated] and
    [roomJoined], the one of [sendMessage] and the one of [leaveRoom]. *)
Inductive timer := show_chat | sending_done | leave_done.

Record state := mkState {
  appState : AppState;
  messages : list Message;
  socket : option WebSocket;
  roomId : string;
  userId : string;
  userCount : nat;
  isConnecting : bool;
  isSendingMessage : bool;
  isLoadingChat : bool;
  isLeavingRoom : bool;
  error : string;
  timers : list timer;
}.

Definition set_appState (x : AppState) (s : state) : state :=
  {| appState := x; messages := messages s; socket := socket s;
     roomId := roomId s; userId := userId s; userCount := userCount s;
     isConnecting := isConnecting s; isSendingMessage := isSendingMessage s;
     isLoadingChat := isLoadingChat s; isLeavingRoom := isLeavingRoom s;
     error := error s; timers := timers s |}.

Definition set_messages (x : list Message) (s : state) : state :=
  {| appState := appState s; messages := x; socket := socket s;
     roomId := roomId s; userId := userId s; userCount := userCount s;
     isConnecting := isConnecting s; isSendingMessage := isSendingMessage s;
     isLoadingChat := isLoadingChat s; isLeavingRoom := isLeavingRoom s;
     error := error s; timers := timers s |}.

Definition set_socket (x : option WebSocket) (s : state) : state :=
  {| appState := appState s; messages := messages s; socket := x;
     roomId := roomId s; userId := userId s; userCount := userCount s;
     isConnecting := isConnecting s; isSendingMessage := isSendingMessage s;
     isLoadingChat := isLoadingChat s; isLeavingRoom := isLeavingRoom s;
     error := error s; timers := timers s |}.

Definition set_roomId (x : string) (s : state) : state :=
  {| appState := appState s; messages := messages s; socket := socket s;
     roomId := x; userId := userId s; userCount := userCount s;
     isConnecting := isConnecting s; isSendingMessage := isSendingMessage s;
     isLoadingChat := isLoadingChat s; isLeavingRoom := isLeavingRoom s;
     error := error s; timers := timers s |}.

Definition set_userId (x : string) (s : state) : state :=
  {| appState := appState s; messages := messages s; socket := socket s;
     roomId := roomId s; userId := x; userCount := userCount s;
     isConnecting := isConnecting s; isSendingMessage := isSendingMessage s;
     isLoadingChat := isLoadingChat s; isLeavingRoom := isLeavingRoom s;
     error := error s; timers := timers s |}.

Definition set_userCount (x : nat) (s : state) : state :=
  {| appState := appState s; messages := messages s; socket := socket s;
     roomId := roomId s; userId := userId s; userCount := x;
     isConnecting := isConnecting s; isSendingMessage := isSendingMessage s;
     isLoadingChat := isLoadingChat s; isLeavingRoom := isLeavingRoom s;
     error := error s; timers := timers s |}.

Definition set_isConnecting (x : bool) (s : state) : state :=
  {| appState := appState s; messages := messages s; socket := socket s;
     roomId := roomId s; userId := userId s; userCount := userCount s;
     isConnecting := x; isSendingMessage := isSendingMessage s;
     isLoadingChat := isLoadingChat s; isLeavingRoom := isLeavingRoom s;
     error := error s; timers := timers s |}.

Definition set_isSendingMessage (x : bool) (s : state) : state :=
  {| appState := appState s; messages := messages s; socket := socket s;
     roomId := roomId s; userId := userId s; userCount := userCount s;
     isConnecting := isConnecting s; isSendingMessage := x;
     isLoadingChat := isLoadingChat s; isLeavingRoom := isLeavingRoom s;
     error := error s; timers := timers s |}.

Definition set_isLoadingChat (x : bool) (s : state) : state :=
  {| appState := appState s; messages := messages s; socket := socket s;
     roomId := roomId s; userId := userId s; userCount := userCount s;
     isConnecting := isConnecting s; isSendingMessage := isSendingMessage s;
     isLoadingChat := x; isLeavingRoom := isLeavingRoom s; error := error s;
     timers := timers s |}.

Definition set_isLeavingRoom (x : bool) (s : state) : state :=
  {| appState := appState s; messages := messages s; socket := socket s;
     roomId := roomId s; userId := userId s; userCount := userCount s;
     isConnecting := isConnecting s; isSendingMessage := isSendingMessage s;
     isLoadingChat := isLoadingChat s; isLeavingRoom := x; error := error s;
     timers := timers s |}.

Definition set_error (x : string) (s : state) : state :=
  {| appState := appState s; messages := messages s; socket := socket s;
     roomId := roomId s; userId := userId s; userCount := userCount s;
     isConnecting := isConnecting s; isSendingMessage := isSendingMessage s;
     isLoadingChat := isLoadingChat s; isLeavingRoom := isLeavingRoom s;
     error := x; timers := timers s |}.

Definition set_timers (x : list timer) (s : state) : state :=
  {| appState := appState s; messages := messages s; socket := socket s;
     roomId := roomId s; userId := userId s; userCount := userCount s;
     isConnecting := isConnecting s; isSendingMessage := isSendingMessage s;
     isLoadingChat := isLoadingChat s; isLeavingRoom := isLeavingRoom s;
     error := error s; timers := x |}.


Definition initial : state :=
  {| appState := landing; messages := []; socket := None; roomId := "";
     userId := ""; userCount := 1; isConnecting := false;
     isSendingMessage := false; isLoadingChat := false;
     isLeavingRoom := false; error := ""; timers := [] |}.

(** [setTimeout(callback, 500)]: every delay is the same, so the callbacks
    run in the order they were given. *)
Definition setTimeout (t : timer) (s : state) : state :=
  set_timers (timers s ++ [t])%list s.

(** The frames the client sends, as the server's [JSON.parse] reads the
    text [JSON.stringify] made of them. *)
Definition createRoom_request : frame :=
  Parsed (VObj [("type", VStr "createRoom")]).

Definition joinRoom_request (roomIdToJoin : string) : frame :=
  Parsed (VObj [("type", VStr "joinRoom");
                ("payload", VObj [("roomId", VStr roomIdToJoin)])]).

Definition chat_request (text : string) : frame :=
  Parsed (VObj [("type", VStr "chat");
                ("payload", VObj [("message", VStr text)])]).

(** [createRoom], for the socket [ws] that [new WebSocket] returns. *)
Definition createRoom (ws : WebSocket) (s : state) : state :=
  set_socket (Some ws) (set_error "" (set_isConnecting true s)).

(** [ws.onopen] of [createRoom]. *)
Definition createRoom_onopen (s : state) : state * list frame :=
  (set_error "" (set_isConnecting false s), [createRoom_request]).

(** [ws.onmessage] of [createRoom]; the [switch] has no case for
    [roomJoined]. *)
Definition createRoom_onmessage (data : envelope) (s : state) : state :=
  match data with
  | roomCreated rid uid =>
      setTimeout show_chat
        (set_userId uid (set_roomId rid (set_isLoadingChat true s)))
  | message_envelope text uid stamp =>
      set_messages (messages s ++ [mkMessage text uid stamp])%list s
  | userJoined n => set_userCount n s
  | userLeft n => set_userCount n s
  | error_envelope text => set_isConnecting false (set_error text s)
  | roomJoined _ _ _ => s
  end.

(** [ws.onclose] and [ws.onerror], the same in [createRoom] and
    [joinRoom]. *)
Definition onclose (s : state) : state :=
  set_isConnecting false (set_socket None s).

Definition onerror (s : state) : state :=
  set_isConnecting false (set_error "Connection failed. Please try again." s).

(** [joinRoom], for the trimmed value [input] of the room field
    ([None] when the field is not on the page) and the socket [ws] that
    [new WebSocket] returns.  With the state comes the [roomIdToJoin] the
    handlers of the socket are closed over, when a socket is opened. *)
Definition joinRoom (input : option string) (ws : WebSocket) (s : state)
    : state * option string :=
  match input with
  | None | Some "" => (set_error "Please enter a room ID" s, None)
  | Some roomIdToJoin =>
      (set_socket (Some ws) (set_error "" (set_isConnecting true s)),
       Some roomIdToJoin)
  end.

(** [ws.onopen] of [joinRoom]. *)
Definition joinRoom_onopen (roomIdToJoin : string) (s : state)
    : state * list frame :=
  (set_error "" (set_isConnecting false s), [joinRoom_request roomIdToJoin]).

(** [ws.onmessage] of [joinRoom]; the [switch] has no case for
    [roomCreated]. *)
Definition joinRoom_onmessage (data : envelope) (s : state) : state :=
  match data with
  | roomJoined rid uid n =>
      setTimeout show_chat
        (set_userCount n
           (set_userId uid (set_roomId rid (set_isLoadingChat true s))))
  | message_envelope text uid stamp =>
      set_messages (messages s ++ [mkMessage text uid stamp])%list s
  | userJoined n => set_userCount n s
  | userLeft n => set_userCount n s
  | error_envelope text => set_isConnecting false (set_error text s)
  | roomCreated _ _ => s
  end.

(** [sendMessage], for the trimmed value [input] of the message field. *)
Definition sendMessage (input : option string) (s : state)
    : state * list frame :=
  match input, socket s, isSendingMessage s with
  | None, _, _ | Some "", _, _ | _, None, _ | _, _, true => (s, [])
  | Some text, Some _, false =>
      (setTimeout sending_done (set_isSendingMessage true s),
       [chat_request text])
  end.

(** [leaveRoom]; with the state comes the socket it closes, if any. *)
Definition leaveRoom (s : state) : state * option WebSocket :=
  (setTimeout leave_done (set_isLeavingRoom true s), socket s).

(** The callbacks given to [setTimeout]. *)
Definition fire (t : timer) (s : state) : state :=
  match t with
  | show_chat => set_isLoadingChat false (set_appState chat s)
  | sending_done => set_isSendingMessage false s
  | leave_done =>
      set_isLeavingRoom false
        (set_error ""
           (set_userCount 1
              (set_userId ""
                 (set_roomId "" (set_messages [] (set_appState landing s))))))
  end.

(** All the callbacks that wait are run, oldest first. *)
Definition flush (s : state) : state :=
  foldl (fun s t => fire t s) (set_timers [] s) (timers s).

(** The state after the envelopes [inbox] have come in, through the
    [onmessage] handler of the socket. *)
Definition receive (onmessage : envelope -> state -> state) (s : state)
    (inbox : list envelope) : state :=
  foldl (fun s data => onmessage data s) s inbox.

End App.

(** All the envelopes sent to [conn], oldest first. *)
Definition inbox (conn : WebSocket) (sent : list (WebSocket * envelope))
    : list envelope :=
  deliveries (fun _ => true) conn sent.

(** The envelopes that give a connection its room. *)
Definition is_binding (e : envelope) : bool :=
  match e with
  | roomCreated _ _ | roomJoined _ _ _ => true
  | _ => false
  end.

(** The entry of the history the client makes of a [message] envelope. *)
Definition shown_message (e : envelope) : option App.Message :=
  match e with
  | message text uid stamp => Some (App.mkMessage text uid stamp)
  | _ => None
  end.

(** The envelope [b] announces the record [u] to its connection. *)
Definition announces (b : envelope) (u : User) : Prop :=
  b = roomCreated (room u) (userId u)
  \/ exists n, b = roomJoined (room u) (userId u) n.

(** The client state [s] shows the record [u] and its room [r]: their
    identifiers and the number of members. *)
Definition shows (s : App.state) (u : User) (r : Room) : Prop :=
  App.roomId s = room u /\ App.userId s = userId u
  /\ App.userCount s = length (users r).

(** A run in which only fresh connections ask for a room: a room is
    created, two connections join it and the first of them leaves. *)
Definition session : list event :=
  [Message 1 Scenario.createRoom_frame;
   Message 2 (Scenario.joinRoom_frame "BCDEFFc1");
   Message 3 (Scenario.joinRoom_frame "BCDEFFc1");
   Close 2].

(** * Properties *)

Set Default Proof Using "Type".

(** ** The platform model on known values *)

Example toString36_half : Platform.toString36 (2 ^ 52) = "0.i".
Proof. vm_compute. reflexivity. Qed.

Example toString36_three_digits : Platform.toString36 (2 ^ 51 + 2 ^ 47) = "0.9k9".
Proof. vm_compute. reflexivity. Qed.

(** The engine stops at the digit that tells the double from its
    neighbours, and rounds it: the exact expansion of the largest draw has
    27 digits. *)
Example toString36_largest : Platform.toString36 (2 ^ 53 - 1) = "0.zzzzzzzzzza".
Proof. vm_compute. reflexivity. Qed.

(** The product of a draw is a double: this one is rounded up to 8, from
    [8 - 2 / 2^53]. *)
Example floor_mul_rounded : Platform.floor_mul 1162219258676257 62 = 8.
Proof. vm_compute. reflexivity. Qed.

Example toISOString_epoch : Platform.toISOString 0 = "1970-01-01T00:00:00.000Z".
Proof. vm_compute. reflexivity. Qed.

Example toISOString_documented : Platform.toISOString 1705314600000 = "2024-01-15T10:30:00.000Z".
Proof. vm_compute. reflexivity. Qed.

Example toISOString_leap_day : Platform.toISOString 951782400000 = "2000-02-29T00:00:00.000Z".
Proof. vm_compute. reflexivity. Qed.

Example toISOString_before_epoch : Platform.toISOString (-1) = "1969-12-31T23:59:59.999Z".
Proof. vm_compute. reflexivity. Qed.

(** ** Strings *)

Lemma all_append class s t :
  JsString.all class (s ++ t) = JsString.all class s && JsString.all class t.
Proof.
  unfold JsString.all. induction s as [|c s IH]; simpl; [reflexivity|].
  rewrite IH. apply andb_assoc.
Qed.

Lemma all_String class c s :
  JsString.all class (String c s) = class c && JsString.all class s.
Proof. reflexivity. Qed.

Lemma all_substring class s : forall n m,
  JsString.all class s = true -> JsString.all class (String.substring n m s) = true.
Proof.
  induction s as [|c s IH]; intros n m Hs.
  - destruct n, m; reflexivity.
  - rewrite all_String in Hs. apply andb_prop in Hs as [Hc Hs].
    destruct n as [|n]; simpl.
    + destruct m as [|m]; [reflexivity|].
      rewrite all_String, Hc. simpl. apply IH, Hs.
    + apply IH, Hs.
Qed.

Lemma length_substring s : forall n m,
  String.length (String.substring n m s) <= m.
Proof.
  induction s as [|c s IH]; intros n m.
  - destruct n, m; simpl; lia.
  - destruct n as [|n]; simpl.
    + destruct m as [|m]; simpl; [lia|]. specialize (IH 0 m). lia.
    + apply IH.
Qed.

Lemma length_substring_exact s : forall n m,
  n + m <= String.length s -> String.length (String.substring n m s) = m.
Proof.
  induction s as [|c s IH]; intros n m Hle; simpl in Hle.
  - destruct n, m; simpl; lia.
  - destruct n as [|n]; simpl.
    + destruct m as [|m]; simpl; [lia|]. rewrite (IH 0 m); lia.
    + apply IH. lia.
Qed.

Lemma length_substring_from s :
  String.length (JsString.substring_from 1 s) = String.length s - 1.
Proof.
  unfold JsString.substring_from.
  destruct s as [|c s]; [reflexivity|].
  apply length_substring_exact. simpl. lia.
Qed.

Lemma all_substring_from class n s :
  JsString.all class s = true -> JsString.all class (JsString.substring_from n s) = true.
Proof. apply all_substring. Qed.

(** [charAt] inside the string: one character, and of the class when all
    characters between [lo] and [hi] are. *)
Lemma charAt_in_range class s lo hi i :
  forallb (fun j =>
    match String.get j s with
    | Some c => class c
    | None => false
    end) (seq lo (hi - lo)) = true ->
  lo <= i < hi ->
  String.length (JsString.charAt s i) = 1
  /\ JsString.all class (JsString.charAt s i) = true.
Proof.
  intros Hall Hi. rewrite forallb_forall in Hall.
  specialize (Hall i). unfold JsString.charAt.
  destruct (String.get i s) as [c|].
  - split; [reflexivity|]. rewrite all_String, Hall; [reflexivity|].
    apply in_seq. lia.
  - discriminate Hall. apply in_seq. lia.
Qed.

(** Rounding a product does not take it to the next integer: below
    [n * 2^53] by [n] at least, it stays below [n * 2^53]. *)
Lemma round53_lt p n :
  (0 < n)%N -> (p + n <= n * Platform.two53)%N ->
  (Platform.round53 p < n * Platform.two53)%N.
Proof.
  intros Hn Hp. unfold Platform.round53.
  destruct (p <? Platform.two53)%N eqn:Hsmall; [lia|].
  apply N.ltb_ge in Hsmall.
  assert (H53 : (53 <= N.log2 p)%N).
  { change 53%N with (N.log2 Platform.two53). apply N.log2_le_mono, Hsmall. }
  assert (Hpos : (0 < p)%N) by (unfold Platform.two53 in Hsmall; lia).
  destruct (N.log2_spec p Hpos) as [Hlow _].
  set (ulp := (2 ^ (N.log2 p - 52))%N) in *.
  assert (Hulp : (0 < ulp)%N) by (apply N.neq_0_lt_0, N.pow_nonzero; discriminate).
  assert (Hlog : (ulp * 2 ^ 52 <= p)%N).
  { unfold ulp. rewrite <- N.pow_add_r.
    replace (N.log2 p - 52 + 52)%N with (N.log2 p) by lia. exact Hlow. }
  pose proof (N.div_mod p ulp ltac:(lia)) as Hdiv.
  pose proof (N.mod_lt p ulp ltac:(lia)) as Hmod.
  set (q := (p / ulp)%N) in *. set (r := (p mod ulp)%N) in *.
  change Platform.two53 with (2 * 2 ^ 52)%N in *.
  set (K := (2 ^ 52)%N) in *.
  assert (HK : (0 < K)%N) by (unfold K; lia).
  assert (Hsmaller : (ulp < 2 * n)%N) by nia.
  destruct ((ulp <? 2 * r) || ((2 * r =? ulp) && N.odd q))%N eqn:Hup; [|nia].
  assert (Hhalf : (ulp <= 2 * r)%N).
  { apply orb_true_iff in Hup as [Hup | Hup].
    - apply N.ltb_lt in Hup. lia.
    - apply andb_true_iff in Hup as [Hup _]. apply N.eqb_eq in Hup. lia. }
  nia.
Qed.

Lemma floor_mul_lt m n :
  (m < Platform.two53)%N -> (0 < n)%N -> Platform.floor_mul m n < N.to_nat n.
Proof.
  intros Hm Hn. unfold Platform.floor_mul.
  assert (Platform.round53 (m * n) / Platform.two53 < n)%N; [|lia].
  apply N.Div0.div_lt_upper_bound. rewrite (N.mul_comm Platform.two53 n).
  apply round53_lt; [exact Hn|]. nia.
Qed.

Lemma length_append s t :
  String.length (s ++ t) = String.length s + String.length t.
Proof. induction s as [|c s IH]; simpl; [reflexivity|]. rewrite IH. reflexivity. Qed.

(** ** The monad *)

Lemma bind_returned {A B} (m : M A) (k : A -> M B) w a w' :
  m w = Returned a w' -> bind m k w = k a w'.
Proof. unfold bind. intros ->. reflexivity. Qed.

Lemma bind_thrown {A B} (m : M A) (k : A -> M B) w e w' :
  m w = Thrown e w' -> bind m k w = Thrown e w'.
Proof. unfold bind. intros ->. reflexivity. Qed.

Lemma bind_gets {A B} (f : world -> A) (k : A -> M B) w :
  bind (gets f) k w = k (f w) w.
Proof. reflexivity. Qed.

Lemma bind_modify {B} (f : world -> world) (k : unit -> M B) w :
  bind (modify f) k w = k tt (f w).
Proof. reflexivity. Qed.

Lemma bind_ret {A B} (a : A) (k : A -> M B) w :
  bind (ret a) k w = k a w.
Proof. reflexivity. Qed.

Lemma same_registry_refl w : same_registry w w.
Proof. repeat split. Qed.

Lemma same_registry_trans w1 w2 w3 :
  same_registry w1 w2 -> same_registry w2 w3 -> same_registry w1 w3.
Proof.
  unfold same_registry. intros (?&?&?&?) (?&?&?&?).
  repeat split; congruence.
Qed.

(** ** Room identifiers *)

Section RoomId.

Variable entropy : nat -> N.

Lemma random_index_spec n w :
  (0 < n)%N ->
  exists i w',
    random_index entropy n w = Returned i w'
    /\ same_registry w w' /\ i < N.to_nat n.
Proof.
  intros Hn. unfold random_index, Math_random, bind, ret.
  eexists _, _. split; [reflexivity|]. split; [repeat split|].
  apply floor_mul_lt; [|exact Hn].
  apply N.mod_lt. discriminate.
Qed.

Lemma chars_alnum :
  forallb (fun j =>
    match String.get j chars with
    | Some c => is_alnum c
    | None => false
    end) (seq 0 (62 - 0)) = true.
Proof. vm_compute. reflexivity. Qed.

Lemma random_chars_spec n : forall result w,
  exists s w',
    random_chars entropy n result w = Returned s w'
    /\ same_registry w w'
    /\ String.length s = String.length result + n
    /\ (JsString.all is_alnum result = true -> JsString.all is_alnum s = true).
Proof.
  induction n as [|n IH]; intros result w; simpl.
  - exists result, w. split; [reflexivity|].
    split; [apply same_registry_refl|]. split; [lia|auto].
  - destruct (random_index_spec 62 w) as (i & w1 & Hi & Hreg & Hlt); [lia|].
    change (N.of_nat (String.length chars)) with 62%N.
    rewrite (bind_returned _ _ _ _ _ Hi).
    destruct (charAt_in_range is_alnum chars 0 62 i chars_alnum) as [Hlen Hall];
      [simpl in Hlt; lia|].
    destruct (IH (result ++ JsString.charAt chars i) w1)
      as (s & w2 & Hrun & Hreg2 & Hlen2 & Hall2).
    exists s, w2. split; [exact Hrun|].
    split; [eapply same_registry_trans; eauto|].
    split.
    + rewrite Hlen2, length_append, Hlen. lia.
    + intros Hres. apply Hall2. rewrite all_append, Hres, Hall. reflexivity.
Qed.

(** One repair of [generateRoomId]: drop the first character and append
    [chars.charAt(off + i)] for a random [i] below [n]. *)
Lemma repair_spec n off s w :
  (0 < n)%N -> off + N.to_nat n <= 62 ->
  String.length s = 8 -> JsString.all is_alnum s = true ->
  exists s' w',
    (i <- random_index entropy n ;;
     ret (JsString.substring_from 1 s ++ JsString.charAt chars (off + i))) w
      = Returned s' w'
    /\ same_registry w w'
    /\ String.length s' = 8 /\ JsString.all is_alnum s' = true.
Proof.
  intros Hn Hoff Hlen Hall.
  destruct (random_index_spec n w Hn) as (i & w1 & Hi & Hreg & Hlt).
  rewrite (bind_returned _ _ _ _ _ Hi). unfold ret.
  destruct (charAt_in_range is_alnum chars 0 62 (off + i) chars_alnum)
    as [Hlen1 Hall1]; [lia|].
  eexists _, _. split; [reflexivity|]. split; [exact Hreg|]. split.
  - rewrite length_append, length_substring_from, Hlen, Hlen1. reflexivity.
  - rewrite all_append, all_substring_from, Hall1; auto.
Qed.

Lemma candidate_spec w :
  exists s w',
    candidate entropy w = Returned s w'
    /\ same_registry w w'
    /\ String.length s = 8 /\ JsString.all is_alnum s = true.
Proof.
  unfold candidate.
  destruct (random_chars_spec 8 "" w) as (s0 & w0 & H0 & R0 & L0 & A0).
  rewrite (bind_returned _ _ _ _ _ H0). simpl in L0. specialize (A0 eq_refl).
  assert (exists s1 w1,
    (if negb (JsString.test JsString.is_upper s0)
     then i <- random_index entropy 26 ;;
          ret (JsString.substring_from 1 s0 ++ JsString.charAt chars i)
     else ret s0) w0 = Returned s1 w1
    /\ same_registry w0 w1
    /\ String.length s1 = 8 /\ JsString.all is_alnum s1 = true)
    as (s1 & w1 & H1 & R1 & L1 & A1).
  { destruct (negb (JsString.test JsString.is_upper s0)).
    - apply (repair_spec 26 0); auto; simpl; lia.
    - exists s0, w0. repeat split; auto. }
  rewrite (bind_returned _ _ _ _ _ H1).
  assert (exists s2 w2,
    (if negb (JsString.test JsString.is_lower s1)
     then i <- random_index entropy 26 ;;
          ret (JsString.substring_from 1 s1 ++ JsString.charAt chars (26 + i))
     else ret s1) w1 = Returned s2 w2
    /\ same_registry w1 w2
    /\ String.length s2 = 8 /\ JsString.all is_alnum s2 = true)
    as (s2 & w2 & H2 & R2 & L2 & A2).
  { destruct (negb (JsString.test JsString.is_lower s1)).
    - apply (repair_spec 26 26); auto; simpl; lia.
    - exists s1, w1. repeat split; auto. }
  rewrite (bind_returned _ _ _ _ _ H2).
  assert (exists s3 w3,
    (if negb (JsString.test JsString.is_digit s2)
     then i <- random_index entropy 10 ;;
          ret (JsString.substring_from 1 s2 ++ JsString.charAt chars (52 + i))
     else ret s2) w2 = Returned s3 w3
    /\ same_registry w2 w3
    /\ String.length s3 = 8 /\ JsString.all is_alnum s3 = true)
    as (s3 & w3 & H3 & R3 & L3 & A3).
  { destruct (negb (JsString.test JsString.is_digit s2)).
    - apply (repair_spec 10 52); auto; simpl; lia.
    - exists s2, w2. repeat split; auto. }
  exists s3, w3. split; [exact H3|].
  split; [|auto].
  eauto using same_registry_trans.
Qed.

(** [generateRoomId] returns or exhausts the stack; either way only random
    numbers have been consumed, and when it returns, the identifier has
    eight characters of the alphabet and is not a key of [rooms]. *)
Lemma generateRoomId_spec fuel : forall w,
  (exists w',
     generateRoomId entropy fuel w = Thrown RangeError w' /\ same_registry w w')
  \/ exists s w',
       generateRoomId entropy fuel w = Returned s w'
       /\ same_registry w w'
       /\ String.length s = 8 /\ JsString.all is_alnum s = true
       /\ rooms w !! s = None.
Proof.
  induction fuel as [|fuel IH]; intros w; simpl.
  { left. exists w. split; [reflexivity|apply same_registry_refl]. }
  destruct (candidate_spec w) as (s & w1 & Hc & Hreg & Hlen & Hall).
  rewrite (bind_returned _ _ _ _ _ Hc).
  rewrite bind_gets. unfold rooms_get.
  destruct (rooms w1 !! s) as [r|] eqn:Hlook; simpl.
  - destruct (IH w1)
      as [(w' & Hd & Hreg') | (s' & w' & Hrun & Hreg' & Hlen' & Hall' & Hfree)].
    + left. exists w'. split; [exact Hd|eauto using same_registry_trans].
    + right. exists s', w'. split; [exact Hrun|].
      split; [eauto using same_registry_trans|].
      destruct Hreg as (_ & Hrooms & _). rewrite <- Hrooms. auto.
  - right. exists s, w1. split; [reflexivity|]. split; [exact Hreg|].
    destruct Hreg as (_ & Hrooms & _). rewrite <- Hrooms. auto.
Qed.

(** With enough fuel [generateRoomId] returns as soon as a candidate is
    free: here, at the first attempt. *)
Lemma generateRoomId_first_free fuel w s w' :
  candidate entropy w = Returned s w' -> rooms w' !! s = None ->
  generateRoomId entropy (S fuel) w = Returned s w'.
Proof.
  intros Hc Hfree. simpl. rewrite (bind_returned _ _ _ _ _ Hc).
  rewrite bind_gets. unfold rooms_get. rewrite Hfree. reflexivity.
Qed.

End RoomId.

(** ** User identifiers *)

Lemma digits36_base36 :
  forallb (fun j =>
    match String.get j Platform.digits36 with
    | Some c => is_base36 c
    | None => false
    end) (seq 0 (36 - 0)) = true.
Proof. vm_compute. reflexivity. Qed.

Lemma get_beyond s : forall i, String.length s <= i -> String.get i s = None.
Proof.
  induction s as [|c s IH]; intros i Hi; [reflexivity|].
  destruct i as [|i]; simpl in *; [lia|]. apply IH. lia.
Qed.

Lemma render_base36 digits :
  JsString.all is_base36 (Platform.render digits) = true.
Proof.
  induction digits as [|digit rest IH]; [reflexivity|]. simpl.
  rewrite all_append, IH, andb_true_r.
  destruct (Nat.lt_ge_cases (N.to_nat digit) 36) as [Hd|Hd].
  - destruct (charAt_in_range is_base36 Platform.digits36 0 36
                (N.to_nat digit) digits36_base36) as [_ Hc]; [lia|].
    exact Hc.
  - unfold JsString.charAt. rewrite get_beyond by exact Hd. reflexivity.
Qed.

(** A rounded value is not below the largest power of two that the exact
    value reaches. *)
Lemma round53_log2 x : (0 < x)%N -> (2 ^ N.log2 x <= Platform.round53 x)%N.
Proof.
  intros Hpos. destruct (N.log2_spec x Hpos) as [Hlow _].
  unfold Platform.round53.
  destruct (x <? Platform.two53)%N eqn:Hsmall; [exact Hlow|].
  apply N.ltb_ge in Hsmall.
  assert (H53 : (53 <= N.log2 x)%N).
  { change 53%N with (N.log2 Platform.two53). apply N.log2_le_mono, Hsmall. }
  replace (N.log2 x) with (52 + (N.log2 x - 52))%N at 1 by lia.
  rewrite N.pow_add_r.
  set (ulp := (2 ^ (N.log2 x - 52))%N) in *.
  assert (Hulp : (0 < ulp)%N) by (apply N.neq_0_lt_0, N.pow_nonzero; discriminate).
  assert (Hq : (2 ^ 52 <= x / ulp)%N).
  { apply N.div_le_lower_bound; [lia|].
    unfold ulp. rewrite <- N.pow_add_r.
    replace (N.log2 x - 52 + 52)%N with (N.log2 x) by lia. exact Hlow. }
  destruct (_ || _); nia.
Qed.

(** Multiplied by 36, [delta] gains five binary digits at least. *)
Lemma round53_grows delta :
  (0 < delta)%N -> (N.log2 delta + 5 <= N.log2 (Platform.round53 (delta * 36)))%N.
Proof.
  intros Hpos.
  assert (Hprod : (0 < delta * 36)%N) by lia.
  pose proof (round53_log2 (delta * 36) Hprod) as Hround.
  apply N.log2_le_mono in Hround. rewrite N.log2_pow2 in Hround by lia.
  etransitivity; [|exact Hround].
  rewrite N.add_comm, <- (N.log2_mul_pow2 delta 5) by lia.
  apply N.log2_le_mono. lia.
Qed.

Lemma fraction36_unfold fuel fraction delta buffer :
  Platform.fraction36 (S fuel) fraction delta buffer
  = (let shifted := Platform.round53 (fraction * 36) in
     let delta' := Platform.round53 (delta * 36) in
     let digit := shifted / Platform.one in
     let fraction' := shifted mod Platform.one in
     if ((Platform.one <? 2 * fraction')
         || ((2 * fraction' =? Platform.one) && N.odd digit))
        && (Platform.one <? Platform.round53 (fraction' + delta'))
     then Platform.carry_over (digit :: buffer)
     else if delta' <=? fraction'
          then Platform.fraction36 fuel fraction' delta' (digit :: buffer)
          else Some (digit :: buffer))%N.
Proof. reflexivity. Qed.

(** The loop of [fraction36] does not need more turns than it is given,
    when [delta] is large enough for their number. *)
Lemma fraction36_enough fuel : forall fraction delta buffer,
  (0 < delta)%N ->
  (107 <= N.log2 delta + 5 * N.of_nat (S fuel))%N ->
  Platform.fraction36 (S (S fuel)) fraction delta buffer
  = Platform.fraction36 (S fuel) fraction delta buffer.
Proof.
  induction fuel as [|fuel IH]; intros fraction delta buffer Hpos Hlog;
    rewrite (fraction36_unfold (S _)), (fraction36_unfold _); cbv zeta;
    pose proof (round53_grows delta Hpos) as Hgrow;
    set (delta' := Platform.round53 (delta * 36)) in *;
    set (shifted := Platform.round53 (fraction * 36)) in *;
    (destruct (_ && _); [reflexivity|]);
    (destruct (delta' <=? shifted mod Platform.one)%N eqn:Hcont; [|reflexivity]);
    apply N.leb_le in Hcont;
    assert (Hone : (shifted mod Platform.one < Platform.one)%N)
      by (apply N.mod_lt; discriminate);
    assert (Hpos' : (0 < delta')%N)
      by (destruct (N.eq_dec delta' 0%N) as [H0|];
          [rewrite H0 in Hgrow; simpl in Hgrow|]; lia);
    assert (Hlt : (N.log2 delta' < 107)%N)
      by (apply N.log2_lt_pow2; [exact Hpos'|fold Platform.one; lia]).
  - lia.
  - apply IH; [exact Hpos'|]. rewrite !Nat2N.inj_succ in *. lia.
Qed.

(** The turns given in [toString36] are enough: more of them change
    nothing. *)
Lemma toString36_turns m k :
  (0 < m)%N ->
  Platform.fraction36 (24 + k) (m * 2 ^ 54) (2 ^ (N.log2 m + 1)) []
  = Platform.fraction36 24 (m * 2 ^ 54) (2 ^ (N.log2 m + 1)) [].
Proof.
  intros Hm. induction k as [|k IH]; [reflexivity|].
  rewrite <- IH, Nat.add_succ_r.
  change (24 + k) with (S (S (22 + k))).
  apply fraction36_enough.
  - apply N.neq_0_lt_0, N.pow_nonzero. discriminate.
  - rewrite N.log2_pow2, !Nat2N.inj_succ by lia. lia.
Qed.

Lemma substring_prefix2 c1 c2 s n :
  JsString.substring 2 (2 + n) (String c1 (String c2 s)) = String.substring 0 n s.
Proof. unfold JsString.substring. replace (2 + n - 2) with n by lia. reflexivity. Qed.

Lemma generateUserId_spec entropy w :
  exists uid w',
    generateUserId entropy w = Returned uid w'
    /\ same_registry w w' /\ randoms w' = S (randoms w)
    /\ String.length uid <= 13 /\ JsString.all is_base36 uid = true.
Proof.
  unfold generateUserId, Math_random, bind, ret.
  eexists _, _. split; [reflexivity|]. split; [repeat split|].
  split; [reflexivity|].
  set (m := (entropy (randoms w) mod Platform.two53)%N).
  assert (Hm : (m < Platform.two53)%N) by (apply N.mod_lt; discriminate).
  unfold Platform.toString36. destruct (m =? 0)%N; [split; [simpl; lia|reflexivity]|].
  destruct (Platform.fraction36 _ _ _ _) as [buffer|];
    [|split; [simpl; lia|reflexivity]].
  change ("0." ++ Platform.render (rev buffer))
    with (String "0" (String "." (Platform.render (rev buffer)))).
  rewrite (substring_prefix2 _ _ _ 13). split.
  - apply length_substring.
  - apply all_substring, render_base36.
Qed.

(** ** The handlers, one by one *)

Section Handlers.

Variable entropy : nat -> N.
Variable clock : nat -> Z.


Lemma forEach_send (f : User -> envelope) l : forall a r wi n d,
  forEach l (fun u => send (socket u) (f u)) (mkWorld a r wi n d)
  = Returned tt (mkWorld a r (wi ++ map (fun u => (socket u, f u)) l) n d).
Proof.
  induction l as [|u l IH]; intros a r wi n d; simpl.
  - rewrite app_nil_r. reflexivity.
  - unfold bind, send, modify. simpl. rewrite IH, <- app_assoc. reflexivity.
Qed.

Lemma forEach_message v payload text uid l :
  get_prop v "payload" = inr payload -> get_prop payload "message" = inr text ->
  forall a r wi n d,
  forEach l (fun u =>
    payload <- lift (get_prop v "payload") ;;
    text <- lift (get_prop payload "message") ;;
    now <- new_Date clock ;;
    send (socket u) (message text uid (Platform.toISOString now)))
    (mkWorld a r wi n d)
  = Returned tt
      (mkWorld a r
         (wi ++ imap (fun i u =>
            (socket u, message text uid (Platform.toISOString (clock (d + i))))) l)
         n (d + length l)).
Proof.
  intros Hp Ht.
  set (callback := fun u : User => _).
  assert (Hbody : forall u a r wi n d,
    callback u (mkWorld a r wi n d)
    = Returned tt
        (mkWorld a r
           (wi ++ [(socket u, message text uid (Platform.toISOString (clock d)))])
           n (S d))).
  { intros. unfold callback, bind. rewrite Hp. simpl. rewrite Ht. reflexivity. }
  clearbody callback.
  induction l as [|u l IH]; intros a r wi n d; simpl.
  - rewrite app_nil_r, Nat.add_0_r. reflexivity.
  - rewrite (bind_returned _ _ _ _ _ (Hbody u a r wi n d)).
    rewrite IH, <- app_assoc, Nat.add_0_r. simpl. do 2 f_equal; [|lia].
    do 2 f_equal. apply imap_ext. intros i x _. simpl.
    replace (d + S i) with (S (d + i)) by lia. reflexivity.
Qed.


Lemma list_find_fst_snd (conn : WebSocket) (l : list User) :
  (findIndex conn l = None <-> find conn l = None)
  /\ (forall i u, list_find (fun u => socket u = conn) l = Some (i, u) ->
        findIndex conn l = Some i /\ find conn l = Some u).
Proof.
  unfold findIndex, find.
  destruct (list_find _ l) as [[i u]|]; simpl; split.
  - split; discriminate.
  - intros ? ? [= <- <-]. split; reflexivity.
  - split; reflexivity.
  - discriminate.
Qed.

Lemma createRoom_spec conn fuel w :
  (exists w',
     createRoom entropy clock conn fuel w = Thrown RangeError w'
     /\ same_registry w w')
  \/ exists rid uid w',
       createRoom entropy clock conn fuel w = Returned tt w'
       /\ String.length rid = 8 /\ JsString.all is_alnum rid = true
       /\ rooms w !! rid = None
       /\ allSockets w' = (allSockets w ++ [mkUser conn rid uid])%list
       /\ rooms w' =
            <[rid := mkRoom rid [mkUser conn rid uid] (clock (dates w))]> (rooms w)
       /\ wire w' = (wire w ++ [(conn, roomCreated rid uid)])%list
       /\ dates w' = S (dates w).
Proof.
  unfold createRoom.
  destruct (generateRoomId_spec entropy fuel w)
    as [(w' & Hd & Hreg) | (rid & w1 & Hrun & Hreg & Hlen & Hall & Hfree)].
  - left. exists w'. split; [apply bind_thrown, Hd|exact Hreg].
  - right. rewrite (bind_returned _ _ _ _ _ Hrun).
    destruct (generateUserId_spec entropy w1) as (uid & w2 & Hu & Hreg2 & _).
    rewrite (bind_returned _ _ _ _ _ Hu).
    exists rid, uid. destruct w2 as [a r wi n d].
    destruct Hreg as (Ha & Hr & Hw & Hd), Hreg2 as (Ha2 & Hr2 & Hw2 & Hd2).
    simpl in *. eexists. split; [reflexivity|]. simpl.
    repeat split; auto; congruence.
Qed.

Lemma joinRoom_missing conn v payload roomId w :
  get_prop v "payload" = inr payload -> get_prop payload "roomId" = inr roomId ->
  rooms_get roomId w = None ->
  exists w',
    joinRoom entropy conn v w = Returned tt w'
    /\ allSockets w' = allSockets w /\ rooms w' = rooms w
    /\ wire w' = (wire w ++ [(conn, error "Room not found")])%list
    /\ dates w' = dates w.
Proof.
  intros Hp Hr Hnone. unfold joinRoom. rewrite Hp. simpl. rewrite bind_ret, Hr.
  simpl. rewrite bind_ret.
  destruct (generateUserId_spec entropy w) as (uid & w1 & Hu & Hreg & _).
  rewrite (bind_returned _ _ _ _ _ Hu), bind_gets.
  destruct Hreg as (Ha & Hrooms & Hw & Hd).
  replace (rooms_get roomId w1) with (rooms_get roomId w)
    by (unfold rooms_get; rewrite Hrooms; reflexivity).
  rewrite Hnone. destruct w1; simpl in *. eexists. split; [reflexivity|].
  simpl. repeat split; congruence.
Qed.

Lemma joinRoom_found conn v payload rid r w :
  get_prop v "payload" = inr payload ->
  get_prop payload "roomId" = inr (VStr rid) ->
  rooms w !! rid = Some r ->
  exists uid w',
    joinRoom entropy conn v w = Returned tt w'
    /\ allSockets w' = (allSockets w ++ [mkUser conn rid uid])%list
    /\ rooms w' =
         <[rid := mkRoom (id r) (users r ++ [mkUser conn rid uid]) (createdAt r)]>
           (rooms w)
    /\ wire w' =
         (wire w
          ++ map (fun u => (socket u, userJoined (length (users r) + 1))) (users r)
          ++ [(conn, roomJoined rid uid
                       (length (users r ++ [mkUser conn rid uid])))])%list
    /\ dates w' = dates w.
Proof.
  intros Hp Hr Hsome. unfold joinRoom. rewrite Hp. simpl. rewrite bind_ret, Hr.
  simpl. rewrite bind_ret.
  destruct (generateUserId_spec entropy w) as (uid & w1 & Hu & Hreg & _).
  rewrite (bind_returned _ _ _ _ _ Hu), bind_gets.
  destruct Hreg as (Ha & Hrooms & Hw & Hd).
  unfold rooms_get. rewrite Hrooms, Hsome. simpl.
  destruct w1 as [a1 r1 wi1 n1 d1]; simpl in *.
  rewrite (bind_returned _ _ _ _ _ (forEach_send _ _ _ _ _ _ _)).
  exists uid. eexists. split; [reflexivity|]. simpl.
  subst. rewrite <- app_assoc. repeat split.
Qed.

Lemma joinRoom_thrown conn v w :
  (forall payload, get_prop v "payload" = inr payload ->
     payload = VUndefined \/ payload = VNull) ->
  exists e, joinRoom entropy conn v w = Thrown e w.
Proof.
  intros Hbad. unfold joinRoom.
  destruct (get_prop v "payload") as [e|payload] eqn:Hp; simpl.
  - exists e. reflexivity.
  - rewrite bind_ret.
    destruct (Hbad payload eq_refl) as [-> | ->]; exists TypeError; reflexivity.
Qed.

Lemma get_prop_defined v key :
  v <> VUndefined -> v <> VNull -> exists x, get_prop v key = inr x.
Proof. destruct v; simpl; eauto; congruence. Qed.


Lemma bind_lift_inr {A B} (r : exn + A) (k : A -> M B) x w :
  r = inr x -> bind (lift r) k w = k x w.
Proof. intros ->. reflexivity. Qed.

Lemma chat_thrown conn v w :
  (forall payload, get_prop v "payload" = inr payload ->
     payload = VUndefined \/ payload = VNull) ->
  exists e, chat clock conn v w = Thrown e w.
Proof.
  intros Hbad. unfold chat.
  destruct (get_prop v "payload") as [e|payload] eqn:Hp; simpl.
  - exists e. reflexivity.
  - rewrite bind_ret.
    destruct (Hbad payload eq_refl) as [-> | ->]; exists TypeError; reflexivity.
Qed.

Lemma chat_silent conn v payload text w :
  get_prop v "payload" = inr payload -> get_prop payload "message" = inr text ->
  find conn (allSockets w) = None
  \/ (exists u, find conn (allSockets w) = Some u
                /\ (room u = "" \/ rooms w !! room u = None)) ->
  chat clock conn v w = Returned tt w.
Proof.
  intros Hp Ht Hcase. unfold chat. rewrite Hp. simpl. rewrite bind_ret, Ht.
  simpl. rewrite bind_ret, bind_gets.
  destruct Hcase as [-> | (u & -> & Hroom)]; simpl.
  - reflexivity.
  - rewrite bind_gets. destruct Hroom as [-> | Hnone]; [reflexivity|].
    rewrite Hnone. simpl. destruct (String.eqb (room u) ""); reflexivity.
Qed.

Lemma chat_broadcast conn v payload text u r w :
  get_prop v "payload" = inr payload -> get_prop payload "message" = inr text ->
  find conn (allSockets w) = Some u -> room u <> "" ->
  rooms w !! room u = Some r ->
  exists w',
    chat clock conn v w = Returned tt w'
    /\ allSockets w' = allSockets w /\ rooms w' = rooms w
    /\ wire w' =
         (wire w
          ++ imap (fun i m =>
               (socket m,
                message text (Some (userId u))
                  (Platform.toISOString (clock (dates w + i))))) (users r))%list
    /\ dates w' = dates w + length (users r)
    /\ randoms w' = randoms w.
Proof.
  intros Hp Ht Hu Hne Hr. unfold chat.
  rewrite (bind_lift_inr _ _ _ _ Hp), (bind_lift_inr _ _ _ _ Ht).
  rewrite bind_gets, Hu. simpl. rewrite bind_gets, Hr.
  apply String.eqb_neq in Hne. rewrite Hne. simpl.
  destruct w as [a rs wi n d]. rewrite (forEach_message _ _ _ _ _ Hp Ht).
  eexists. split; [reflexivity|]. simpl. repeat split.
Qed.

Lemma onClose_unbound conn w :
  find conn (allSockets w) = None -> onClose conn w = Returned tt w.
Proof.
  intros Hnone. apply (list_find_fst_snd conn (allSockets w)) in Hnone.
  unfold onClose. rewrite bind_gets, Hnone. reflexivity.
Qed.

Lemma onClose_bound conn w i u :
  list_find (fun u => socket u = conn) (allSockets w) = Some (i, u) ->
  exists w',
    onClose conn w = Returned tt w'
    /\ allSockets w' = delete i (allSockets w)
    /\ randoms w' = randoms w /\ dates w' = dates w
    /\ match rooms w !! room u with
       | None => rooms w' = rooms w /\ wire w' = wire w
       | Some r =>
           match list_find (fun u => socket u = conn) (users r) with
           | None => rooms w' = rooms w /\ wire w' = wire w
           | Some (j, _) =>
               let remaining := delete j (users r) in
               let r' := mkRoom (id r) remaining (createdAt r) in
               rooms w' =
                 (if (length remaining =? 0)%nat
                  then delete (room u) (<[room u := r']> (rooms w))
                  else <[room u := r']> (rooms w))
               /\ wire w' =
                    (wire w
                     ++ map (fun m => (socket m, userLeft (length remaining)))
                          remaining)%list
           end
       end.
Proof.
  intros Hfind.
  destruct (proj2 (list_find_fst_snd conn (allSockets w)) i u Hfind) as [Hi _].
  apply list_find_Some in Hfind as (Hlook & _ & _).
  unfold onClose. rewrite bind_gets, Hi, bind_gets, Hlook, bind_modify, bind_gets.
  destruct w as [a rs wi n d]. simpl in *.
  destruct (rs !! room u) as [r|]; simpl.
  - unfold findIndex. destruct (list_find _ (users r)) as [[j u']|]; simpl.
    + rewrite bind_modify. unfold set_rooms. simpl.
      rewrite (bind_returned _ _ _ _ _ (forEach_send _ _ _ _ _ _ _)).
      destruct (length (delete j (users r)) =? 0)%nat;
        (eexists; split; [reflexivity|]); simpl; repeat split.
    + eexists; split; [reflexivity|]; simpl; repeat split.
  - eexists; split; [reflexivity|]; simpl; repeat split.
Qed.

(** Dispatch on the [type] of a parsed frame. *)

Ltac decide_type_tests :=
  repeat match goal with
  | |- context [strict_eq_str (VStr ?a) ?b] =>
      let c := eval vm_compute in (strict_eq_str (VStr a) b) in
      change (strict_eq_str (VStr a) b) with c
  end.

Lemma onMessage_createRoom conn fuel v w :
  has_type v "createRoom" ->
  onMessage entropy clock conn fuel (Parsed v) w
  = createRoom entropy clock conn fuel w.
Proof.
  unfold has_type, onMessage. intros H. rewrite bind_ret, H. simpl.
  unfold bind, ret. decide_type_tests. cbv beta iota.
  destruct (createRoom _ _ _ _ w) as [[] w'|]; reflexivity.
Qed.

Lemma onMessage_joinRoom conn fuel v w :
  has_type v "joinRoom" ->
  onMessage entropy clock conn fuel (Parsed v) w = joinRoom entropy conn v w.
Proof.
  unfold has_type, onMessage. intros H. rewrite bind_ret, H. simpl.
  unfold bind, ret. decide_type_tests. cbv beta iota.
  destruct (joinRoom _ _ _ w) as [[] w'|]; reflexivity.
Qed.

Lemma onMessage_chat conn fuel v w :
  has_type v "chat" ->
  onMessage entropy clock conn fuel (Parsed v) w = chat clock conn v w.
Proof.
  unfold has_type, onMessage. intros H. rewrite bind_ret, H. simpl.
  unfold bind, ret. decide_type_tests. cbv beta iota.
  destruct (chat _ _ _ w) as [[] w'|]; reflexivity.
Qed.

Lemma strict_eq_str_true t s : strict_eq_str t s = true <-> t = VStr s.
Proof.
  destruct t; simpl; try (split; [discriminate|congruence]).
  rewrite String.eqb_eq. split; congruence.
Qed.

(** What the handler does on any frame, by the three tests on [type]. *)
Lemma onMessage_cases conn fuel data w :
  match data with
  | Unparseable => onMessage entropy clock conn fuel data w = Thrown SyntaxError w
  | Parsed v =>
      match get_prop v "type" with
      | inl e => onMessage entropy clock conn fuel data w = Thrown e w
      | inr t =>
          if strict_eq_str t "createRoom" then
            onMessage entropy clock conn fuel data w
            = createRoom entropy clock conn fuel w
          else if strict_eq_str t "joinRoom" then
            onMessage entropy clock conn fuel data w = joinRoom entropy conn v w
          else if strict_eq_str t "chat" then
            onMessage entropy clock conn fuel data w = chat clock conn v w
          else onMessage entropy clock conn fuel data w = Returned tt w
      end
  end.
Proof.
  destruct data as [|v]; [reflexivity|].
  destruct (get_prop v "type") as [e|t] eqn:Ht.
  - unfold onMessage. rewrite bind_ret, Ht. reflexivity.
  - destruct (strict_eq_str t "createRoom") eqn:E1.
    { apply strict_eq_str_true in E1. subst t. apply onMessage_createRoom, Ht. }
    destruct (strict_eq_str t "joinRoom") eqn:E2.
    { apply strict_eq_str_true in E2. subst t. apply onMessage_joinRoom, Ht. }
    destruct (strict_eq_str t "chat") eqn:E3.
    { apply strict_eq_str_true in E3. subst t. apply onMessage_chat, Ht. }
    unfold onMessage. rewrite bind_ret, Ht. simpl. unfold bind at 1. simpl.
    rewrite E1. simpl. unfold bind at 1 2. simpl. rewrite E2. simpl.
    unfold bind. simpl. rewrite E3. reflexivity.
Qed.

End Handlers.

(** ** The fuel only bounds the search *)

Section Fuel.

Variable entropy : nat -> N.
Variable clock : nat -> Z.

Lemma generateRoomId_unfold fuel w :
  generateRoomId entropy (S fuel) w
  = match candidate entropy w with
    | Returned result w1 =>
        match rooms w1 !! result with
        | Some _ => generateRoomId entropy fuel w1
        | None => Returned result w1
        end
    | Thrown e w1 => Thrown e w1
    end.
Proof.
  simpl. unfold bind at 1.
  destruct (candidate entropy w) as [result w1|]; try reflexivity.
  rewrite bind_gets. unfold rooms_get.
  destruct (rooms w1 !! result); reflexivity.
Qed.

(** A result found with some fuel is found with more. *)
Lemma generateRoomId_more_fuel fuel : forall w s w',
  generateRoomId entropy fuel w = Returned s w' ->
  generateRoomId entropy (S fuel) w = Returned s w'.
Proof.
  induction fuel as [|fuel IH]; intros w s w' Hrun; [discriminate|].
  rewrite generateRoomId_unfold in Hrun. rewrite generateRoomId_unfold.
  destruct (candidate entropy w) as [result w1|]; try discriminate.
  destruct (rooms w1 !! result); [apply IH, Hrun|exact Hrun].
Qed.

Lemma createRoom_more_fuel conn fuel w w' :
  createRoom entropy clock conn fuel w = Returned tt w' ->
  createRoom entropy clock conn (S fuel) w = Returned tt w'.
Proof.
  unfold createRoom. intros H.
  destruct (generateRoomId entropy fuel w) as [s w1|] eqn:Hgen.
  - rewrite (bind_returned _ _ _ _ _ Hgen) in H.
    rewrite (bind_returned _ _ _ _ _ (generateRoomId_more_fuel fuel w s w1 Hgen)).
    exact H.
  - unfold bind in H. rewrite Hgen in H. discriminate.
Qed.

(** An event handled with some fuel is handled alike with more. *)
Lemma handle_more_fuel fuel e w w' :
  handle entropy clock fuel e w = Returned tt w' ->
  handle entropy clock (S fuel) e w = Returned tt w'.
Proof.
  destruct e as [conn data|conn]; simpl; [|auto].
  pose proof (onMessage_cases entropy clock conn fuel data w) as H1.
  pose proof (onMessage_cases entropy clock conn (S fuel) data w) as H2.
  destruct data as [|v]; [congruence|].
  destruct (get_prop v "type") as [e|t]; [congruence|].
  destruct (strict_eq_str t "createRoom"); [|
    destruct (strict_eq_str t "joinRoom"); [congruence|
      destruct (strict_eq_str t "chat"); congruence]].
  rewrite H1, H2. apply createRoom_more_fuel.
Qed.

End Fuel.

(** ** Removing the first element that satisfies a test *)

Section FirstMatch.

Context {A : Type} (P Q : A -> Prop)
  `{!forall x, Decision (P x)} `{!forall x, Decision (Q x)}.

Lemma first_match_split (l : list A) i x :
  list_find Q l = Some (i, x) ->
  l = (take i l ++ x :: drop (S i) l)%list
  /\ Q x /\ Forall (fun y => ~ Q y) (take i l).
Proof.
  intros (Hlook & Hq & Hleast)%list_find_Some.
  split; [symmetry; apply take_drop_middle, Hlook|]. split; [exact Hq|].
  apply Forall_lookup. intros j y (Hy & Hj)%lookup_take_Some.
  eapply Hleast; eauto.
Qed.

(** The first match of [Q] in [l] is also the first match of [Q] in the
    elements of [l] selected by [P], when [P] selects it; deleting it there
    and deleting it in [l] agree. *)
Lemma first_match_filter (l : list A) i x :
  list_find Q l = Some (i, x) -> P x ->
  let j := length (filter P (take i l)) in
  list_find Q (filter P l) = Some (j, x)
  /\ delete j (filter P l) = filter P (delete i l).
Proof.
  intros Hfind Hp j.
  destruct (first_match_split l i x Hfind) as (Hl & Hq & Hleast).
  assert (Hfl : filter P l = (filter P (take i l) ++ x :: filter P (drop (S i) l))%list).
  { rewrite Hl at 1. rewrite filter_app, filter_cons_True by exact Hp. reflexivity. }
  split.
  - rewrite Hfl. apply list_find_Some. split; [apply list_lookup_middle; reflexivity|].
    split; [exact Hq|]. intros k y Hk Hlt.
    rewrite lookup_app_l in Hk by exact Hlt.
    apply list_elem_of_lookup_2, list_elem_of_filter in Hk as [_ Hin].
    rewrite Forall_forall in Hleast. apply Hleast, Hin.
  - rewrite Hfl. unfold j. rewrite delete_middle, delete_take_drop, filter_app.
    reflexivity.
Qed.

(** Elements that [P] does not select are not disturbed. *)
Lemma first_match_filter_other (l : list A) i x :
  list_find Q l = Some (i, x) -> ~ P x ->
  filter P (delete i l) = filter P l.
Proof.
  intros Hfind Hp.
  destruct (first_match_split l i x Hfind) as (Hl & _ & _).
  rewrite Hl at 2. rewrite delete_take_drop, !filter_app, filter_cons_False by exact Hp.
  reflexivity.
Qed.

End FirstMatch.

(** ** Coherence of the registry *)

Lemma coherent_same w w' :
  allSockets w' = allSockets w -> rooms w' = rooms w -> coherent w -> coherent w'.
Proof.
  intros Ha Hr [H1 H2 H3 H4]. split; rewrite ?Ha, ?Hr; assumption.
Qed.

Lemma coherent_initial : coherent initial.
Proof.
  split; simpl.
  - intros k r H. rewrite lookup_empty in H. discriminate.
  - intros k r H. rewrite lookup_empty in H. discriminate.
  - intros k r H. rewrite lookup_empty in H. discriminate.
  - intros u H. apply elem_of_nil in H. contradiction.
Qed.

Lemma coherent_fresh_key w k :
  coherent w -> rooms w !! k = None ->
  filter (fun u => room u = k) (allSockets w) = [].
Proof.
  intros Hc Hnone.
  destruct (filter _ _) as [|u l] eqn:Hf; [reflexivity|].
  assert (Hin : u ∈ filter (fun u => room u = k) (allSockets w))
    by (rewrite Hf; left).
  apply list_elem_of_filter in Hin as [Hk Hin].
  apply (coherent_records w Hc) in Hin as [r Hr]. congruence.
Qed.

Lemma coherent_created w w' rid u t :
  coherent w -> rooms w !! rid = None -> String.length rid = 8 ->
  room u = rid ->
  allSockets w' = (allSockets w ++ [u])%list ->
  rooms w' = <[rid := mkRoom rid [u] t]> (rooms w) ->
  coherent w'.
Proof.
  intros Hc Hfree Hlen Hu Ha Hr. split; rewrite ?Ha, ?Hr.
  - intros k r. rewrite lookup_insert. case_decide as Hk.
    + intros [= <-]. simpl. subst k.
      rewrite filter_app, (coherent_fresh_key w rid Hc Hfree).
      rewrite filter_cons_True by exact Hu. reflexivity.
    + intros Hlook. rewrite filter_app, filter_cons_False, app_nil_r by congruence.
      apply (coherent_members w Hc), Hlook.
  - intros k r. rewrite lookup_insert. case_decide.
    + intros [= <-]. discriminate.
    + apply (coherent_nonempty w Hc).
  - intros k r. rewrite lookup_insert. case_decide.
    + intros _. congruence.
    + apply (coherent_keys w Hc).
  - intros u' [Hin | ->%list_elem_of_singleton]%elem_of_app.
    + rewrite lookup_insert. case_decide; [eauto|].
      apply (coherent_records w Hc), Hin.
    + rewrite Hu, lookup_insert_eq. eauto.
Qed.

Lemma coherent_joined w w' rid r u :
  coherent w -> rooms w !! rid = Some r -> room u = rid ->
  allSockets w' = (allSockets w ++ [u])%list ->
  rooms w' = <[rid := mkRoom (id r) (users r ++ [u]) (createdAt r)]> (rooms w) ->
  coherent w'.
Proof.
  intros Hc Hroom Hu Ha Hr. split; rewrite ?Ha, ?Hr.
  - intros k r'. rewrite lookup_insert. case_decide as Hk.
    + intros [= <-]. simpl. subst k.
      rewrite filter_app, filter_cons_True by exact Hu.
      rewrite (coherent_members w Hc rid r Hroom). reflexivity.
    + intros Hlook. rewrite filter_app, filter_cons_False, app_nil_r by congruence.
      apply (coherent_members w Hc), Hlook.
  - intros k r'. rewrite lookup_insert. case_decide.
    + intros [= <-]. simpl. destruct (users r); discriminate.
    + apply (coherent_nonempty w Hc).
  - intros k r'. rewrite lookup_insert. case_decide.
    + intros _. subst k. apply (coherent_keys w Hc rid r Hroom).
    + apply (coherent_keys w Hc).
  - intros u' [Hin | ->%list_elem_of_singleton]%elem_of_app.
    + rewrite lookup_insert. case_decide; [eauto|].
      apply (coherent_records w Hc), Hin.
    + rewrite Hu, lookup_insert_eq. eauto.
Qed.

(** In a coherent registry the ["close"] handler finds the record it took
    from [allSockets] at the head of the connection's records in the room,
    and removes that one. *)
Lemma coherent_first_record w conn i u :
  coherent w ->
  list_find (fun u => socket u = conn) (allSockets w) = Some (i, u) ->
  exists r j,
    rooms w !! room u = Some r
    /\ list_find (fun u => socket u = conn) (users r) = Some (j, u)
    /\ delete j (users r)
       = filter (fun m => room m = room u) (delete i (allSockets w)).
Proof.
  intros Hc Hfind.
  assert (Hin : u ∈ allSockets w).
  { apply list_find_Some in Hfind as (Hlook & _). eapply list_elem_of_lookup_2, Hlook. }
  destruct (coherent_records w Hc u Hin) as [r Hr].
  exists r, (length (filter (fun m => room m = room u) (take i (allSockets w)))).
  split; [exact Hr|].
  rewrite (coherent_members w Hc _ r Hr).
  apply (first_match_filter (fun m => room m = room u) _ _ i u Hfind eq_refl).
Qed.

Lemma coherent_closed w w' conn i u r j :
  coherent w ->
  list_find (fun u => socket u = conn) (allSockets w) = Some (i, u) ->
  rooms w !! room u = Some r ->
  delete j (users r) = filter (fun m => room m = room u) (delete i (allSockets w)) ->
  allSockets w' = delete i (allSockets w) ->
  rooms w' =
    (let r' := mkRoom (id r) (delete j (users r)) (createdAt r) in
     if (length (delete j (users r)) =? 0)%nat
     then delete (room u) (<[room u := r']> (rooms w))
     else <[room u := r']> (rooms w)) ->
  coherent w'.
Proof.
  intros Hc Hfind Hroom Hrem Ha Hr. simpl in Hr.
  assert (Hother : forall k, k <> room u ->
    filter (fun m => room m = k) (delete i (allSockets w))
    = filter (fun m => room m = k) (allSockets w)).
  { intros k Hk. apply (first_match_filter_other _ _ _ i u Hfind). congruence. }
  destruct (length (delete j (users r)) =? 0)%nat eqn:Hzero.
  - apply Nat.eqb_eq, nil_length_inv in Hzero.
    rewrite delete_insert_eq in Hr.
    split; rewrite ?Ha, ?Hr.
    + intros k r'. rewrite lookup_delete. case_decide; [discriminate|].
      intros Hlook. rewrite Hother by congruence.
      apply (coherent_members w Hc), Hlook.
    + intros k r'. rewrite lookup_delete. case_decide; [discriminate|].
      apply (coherent_nonempty w Hc).
    + intros k r'. rewrite lookup_delete. case_decide; [discriminate|].
      apply (coherent_keys w Hc).
    + intros u' Hin. rewrite lookup_delete. case_decide as Hk.
      * exfalso. assert (Hf : u' ∈ filter (fun m => room m = room u)
                                  (delete i (allSockets w))).
        { apply list_elem_of_filter. split; [congruence|exact Hin]. }
        rewrite <- Hrem, Hzero in Hf. apply elem_of_nil in Hf. exact Hf.
      * apply (coherent_records w Hc).
        eapply elem_of_sublist; [exact Hin|apply sublist_delete].
  - apply Nat.eqb_neq in Hzero.
    split; rewrite ?Ha, ?Hr.
    + intros k r'. rewrite lookup_insert. case_decide as Hk.
      * intros [= <-]. simpl. subst k. exact Hrem.
      * intros Hlook. rewrite Hother by congruence.
        apply (coherent_members w Hc), Hlook.
    + intros k r'. rewrite lookup_insert. case_decide.
      * intros [= <-]. simpl. intros Hnil. rewrite Hnil in Hzero.
        apply Hzero. reflexivity.
      * apply (coherent_nonempty w Hc).
    + intros k r'. rewrite lookup_insert. case_decide.
      * intros _. subst k. apply (coherent_keys w Hc _ r Hroom).
      * apply (coherent_keys w Hc).
    + intros u' Hin. rewrite lookup_insert. case_decide; [eauto|].
      apply (coherent_records w Hc).
      eapply elem_of_sublist; [exact Hin|apply sublist_delete].
Qed.

(** ** Invariants of the reachable worlds *)

Section Invariants.

Variable entropy : nat -> N.
Variable clock : nat -> Z.

Lemma joinRoom_cases conn v w :
  (exists e, joinRoom entropy conn v w = Thrown e w)
  \/ (exists w',
        joinRoom entropy conn v w = Returned tt w'
        /\ allSockets w' = allSockets w /\ rooms w' = rooms w)
  \/ (exists rid r uid w',
        rooms w !! rid = Some r
        /\ joinRoom entropy conn v w = Returned tt w'
        /\ allSockets w' = (allSockets w ++ [mkUser conn rid uid])%list
        /\ rooms w' =
             <[rid := mkRoom (id r) (users r ++ [mkUser conn rid uid]) (createdAt r)]>
               (rooms w)).
Proof.
  destruct (get_prop v "payload") as [e|payload] eqn:Hp.
  { left. apply joinRoom_thrown. intros p. rewrite Hp. intros [=]. }
  destruct (get_prop payload "roomId") as [e|roomId] eqn:Hr.
  { left. apply joinRoom_thrown. intros p. rewrite Hp. intros [= <-].
    destruct payload; simpl in Hr; try discriminate; auto. }
  right. destruct (rooms_get roomId w) as [[rid r]|] eqn:Hget.
  - right. unfold rooms_get in Hget. destruct roomId; try discriminate.
    destruct (rooms w !! s) as [r'|] eqn:Hlook; simpl in Hget; [|discriminate].
    injection Hget as <- <-.
    destruct (joinRoom_found entropy conn v payload s r' w Hp Hr Hlook)
      as (uid & w' & Hrun & Ha & Hrooms & _).
    exists s, r', uid, w'. auto.
  - left.
    destruct (joinRoom_missing entropy conn v payload roomId w Hp Hr Hget)
      as (w' & Hrun & Ha & Hrooms & _).
    exists w'. auto.
Qed.

Lemma chat_cases conn v w :
  (exists e, chat clock conn v w = Thrown e w)
  \/ (exists w',
        chat clock conn v w = Returned tt w'
        /\ allSockets w' = allSockets w /\ rooms w' = rooms w).
Proof.
  destruct (get_prop v "payload") as [e|payload] eqn:Hp.
  { left. apply chat_thrown. intros p. rewrite Hp. intros [=]. }
  destruct (get_prop payload "message") as [e|text] eqn:Ht.
  { left. apply chat_thrown. intros p. rewrite Hp. intros [= <-].
    destruct payload; simpl in Ht; try discriminate; auto. }
  right. destruct (find conn (allSockets w)) as [u|] eqn:Hu.
  - destruct (String.eqb_spec (room u) "") as [Hempty|Hne].
    { exists w. split; [|auto]. eapply chat_silent; eauto. }
    destruct (rooms w !! room u) as [r|] eqn:Hr.
    + destruct (chat_broadcast clock conn v payload text u r w Hp Ht Hu Hne Hr)
        as (w' & Hrun & Ha & Hrooms & _).
      exists w'. auto.
    + exists w. split; [|auto]. eapply chat_silent; eauto.
  - exists w. split; [|auto]. eapply chat_silent; eauto.
Qed.

Lemma find_None_list_find conn (l : list User) :
  list_find (fun u => socket u = conn) l = None -> find conn l = None.
Proof. unfold find. intros ->. reflexivity. Qed.

(** One handled event keeps the registry coherent, whether the handler
    returns or throws. *)
Lemma handle_coherent fuel e w :
  coherent w ->
  match handle entropy clock fuel e w with
  | Returned _ w' | Thrown _ w' => coherent w'
  end.
Proof.
  intros Hc. destruct e as [conn data|conn]; simpl.
  - pose proof (onMessage_cases entropy clock conn fuel data w) as Hcases.
    destruct data as [|v]; [rewrite Hcases; exact Hc|].
    destruct (get_prop v "type") as [e|t]; [rewrite Hcases; exact Hc|].
    destruct (strict_eq_str t "createRoom").
    { rewrite Hcases.
      destruct (createRoom_spec entropy clock conn fuel w)
        as [(w' & -> & Ha & Hr & _)
           | (rid & uid & w' & -> & Hlen & _ & Hfree & Ha & Hr & _)];
        [eapply coherent_same; eauto|].
      eapply coherent_created; eauto. reflexivity. }
    destruct (strict_eq_str t "joinRoom").
    { rewrite Hcases.
      destruct (joinRoom_cases conn v w)
        as [[e ->] | [(w' & -> & Ha & Hr)
                     | (rid & r & uid & w' & Hroom & -> & Ha & Hr)]].
      - exact Hc.
      - eapply coherent_same; eauto.
      - eapply coherent_joined; eauto. reflexivity. }
    destruct (strict_eq_str t "chat"); rewrite Hcases; [|exact Hc].
    destruct (chat_cases conn v w) as [[e ->] | (w' & -> & Ha & Hr)];
      [exact Hc|]. eapply coherent_same; eauto.
  - destruct (list_find (fun u => socket u = conn) (allSockets w))
      as [[i u]|] eqn:Hfind.
    + destruct (onClose_bound conn w i u Hfind) as (w' & -> & Ha & _ & _ & Hm).
      destruct (coherent_first_record w conn i u Hc Hfind)
        as (r & j & Hroom & Hj & Hrem).
      rewrite Hroom, Hj in Hm. destruct Hm as [Hr _].
      eapply coherent_closed; eauto.
    + rewrite onClose_unbound; [exact Hc|]. apply find_None_list_find, Hfind.
Qed.

Lemma reachable_coherent w : reachable entropy clock w -> coherent w.
Proof.
  induction 1 as [|w fuel e w' _ IH Hstep|w fuel e x w' _ IH Hstep].
  - apply coherent_initial.
  - pose proof (handle_coherent fuel e w IH) as H. rewrite Hstep in H. exact H.
  - pose proof (handle_coherent fuel e w IH) as H. rewrite Hstep in H. exact H.
Qed.

(** *** One record per connection, under the discipline *)

Lemma records_app conn (l : list User) u :
  records conn (l ++ [u])
  = (records conn l ++ (if decide (socket u = conn) then [u] else []))%list.
Proof.
  unfold records. rewrite filter_app. reflexivity.
Qed.

Lemma records_unbound conn (l : list User) :
  find conn l = None -> records conn l = [].
Proof.
  unfold find, records. intros Hnone.
  destruct (list_find _ l) as [[i u]|] eqn:Hfind; [discriminate|].
  apply list_find_None in Hfind.
  induction Hfind as [|x l Hx _ IH]; [reflexivity|].
  rewrite filter_cons_False by exact Hx. exact IH.
Qed.

Lemma records_delete conn (l : list User) i :
  length (records conn (delete i l)) <= length (records conn l).
Proof.
  unfold records. apply sublist_length.
  induction (sublist_delete l i) as [|x l1 l2 _ IH|x l1 l2 _ IH].
  - constructor.
  - rewrite !filter_cons. case_decide; [constructor|]; exact IH.
  - rewrite (filter_cons _ x l2). case_decide; [constructor|]; exact IH.
Qed.

(** Under the discipline one handled event keeps the records of every
    connection at one at most. *)
Lemma handle_unique fuel e w :
  disciplined e w ->
  (forall c, length (records c (allSockets w)) <= 1) ->
  match handle entropy clock fuel e w with
  | Returned _ w' | Thrown _ w' =>
      forall c, length (records c (allSockets w')) <= 1
  end.
Proof.
  intros Hd Hu.
  assert (Hbind : forall conn u w',
    find conn (allSockets w) = None -> socket u = conn ->
    allSockets w' = (allSockets w ++ [u])%list ->
    forall c, length (records c (allSockets w')) <= 1).
  { intros conn u w' Hnone Hs Ha c. rewrite Ha, records_app, length_app.
    case_decide as Hc; simpl; [|specialize (Hu c); lia].
    rewrite <- Hc, Hs, (records_unbound conn _ Hnone). simpl. lia. }
  destruct e as [conn data|conn]; simpl.
  - pose proof (onMessage_cases entropy clock conn fuel data w) as Hcases.
    unfold disciplined, binding_request in Hd.
    destruct data as [|v]; [rewrite Hcases; exact Hu|].
    destruct (get_prop v "type") as [e|t]; [rewrite Hcases; exact Hu|].
    destruct (strict_eq_str t "createRoom").
    { rewrite Hcases. simpl in Hd. specialize (Hd conn eq_refl).
      destruct (createRoom_spec entropy clock conn fuel w)
        as [(w' & -> & Ha & _) | (rid & uid & w' & -> & _ & _ & _ & Ha & _)];
        [rewrite Ha; exact Hu|].
      eapply Hbind; eauto. reflexivity. }
    destruct (strict_eq_str t "joinRoom").
    { rewrite Hcases. simpl in Hd. specialize (Hd conn eq_refl).
      destruct (joinRoom_cases conn v w)
        as [[e ->] | [(w' & -> & Ha & _)
                     | (rid & r & uid & w' & _ & -> & Ha & _)]].
      - exact Hu.
      - rewrite Ha. exact Hu.
      - eapply Hbind; eauto. reflexivity. }
    destruct (strict_eq_str t "chat"); rewrite Hcases; [|exact Hu].
    destruct (chat_cases conn v w) as [[e ->] | (w' & -> & Ha & _)];
      [exact Hu|]. rewrite Ha. exact Hu.
  - destruct (list_find (fun u => socket u = conn) (allSockets w))
      as [[i u]|] eqn:Hfind.
    + destruct (onClose_bound conn w i u Hfind) as (w' & -> & Ha & _).
      intros c. rewrite Ha. pose proof (records_delete c (allSockets w) i).
      specialize (Hu c). lia.
    + rewrite onClose_unbound; [exact Hu|]. apply find_None_list_find, Hfind.
Qed.

Lemma disciplined_unique w :
  reachable_disciplined entropy clock w ->
  forall c, length (records c (allSockets w)) <= 1.
Proof.
  induction 1 as [|w fuel e w' _ IH Hd Hstep|w fuel e x w' _ IH Hd Hstep].
  - intros c. simpl. lia.
  - pose proof (handle_unique fuel e w Hd IH) as H. rewrite Hstep in H. exact H.
  - pose proof (handle_unique fuel e w Hd IH) as H. rewrite Hstep in H. exact H.
Qed.

End Invariants.

(** * The claims *)

(** ** Frames outside the protocol (C1) *)


Lemma malformed_thrown entropy clock conn fuel data w :
  malformed data = true ->
  exists e, onMessage entropy clock conn fuel data w = Thrown e w.
Proof.
  intros Hbad.
  pose proof (onMessage_cases entropy clock conn fuel data w) as Hcases.
  destruct data as [|v]; [eauto|]. simpl in Hbad.
  destruct (get_prop v "type") as [e|t]; [eauto|].
  assert (Hnull : forall payload, get_prop v "payload" = inr payload ->
                    payload = VUndefined \/ payload = VNull).
  { intros payload Hp. rewrite Hp in Hbad.
    destruct (_ || _); [|discriminate].
    destruct payload; try discriminate; auto. }
  destruct (strict_eq_str t "createRoom") eqn:E1.
  { apply strict_eq_str_true in E1. subst t. discriminate Hbad. }
  destruct (strict_eq_str t "joinRoom") eqn:E2.
  { rewrite Hcases. apply joinRoom_thrown, Hnull. }
  destruct (strict_eq_str t "chat") eqn:E3; [|discriminate Hbad].
  rewrite Hcases. apply chat_thrown, Hnull.
Qed.

Lemma unrecognised_ignored entropy clock conn fuel data w :
  unrecognised data = true ->
  onMessage entropy clock conn fuel data w = Returned tt w.
Proof.
  intros Hun.
  pose proof (onMessage_cases entropy clock conn fuel data w) as Hcases.
  destruct data as [|v]; [discriminate|]. simpl in Hun.
  destruct (get_prop v "type") as [e|t]; [discriminate|].
  destruct (strict_eq_str t "createRoom"); [discriminate|].
  destruct (strict_eq_str t "joinRoom"); [discriminate|].
  destruct (strict_eq_str t "chat"); [discriminate|]. exact Hcases.
Qed.

(** A frame that is not malformed makes the handler throw in one case only:
    a [createRoom] envelope, when [generateRoomId] exhausts the stack; the
    registry and the wire are then as they were. *)
Lemma wellformed_thrown entropy clock conn fuel data w e w' :
  malformed data = false ->
  onMessage entropy clock conn fuel data w = Thrown e w' ->
  e = RangeError
  /\ (exists v, data = Parsed v /\ has_type v "createRoom")
  /\ same_registry w w'.
Proof.
  intros Hok.
  pose proof (onMessage_cases entropy clock conn fuel data w) as Hcases.
  destruct data as [|v]; [discriminate|]. simpl in Hok.
  destruct (get_prop v "type") as [x|t] eqn:Htype; [discriminate|].
  assert (Hpayload : strict_eq_str t "joinRoom" || strict_eq_str t "chat" = true ->
    forall key, exists payload x,
      get_prop v "payload" = inr payload /\ get_prop payload key = inr x).
  { intros Ht key. rewrite Ht in Hok.
    destruct (get_prop_defined v "payload") as [payload Hp];
      try (intros ->; discriminate).
    rewrite Hp in Hok.
    destruct (get_prop_defined payload key) as [x Hx];
      try (intros ->; discriminate).
    eauto. }
  destruct (strict_eq_str t "createRoom") eqn:Hcreate.
  { rewrite Hcases. apply strict_eq_str_true in Hcreate. subst t.
    destruct (createRoom_spec entropy clock conn fuel w)
      as [(w1 & -> & Hreg) | (? & ? & ? & -> & _)]; [|discriminate].
    intros [= <- <-]. split; [reflexivity|]. split; [|exact Hreg].
    exists v. split; [reflexivity|exact Htype]. }
  destruct (strict_eq_str t "joinRoom").
  { rewrite Hcases.
    destruct (Hpayload eq_refl "roomId") as (payload & roomId & Hp & Hr).
    destruct (rooms_get roomId w) as [[rid r]|] eqn:Hget.
    - unfold rooms_get in Hget. destruct roomId; try discriminate.
      destruct (rooms w !! s) as [r'|] eqn:Hlook; [|discriminate].
      destruct (joinRoom_found entropy conn v payload s r' w Hp Hr Hlook)
        as (? & ? & -> & _). discriminate.
    - destruct (joinRoom_missing entropy conn v payload roomId w Hp Hr Hget)
        as (? & -> & _). discriminate. }
  destruct (strict_eq_str t "chat"); rewrite Hcases; [|discriminate].
  destruct (Hpayload eq_refl "message") as (payload & text & Hp & Ht).
  destruct (chat_cases clock conn v w) as [[x Hx] | (? & -> & _)];
    [|discriminate].
  exfalso.
  destruct (find conn (allSockets w)) as [u|] eqn:Hu.
  - destruct (String.eqb_spec (room u) "") as [Hempty|Hne].
    { rewrite (chat_silent clock conn v payload text w Hp Ht) in Hx;
        [discriminate|eauto]. }
    destruct (rooms w !! room u) as [r|] eqn:Hr.
    + destruct (chat_broadcast clock conn v payload text u r w Hp Ht Hu Hne Hr)
        as (? & Hrun & _). congruence.
    + rewrite (chat_silent clock conn v payload text w Hp Ht) in Hx;
        [discriminate|eauto].
  - rewrite (chat_silent clock conn v payload text w Hp Ht) in Hx;
      [discriminate|eauto].
Qed.

(** With 1/2 at every draw the candidate is always the same. *)
Lemma stuck_candidate w :
  candidate Scenario.stuck w
  = Returned "ffffffN5"
      {| allSockets := allSockets w; rooms := rooms w; wire := wire w;
         randoms := 10 + randoms w; dates := dates w |}.
Proof. destruct w. vm_compute. reflexivity. Qed.

(** Once its one candidate is registered, [generateRoomId] exhausts the
    stack, however deep the stack is. *)
Lemma stuck_generateRoomId fuel : forall w,
  is_Some (rooms w !! "ffffffN5") ->
  exists w', generateRoomId Scenario.stuck fuel w = Thrown RangeError w'.
Proof.
  induction fuel as [|fuel IH]; intros w Htaken; [eexists; reflexivity|].
  rewrite generateRoomId_unfold, stuck_candidate. simpl rooms.
  destruct Htaken as [r Hr]. rewrite Hr. apply IH. simpl. rewrite Hr. eauto.
Qed.

Lemma stuck_createRoom clock conn fuel :
  exists w',
    onMessage Scenario.stuck clock conn fuel Scenario.createRoom_frame
      Scenario.taken
    = Thrown RangeError w'.
Proof.
  unfold Scenario.createRoom_frame.
  rewrite onMessage_createRoom by reflexivity. unfold createRoom.
  destruct (stuck_generateRoomId fuel Scenario.taken) as [w' Hrun].
  - vm_compute. eauto.
  - exists w'. apply bind_thrown, Hrun.
Qed.

(** C1, as stated, fails.  The handler has no [try]/[catch]: on a frame that
    [JSON.parse] rejects it does not return, the [SyntaxError] leaves it, and
    a run stops there, so that a later frame on the connection is never
    handled. *)
Lemma unparseable_frame_escapes :
  onMessage Scenario.entropy Scenario.clock 0 1 Unparseable initial
    = Thrown SyntaxError initial
  /\ (forall w',
        onMessage Scenario.entropy Scenario.clock 0 1 Unparseable initial
          <> Returned tt w')
  /\ run Scenario.entropy Scenario.clock 1
       [Message 0 Unparseable; Message 0 Scenario.createRoom_frame] initial
     = Thrown SyntaxError initial.
Proof.
  split; [reflexivity|]. split; [discriminate|reflexivity].
Qed.

(** C1, amended.  A frame without a recognised [type] is ignored: the
    handler returns, and neither the registry nor the wire changes.  A frame
    that [JSON.parse] rejects, the value [null], and a [joinRoom] or [chat]
    envelope whose payload is missing or [null] make the handler throw
    before it changes the registry or sends anything; the exception leaves
    the handler.  No other frame makes it throw, but a [createRoom]
    envelope: there a [RangeError] leaves the handler when [generateRoomId]
    exhausts the stack, again with the registry and the wire as they
    were; with a [Math.random] that returns 1/2 at every call and the room
    it leads to registered, this happens however deep the stack is. *)
Theorem frames_outside_protocol entropy clock conn fuel data w :
  (malformed data = true ->
     exists e, onMessage entropy clock conn fuel data w = Thrown e w)
  /\ (unrecognised data = true ->
        onMessage entropy clock conn fuel data w = Returned tt w)
  /\ (malformed data = false ->
        forall e w',
          onMessage entropy clock conn fuel data w = Thrown e w' ->
          e = RangeError
          /\ (exists v, data = Parsed v /\ has_type v "createRoom")
          /\ same_registry w w')
  /\ (exists w',
        onMessage Scenario.stuck clock conn fuel Scenario.createRoom_frame
          Scenario.taken
        = Thrown RangeError w').
Proof.
  split; [apply malformed_thrown|]. split; [apply unrecognised_ignored|].
  split; [|apply stuck_createRoom].
  intros Hok e w'. apply wellformed_thrown, Hok.
Qed.

Lemma frames_outside_protocol_witness :
  (exists e,
     onMessage Scenario.entropy Scenario.clock 0 1 (Parsed VNull) initial
       = Thrown e initial)
  /\ onMessage Scenario.entropy Scenario.clock 0 1 (Parsed (VNum 7)) initial
     = Returned tt initial
  /\ (exists w',
        onMessage Scenario.stuck Scenario.clock 2 3 Scenario.createRoom_frame
          Scenario.taken
        = Thrown RangeError w'
        /\ same_registry Scenario.taken w').
Proof.
  split; [|split].
  - exact (proj1 (frames_outside_protocol Scenario.entropy Scenario.clock 0 1
                    (Parsed VNull) initial) eq_refl).
  - exact (proj1 (proj2 (frames_outside_protocol Scenario.entropy Scenario.clock
                           0 1 (Parsed (VNum 7)) initial)) eq_refl).
  - destruct (onMessage Scenario.stuck Scenario.clock 2 3
                Scenario.createRoom_frame Scenario.taken) as [[] w'|e w'] eqn:Hrun.
    + vm_compute in Hrun. discriminate.
    + destruct (proj1 (proj2 (proj2 (frames_outside_protocol Scenario.stuck
                                       Scenario.clock 2 3
                                       Scenario.createRoom_frame
                                       Scenario.taken))) eq_refl e w' Hrun)
        as (-> & _ & Hreg).
      exists w'. split; [reflexivity|exact Hreg].
Defined.

(** ** Joining a room that is not registered (C2) *)

Lemma onMessage_joinRoom_missing entropy clock conn fuel v roomId w :
  has_type v "joinRoom" ->
  payload_field v "roomId" roomId ->
  rooms_get roomId w = None ->
  exists w',
    onMessage entropy clock conn fuel (Parsed v) w = Returned tt w'
    /\ wire w' = (wire w ++ [(conn, error "Room not found")])%list
    /\ rooms w' = rooms w
    /\ allSockets w' = allSockets w.
Proof.
  intros Htype (payload & Hp & Hr) Hnone.
  rewrite (onMessage_joinRoom entropy clock conn fuel v w Htype).
  destruct (joinRoom_missing entropy conn v payload roomId w Hp Hr Hnone)
    as (w' & Hrun & Ha & Hrooms & Hwire & _).
  exists w'. auto.
Qed.

(** C2.  A [joinRoom] envelope whose [roomId] is not a key of [rooms] is
    answered by one [error] envelope with the message [Room not found], sent
    to the caller; [rooms] (hence every member list) and [allSockets] are
    unchanged and nothing else is sent. *)
Theorem joinRoom_unknown_room entropy clock conn fuel v roomId w :
  has_type v "joinRoom" ->
  payload_field v "roomId" roomId ->
  rooms_get roomId w = None ->
  exists w',
    onMessage entropy clock conn fuel (Parsed v) w = Returned tt w'
    /\ wire w' = (wire w ++ [(conn, error "Room not found")])%list
    /\ rooms w' = rooms w
    /\ allSockets w' = allSockets w.
Proof. apply onMessage_joinRoom_missing. Qed.

Lemma joinRoom_unknown_room_witness :
  exists w',
    onMessage Scenario.entropy Scenario.clock 2 1
      (Scenario.joinRoom_frame "Kj8mN2pQ") initial = Returned tt w'
    /\ wire w' = (wire initial ++ [(2, error "Room not found")])%list
    /\ rooms w' = rooms initial
    /\ allSockets w' = allSockets initial.
Proof.
  apply (joinRoom_unknown_room Scenario.entropy Scenario.clock 2 1 _
           (VStr "Kj8mN2pQ") initial).
  - reflexivity.
  - eexists. split; reflexivity.
  - reflexivity.
Defined.

(** ** Chat from a connection without a room (C9) *)

(** C9.  A [chat] envelope from a connection that has no record, or whose
    record names a room that is not registered, changes nothing: the handler
    returns in the world it started in, so nothing is sent and the registry
    is as it was. *)
Theorem chat_without_room entropy clock conn fuel v text w :
  has_type v "chat" ->
  payload_field v "message" text ->
  find conn (allSockets w) = None
  \/ (exists u, find conn (allSockets w) = Some u /\ rooms w !! room u = None) ->
  onMessage entropy clock conn fuel (Parsed v) w = Returned tt w.
Proof.
  intros Htype (payload & Hp & Ht) Hcase.
  rewrite (onMessage_chat entropy clock conn fuel v w Htype).
  apply (chat_silent clock conn v payload text w Hp Ht).
  destruct Hcase as [Hnone | (u & Hu & Hroom)]; [left; exact Hnone|].
  right. exists u. auto.
Qed.

Lemma chat_without_room_witness :
  onMessage Scenario.entropy Scenario.clock 3 1 (Scenario.chat_frame "hi") initial
  = Returned tt initial.
Proof.
  apply (chat_without_room Scenario.entropy Scenario.clock 3 1 _ (VStr "hi") initial).
  - reflexivity.
  - eexists. split; reflexivity.
  - left. reflexivity.
Defined.

(** ** User identifiers (C10) *)

(** C10.  [generateUserId] always returns, with at most 13 characters, all
    of them lower-case letters or digits; there is no lower bound on the
    length: the draw [1/2] gives the one-character identifier ["i"], the draw
    [0] the empty one. *)
Theorem generateUserId_short_or_empty :
  (forall entropy w, exists uid w',
     generateUserId entropy w = Returned uid w'
     /\ same_registry w w'
     /\ String.length uid <= 13
     /\ JsString.all is_base36 uid = true)
  /\ (exists entropy uid w',
        generateUserId entropy initial = Returned uid w'
        /\ String.length uid < 10 /\ uid <> "")
  /\ (exists entropy w', generateUserId entropy initial = Returned "" w').
Proof.
  split; [|split].
  - intros entropy w.
    destruct (generateUserId_spec entropy w) as (uid & w' & H & Hreg & _ & Hlen & Hall).
    exists uid, w'. auto.
  - exists (fun _ => (2 ^ 52)%N), "i". eexists. split; [reflexivity|].
    split; [simpl; lia|discriminate].
  - exists (fun _ => 0%N). eexists. reflexivity.
Qed.

(** ** Room identifiers (C3) *)


(** C3.  An identifier returned by [generateRoomId] has eight characters,
    all of them letters or digits, and is not a key of [rooms]; the call
    leaves the registry as it was.  Hence, in a sequence of [createRoom]
    envelopes handled from any world, every identifier announced has that
    form, was not a key of [rooms] when the sequence began, and is a key
    afterwards; the identifiers announced are pairwise distinct.
    [generateRoomId] recurses for as long as its candidates collide, so both
    parts speak of calls that return; [generateRoomId_first_free] gives a
    condition under which they do. *)
Theorem createRoom_identifiers entropy clock fuel :
  (forall w roomId w',
     generateRoomId entropy fuel w = Returned roomId w' ->
     String.length roomId = 8
     /\ JsString.all is_alnum roomId = true
     /\ rooms w !! roomId = None
     /\ same_registry w w')
  /\ (forall es w w',
        Forall is_createRoom es ->
        run entropy clock fuel es w = Returned tt w' ->
        exists sent,
          wire w' = (wire w ++ sent)%list
          /\ length (created sent) = length es
          /\ Forall (fun roomId =>
               String.length roomId = 8
               /\ JsString.all is_alnum roomId = true
               /\ rooms w !! roomId = None
               /\ is_Some (rooms w' !! roomId)) (created sent)
          /\ NoDup (created sent)
          /\ (forall k, is_Some (rooms w !! k) -> is_Some (rooms w' !! k))).
Proof.
  split.
  { intros w roomId w' Hrun.
    destruct (generateRoomId_spec entropy fuel w)
      as [(? & Hd & _) | (s & w1 & Hrun' & Hreg & Hlen & Hall & Hfree)];
      [congruence|].
    rewrite Hrun in Hrun'. injection Hrun' as <- <-. auto. }
  induction es as [|e es IH]; intros w w' Hall Hrun.
  - injection Hrun as <-. exists []. rewrite app_nil_r.
    repeat split; auto; constructor.
  - apply Forall_cons in Hall as [(conn & v & -> & Htype) Hall].
    simpl in Hrun. unfold bind in Hrun.
    rewrite (onMessage_createRoom entropy clock conn fuel v w Htype) in Hrun.
    destruct (createRoom_spec entropy clock conn fuel w)
      as [(? & Hd & _)
         | (rid & uid & w1 & Hstep & Hlen & Halnum & Hfree & _ & Hrooms & Hwire & _)];
      [rewrite Hd in Hrun; discriminate|].
    rewrite Hstep in Hrun.
    destruct (IH w1 w' Hall Hrun) as (sent & Hw & Hcount & Hids & Hnodup & Hmono).
    assert (Hkept : is_Some (rooms w' !! rid)).
    { apply Hmono. rewrite Hrooms, lookup_insert_eq. eauto. }
    exists ((conn, roomCreated rid uid) :: sent). simpl. split; [|split; [|split; [|split]]].
    + rewrite Hw, Hwire, <- app_assoc. reflexivity.
    + rewrite Hcount. reflexivity.
    + constructor; [auto|].
      eapply Forall_impl; [exact Hids|]. intros k (H1 & H2 & H3 & H4).
      repeat split; auto.
      rewrite Hrooms in H3. rewrite lookup_insert in H3.
      case_decide; [discriminate|exact H3].
    + constructor; [|exact Hnodup].
      intros Hin. rewrite Forall_forall in Hids.
      destruct (Hids rid Hin) as (_ & _ & Hnone & _).
      rewrite Hrooms, lookup_insert_eq in Hnone. discriminate.
    + intros k Hk. apply Hmono. rewrite Hrooms, lookup_insert.
      case_decide; [eauto|exact Hk].
Qed.

Lemma createRoom_identifiers_witness :
  (exists roomId w',
     generateRoomId Scenario.entropy 1 initial = Returned roomId w'
     /\ String.length roomId = 8
     /\ rooms initial !! roomId = None)
  /\ exists sent,
       wire (Scenario.after
               [Message 1 Scenario.createRoom_frame;
                Message 2 Scenario.createRoom_frame;
                Message 1 Scenario.createRoom_frame])
       = (wire initial ++ sent)%list
       /\ length (created sent) = 3
       /\ NoDup (created sent).
Proof.
  destruct (createRoom_identifiers Scenario.entropy Scenario.clock 1)
    as [Hgen Hrun].
  split.
  - destruct (Hgen initial "BCDEFFc1"
                (mkWorld [] ∅ [] 10 0)) as (Hlen & _ & Hfree & _).
    + vm_compute. reflexivity.
    + eexists _, _. split; [vm_compute; reflexivity|]. split; assumption.
  - destruct (Hrun [Message 1 Scenario.createRoom_frame;
                    Message 2 Scenario.createRoom_frame;
                    Message 1 Scenario.createRoom_frame]
                initial
                (Scenario.after
                   [Message 1 Scenario.createRoom_frame;
                    Message 2 Scenario.createRoom_frame;
                    Message 1 Scenario.createRoom_frame]))
      as (sent & Hw & Hn & _ & Hnodup & _).
    + repeat constructor; eexists _, _; (split; [reflexivity|reflexivity]).
    + vm_compute. reflexivity.
    + exists sent. auto.
Defined.

(** ** Notifications of a join (C4) *)

Lemma deliveries_app kind c sent1 sent2 :
  deliveries kind c (sent1 ++ sent2)
  = (deliveries kind c sent1 ++ deliveries kind c sent2)%list.
Proof. unfold deliveries. rewrite filter_app, fmap_app. reflexivity. Qed.

Lemma deliveries_cons kind c d e sent :
  deliveries kind c ((d, e) :: sent)
  = if decide (d = c /\ kind e = true)
    then e :: deliveries kind c sent
    else deliveries kind c sent.
Proof.
  unfold deliveries. rewrite filter_cons. simpl.
  case_decide; reflexivity.
Qed.

(** One envelope of the kind per member: a connection receives as many as
    it has records among the members. *)
Lemma deliveries_members kind (e : envelope) c (l : list User) :
  kind e = true ->
  deliveries kind c (map (fun m => (socket m, e)) l)
  = replicate (length (records c l)) e.
Proof.
  intros Hkind. unfold records.
  induction l as [|m l IH]; [reflexivity|].
  simpl map. rewrite deliveries_cons, filter_cons, IH.
  destruct (decide (socket m = c)) as [Hm|Hm].
  - rewrite decide_True by auto. reflexivity.
  - rewrite decide_False by tauto. reflexivity.
Qed.

(** C4, as stated, fails: nothing keeps a member from joining its own room
    again, and the joiner is then among the "current" members that are
    notified.  Connection 1 creates a room and joins it: it receives
    [userJoined] with count 2 before its [roomJoined]. *)
Lemma joiner_receives_userJoined :
  reachable Scenario.entropy Scenario.clock
    (Scenario.after [Message 1 Scenario.createRoom_frame])
  /\ wire (Scenario.after [Message 1 Scenario.createRoom_frame])
     = [(1, roomCreated "BCDEFFc1" "4xnaciw7nkp")]
  /\ exists w',
       onMessage Scenario.entropy Scenario.clock 1 1
         (Scenario.joinRoom_frame "BCDEFFc1")
         (Scenario.after [Message 1 Scenario.createRoom_frame])
       = Returned tt w'
       /\ wire w'
          = [(1, roomCreated "BCDEFFc1" "4xnaciw7nkp");
             (1, userJoined 2);
             (1, roomJoined "BCDEFFc1" "5ferxkbg1gb" 2)]
       /\ deliveries is_userJoined 1 (wire w') = [userJoined 2].
Proof.
  split; [|split].
  - eapply reachable_returned; [apply reachable_initial|].
    instantiate (1 := Message 1 Scenario.createRoom_frame).
    instantiate (1 := 1). vm_compute. reflexivity.
  - vm_compute. reflexivity.
  - eexists. split; [vm_compute; reflexivity|].
    split; vm_compute; reflexivity.
Qed.

(** C4, amended.  On a successful [joinRoom] on a room with [N] member
    records, one [userJoined] envelope carrying [N + 1] is sent per member
    record, in member order, to the connection of that record, all of them
    computed from the members before the new record is appended and sent
    before the [roomJoined] envelope, which goes to the joiner and carries
    [N + 1] too.  A connection thus receives as many [userJoined] envelopes
    as it has records among the members: one for a member with one record,
    none for a connection that is not a member, and the joiner receives none
    unless it is a member already. *)
Theorem joinRoom_notifications entropy clock conn fuel v rid r w :
  has_type v "joinRoom" ->
  payload_field v "roomId" (VStr rid) ->
  rooms w !! rid = Some r ->
  exists uid w' sent,
    onMessage entropy clock conn fuel (Parsed v) w = Returned tt w'
    /\ wire w' = (wire w ++ sent)%list
    /\ sent
       = (map (fun m => (socket m, userJoined (length (users r) + 1))) (users r)
          ++ [(conn, roomJoined rid uid (length (users r) + 1))])%list
    /\ rooms w' !! rid
       = Some (mkRoom (id r) (users r ++ [mkUser conn rid uid]) (createdAt r))
    /\ (forall c,
          deliveries is_userJoined c sent
          = replicate (length (records c (users r)))
              (userJoined (length (users r) + 1)))
    /\ (records conn (users r) = [] -> deliveries is_userJoined conn sent = []).
Proof.
  intros Htype (payload & Hp & Hr) Hroom.
  rewrite (onMessage_joinRoom entropy clock conn fuel v w Htype).
  destruct (joinRoom_found entropy conn v payload rid r w Hp Hr Hroom)
    as (uid & w' & Hrun & _ & Hrooms & Hwire & _).
  rewrite length_app in Hwire. simpl in Hwire.
  set (sent := (map (fun m => (socket m, userJoined (length (users r) + 1))) (users r)
                ++ [(conn, roomJoined rid uid (length (users r) + 1))])%list).
  assert (Hcount : forall c,
    deliveries is_userJoined c sent
    = replicate (length (records c (users r)))
        (userJoined (length (users r) + 1))).
  { intros c. unfold sent.
    rewrite deliveries_app, deliveries_members by reflexivity.
    rewrite deliveries_cons, decide_False by (simpl; intros [_ [=]]).
    apply app_nil_r. }
  exists uid, w', sent. split; [exact Hrun|]. split; [exact Hwire|].
  split; [reflexivity|]. split; [rewrite Hrooms; apply lookup_insert_eq|].
  split; [exact Hcount|].
  intros Hnone. rewrite Hcount, Hnone. reflexivity.
Qed.

Lemma joinRoom_notifications_witness :
  exists uid w' sent,
    onMessage Scenario.entropy Scenario.clock 2 1
      (Scenario.joinRoom_frame "BCDEFFc1")
      (Scenario.after [Message 1 Scenario.createRoom_frame])
    = Returned tt w'
    /\ sent = [(1, userJoined 2); (2, roomJoined "BCDEFFc1" uid 2)]
    /\ deliveries is_userJoined 2 sent = [].
Proof.
  destruct (joinRoom_notifications Scenario.entropy Scenario.clock 2 1
              (VObj [("type", VStr "joinRoom");
                     ("payload", VObj [("roomId", VStr "BCDEFFc1")])])
              "BCDEFFc1"
              {| id := "BCDEFFc1";
                 users := [mkUser 1 "BCDEFFc1" "4xnaciw7nkp"];
                 createdAt := 1705314600000 |}
              (Scenario.after [Message 1 Scenario.createRoom_frame]))
    as (uid & w' & sent & Hrun & _ & Hsent & _ & _ & Hnone).
  - reflexivity.
  - eexists. split; reflexivity.
  - vm_compute. reflexivity.
  - exists uid, w', sent. split; [exact Hrun|]. split; [exact Hsent|].
    apply Hnone. reflexivity.
Defined.

(** ** Worlds of the scenarios are reachable *)

Lemma run_reachable entropy clock fuel es : forall w w',
  reachable entropy clock w ->
  run entropy clock fuel es w = Returned tt w' ->
  reachable entropy clock w'.
Proof.
  induction es as [|e es IH]; intros w w' Hw Hrun.
  - injection Hrun as <-. exact Hw.
  - simpl in Hrun. unfold bind in Hrun.
    destruct (handle entropy clock fuel e w) as [[] w1|] eqn:Hstep;
      try discriminate.
    eapply IH; [|exact Hrun]. eapply reachable_returned; eauto.
Qed.

Lemma after_reachable es :
  run Scenario.entropy Scenario.clock 1 es initial = Returned tt (Scenario.after es) ->
  reachable Scenario.entropy Scenario.clock (Scenario.after es).
Proof. apply run_reachable, reachable_initial. Qed.

Lemma find_Some_list_find conn (l : list User) u :
  find conn l = Some u ->
  exists i, list_find (fun m => socket m = conn) l = Some (i, u).
Proof.
  unfold find. destruct (list_find _ l) as [[i m]|]; [|discriminate].
  intros [= <-]. exists i. reflexivity.
Qed.

(** A record found by [find] in a reachable world names a registered room
    and is one of its members. *)
Lemma reachable_record entropy clock w conn u :
  reachable entropy clock w -> find conn (allSockets w) = Some u ->
  exists r, rooms w !! room u = Some r /\ u ∈ users r /\ room u <> "".
Proof.
  intros Hw Hfind. apply reachable_coherent in Hw.
  apply find_Some_list_find in Hfind as [i Hfind].
  destruct (coherent_first_record w conn i u Hw Hfind) as (r & j & Hr & Hj & _).
  exists r. split; [exact Hr|]. split.
  - apply list_find_Some in Hj as (Hlook & _). eapply list_elem_of_lookup_2, Hlook.
  - intros Hempty. pose proof (coherent_keys w Hw _ r Hr) as Hlen.
    rewrite Hempty in Hlen. discriminate.
Qed.

(** ** Broadcast of a chat message (C5) *)

Lemma deliveries_imap kind c (l : list User) : forall f : nat -> User -> envelope,
  (forall i m, kind (f i m) = true) ->
  length (deliveries kind c (imap (fun i m => (socket m, f i m)) l))
  = length (records c l).
Proof.
  unfold records. induction l as [|m l IH]; intros f Hkind; [reflexivity|].
  rewrite imap_cons, deliveries_cons, filter_cons.
  specialize (IH (fun i => f (S i)) (fun i => Hkind (S i))).
  destruct (decide (socket m = c)) as [Hm|Hm].
  - rewrite decide_True by auto. simpl. f_equal. exact IH.
  - rewrite decide_False by tauto. exact IH.
Qed.

(** C5, as stated, fails: a connection may hold records in several rooms,
    and its messages go to the room of its oldest record only.  Connection 1
    creates a room, connection 2 joins it, connection 1 creates a second
    room, of which it is the one member; its chat message is then sent
    twice, to itself and to connection 2, which is not in the second
    room. *)
Lemma chat_leaves_the_room :
  let w := Scenario.after
             [Message 1 Scenario.createRoom_frame;
              Message 2 (Scenario.joinRoom_frame "BCDEFFc1");
              Message 1 Scenario.createRoom_frame] in
  reachable Scenario.entropy Scenario.clock w
  /\ rooms w !! "LMNOPQh2"
     = Some {| id := "LMNOPQh2";
               users := [mkUser 1 "LMNOPQh2" "aut5czz0a4h"];
               createdAt := 1705314600001 |}
  /\ exists w',
       onMessage Scenario.entropy Scenario.clock 1 1 (Scenario.chat_frame "hi") w
       = Returned tt w'
       /\ wire w'
          = (wire w
             ++ [(1, message (VStr "hi") (Some "4xnaciw7nkp")
                      "2024-01-15T10:30:00.002Z");
                 (2, message (VStr "hi") (Some "4xnaciw7nkp")
                      "2024-01-15T10:30:00.003Z")])%list.
Proof.
  cbv zeta. split; [|split].
  - apply after_reachable. vm_compute. reflexivity.
  - vm_compute. reflexivity.
  - eexists. split; vm_compute; reflexivity.
Qed.

(** C5, amended.  A [chat] envelope from a connection that has a record
    goes to the room named by the oldest record [u] of the connection: with
    [N] member records in that room, [N] [message] envelopes are sent, one
    per member record in member order, to the connection of that record,
    each carrying the message as received, the [userId] of [u] and the
    ISO-8601 rendering of a clock reading taken for that envelope; [u] is
    among the members, so the sender is served; a connection receives as
    many envelopes as it has records among the members, hence none when it
    has no record in that room; the registry is unchanged. *)
Theorem chat_broadcast_members entropy clock conn fuel v text u w :
  reachable entropy clock w ->
  has_type v "chat" ->
  payload_field v "message" text ->
  find conn (allSockets w) = Some u ->
  exists r w' sent,
    rooms w !! room u = Some r
    /\ u ∈ users r
    /\ onMessage entropy clock conn fuel (Parsed v) w = Returned tt w'
    /\ wire w' = (wire w ++ sent)%list
    /\ sent
       = imap (fun i m =>
           (socket m,
            message text (Some (userId u))
              (Platform.toISOString (clock (dates w + i))))) (users r)
    /\ length sent = length (users r)
    /\ (forall c,
          length (deliveries is_message c sent) = length (records c (users r)))
    /\ allSockets w' = allSockets w
    /\ rooms w' = rooms w.
Proof.
  intros Hw Htype (payload & Hp & Ht) Hfind.
  destruct (reachable_record entropy clock w conn u Hw Hfind) as (r & Hr & Hin & Hne).
  rewrite (onMessage_chat entropy clock conn fuel v w Htype).
  destruct (chat_broadcast clock conn v payload text u r w Hp Ht Hfind Hne Hr)
    as (w' & Hrun & Ha & Hrooms & Hwire & _).
  exists r, w'. eexists. split; [exact Hr|]. split; [exact Hin|].
  split; [exact Hrun|]. split; [exact Hwire|]. split; [reflexivity|].
  split; [apply length_imap|]. split; [|auto].
  intros c. apply (deliveries_imap is_message c (users r)
    (fun i _ => message text (Some (userId u))
                  (Platform.toISOString (clock (dates w + i))))).
  reflexivity.
Qed.

Lemma chat_broadcast_members_witness :
  exists r w' sent,
    rooms (Scenario.after
             [Message 1 Scenario.createRoom_frame;
              Message 2 (Scenario.joinRoom_frame "BCDEFFc1")]) !! "BCDEFFc1"
    = Some r
    /\ onMessage Scenario.entropy Scenario.clock 2 1 (Scenario.chat_frame "hi")
         (Scenario.after
            [Message 1 Scenario.createRoom_frame;
             Message 2 (Scenario.joinRoom_frame "BCDEFFc1")])
       = Returned tt w'
    /\ length sent = length (users r)
    /\ length (deliveries is_message 1 sent) = length (records 1 (users r)).
Proof.
  destruct (chat_broadcast_members Scenario.entropy Scenario.clock 2 1
              (VObj [("type", VStr "chat");
                     ("payload", VObj [("message", VStr "hi")])])
              (VStr "hi")
              (mkUser 2 "BCDEFFc1" "5ferxkbg1gb")
              (Scenario.after
                 [Message 1 Scenario.createRoom_frame;
                  Message 2 (Scenario.joinRoom_frame "BCDEFFc1")]))
    as (r & w' & sent & Hr & _ & Hrun & _ & _ & Hlen & Hcount & _).
  - apply after_reachable. vm_compute. reflexivity.
  - reflexivity.
  - eexists. split; reflexivity.
  - vm_compute. reflexivity.
  - exists r, w', sent. split; [exact Hr|]. split; [exact Hrun|].
    split; [exact Hlen|]. apply Hcount.
Defined.

(** ** Notifications of a close (C6) *)

Lemma records_delete_first conn (l : list User) j u :
  list_find (fun m => socket m = conn) l = Some (j, u) ->
  length (records conn (delete j l)) = length (records conn l) - 1.
Proof.
  intros Hfind. unfold records.
  destruct (first_match_split (fun m => socket m = conn) l j u Hfind)
    as (Hl & Hq & Hleast).
  rewrite Hl at 2. rewrite delete_take_drop, !filter_app, !length_app.
  rewrite filter_cons_True by exact Hq. simpl. lia.
Qed.

(** C6, as stated, fails: a connection that joined its own room has two
    member records, the close removes one, and the [userLeft] envelope for
    the other is sent to the connection that is closing. *)
Lemma departing_receives_userLeft :
  let w := Scenario.after
             [Message 1 Scenario.createRoom_frame;
              Message 1 (Scenario.joinRoom_frame "BCDEFFc1")] in
  reachable Scenario.entropy Scenario.clock w
  /\ (exists r, rooms w !! "BCDEFFc1" = Some r /\ length (users r) = 2)
  /\ exists w',
       onClose 1 w = Returned tt w'
       /\ wire w' = (wire w ++ [(1, userLeft 1)])%list.
Proof.
  cbv zeta. split; [|split].
  - apply after_reachable. vm_compute. reflexivity.
  - eexists. split; vm_compute; reflexivity.
  - eexists. split; vm_compute; reflexivity.
Qed.

(** C6, amended.  When a connection with a record closes, the room is the
    one named by its oldest record [u], and that record is removed from the
    members.  With [N] member records before, one [userLeft] envelope
    carrying [N - 1] is sent per remaining member record, to the connection
    of that record; for [N >= 2] the room stays registered with the
    remaining members.  A connection receives as many envelopes as it has
    records among the remaining members; the closing connection receives
    none when [u] was its only record in the room. *)
Theorem close_notifications entropy clock conn u w :
  reachable entropy clock w ->
  find conn (allSockets w) = Some u ->
  exists r j w' sent,
    rooms w !! room u = Some r
    /\ list_find (fun m => socket m = conn) (users r) = Some (j, u)
    /\ onClose conn w = Returned tt w'
    /\ wire w' = (wire w ++ sent)%list
    /\ length (delete j (users r)) = length (users r) - 1
    /\ sent
       = map (fun m => (socket m, userLeft (length (users r) - 1)))
           (delete j (users r))
    /\ (forall c,
          deliveries is_userLeft c sent
          = replicate (length (records c (delete j (users r))))
              (userLeft (length (users r) - 1)))
    /\ (length (records conn (users r)) = 1 ->
          deliveries is_userLeft conn sent = [])
    /\ (2 <= length (users r) ->
          rooms w' !! room u
          = Some (mkRoom (id r) (delete j (users r)) (createdAt r))).
Proof.
  intros Hw Hfind. apply reachable_coherent in Hw.
  apply find_Some_list_find in Hfind as [i Hfind].
  destruct (coherent_first_record w conn i u Hw Hfind) as (r & j & Hr & Hj & _).
  destruct (onClose_bound conn w i u Hfind) as (w' & Hrun & _ & _ & _ & Hm).
  rewrite Hr, Hj in Hm. simpl in Hm. destruct Hm as [Hrooms Hwire].
  assert (Hlen : length (delete j (users r)) = length (users r) - 1).
  { apply length_delete. apply list_find_Some in Hj as (Hlook & _). eauto. }
  rewrite Hlen in Hwire.
  assert (Hcount : forall c,
    deliveries is_userLeft c
      (map (fun m => (socket m, userLeft (length (users r) - 1))) (delete j (users r)))
    = replicate (length (records c (delete j (users r))))
        (userLeft (length (users r) - 1))).
  { intros c. apply deliveries_members. reflexivity. }
  exists r, j, w'. eexists. split; [exact Hr|]. split; [exact Hj|].
  split; [exact Hrun|]. split; [exact Hwire|]. split; [exact Hlen|].
  split; [reflexivity|]. split; [exact Hcount|]. split.
  - intros Hone. rewrite Hcount, (records_delete_first conn _ j u Hj), Hone.
    reflexivity.
  - intros Htwo. rewrite Hrooms.
    destruct (Nat.eqb_spec (length (delete j (users r))) 0) as [Hz|_]; [lia|].
    apply lookup_insert_eq.
Qed.

Lemma close_notifications_witness :
  exists r j w' sent,
    rooms (Scenario.after
             [Message 1 Scenario.createRoom_frame;
              Message 2 (Scenario.joinRoom_frame "BCDEFFc1")]) !! "BCDEFFc1"
    = Some r
    /\ onClose 1
         (Scenario.after
            [Message 1 Scenario.createRoom_frame;
             Message 2 (Scenario.joinRoom_frame "BCDEFFc1")])
       = Returned tt w'
    /\ sent
       = map (fun m => (socket m, userLeft (length (users r) - 1)))
           (delete j (users r))
    /\ deliveries is_userLeft 1 sent = [].
Proof.
  destruct (close_notifications Scenario.entropy Scenario.clock 1
              (mkUser 1 "BCDEFFc1" "4xnaciw7nkp")
              (Scenario.after
                 [Message 1 Scenario.createRoom_frame;
                  Message 2 (Scenario.joinRoom_frame "BCDEFFc1")]))
    as (r & j & w' & sent & Hr & _ & Hrun & _ & _ & Hsent & _ & Hnone & _).
  - apply after_reachable. vm_compute. reflexivity.
  - vm_compute. reflexivity.
  - exists r, j, w', sent. split; [exact Hr|]. split; [exact Hrun|].
    split; [exact Hsent|]. apply Hnone.
    assert (Hr' : Some r = Some {| id := "BCDEFFc1";
                       users := [mkUser 1 "BCDEFFc1" "4xnaciw7nkp";
                                 mkUser 2 "BCDEFFc1" "5ferxkbg1gb"];
                       createdAt := 1705314600000 |}).
    { rewrite <- Hr. vm_compute. reflexivity. }
    injection Hr' as ->. reflexivity.
Defined.

(** ** Registered rooms have members (C7) *)

(** C7.  In every reachable world each registered room has a member.  When
    the close of a connection removes the one member of a room, the room is
    removed from [rooms] in the same handler, and a [joinRoom] with its
    identifier is then answered with [Room not found]. *)
Theorem registered_rooms_have_members entropy clock w :
  reachable entropy clock w ->
  (forall k r, rooms w !! k = Some r -> users r <> [])
  /\ (forall conn u r,
        find conn (allSockets w) = Some u ->
        rooms w !! room u = Some r ->
        length (users r) = 1 ->
        exists w',
          onClose conn w = Returned tt w'
          /\ rooms w' !! room u = None
          /\ forall conn' fuel v,
               has_type v "joinRoom" ->
               payload_field v "roomId" (VStr (room u)) ->
               exists w'',
                 onMessage entropy clock conn' fuel (Parsed v) w' = Returned tt w''
                 /\ wire w'' = (wire w' ++ [(conn', error "Room not found")])%list
                 /\ rooms w'' = rooms w'
                 /\ allSockets w'' = allSockets w').
Proof.
  intros Hw. pose proof (reachable_coherent entropy clock w Hw) as Hc.
  split; [apply (coherent_nonempty w Hc)|].
  intros conn u r Hfind Hr Hone.
  apply find_Some_list_find in Hfind as [i Hfind].
  destruct (coherent_first_record w conn i u Hc Hfind) as (r' & j & Hr' & Hj & _).
  rewrite Hr in Hr'. injection Hr' as <-.
  destruct (onClose_bound conn w i u Hfind) as (w' & Hrun & _ & _ & _ & Hm).
  rewrite Hr, Hj in Hm. simpl in Hm. destruct Hm as [Hrooms _].
  assert (Hlen : length (delete j (users r)) = 0).
  { rewrite length_delete; [lia|].
    apply list_find_Some in Hj as (Hlook & _). eauto. }
  rewrite Hlen in Hrooms. simpl in Hrooms.
  assert (Hgone : rooms w' !! room u = None)
    by (rewrite Hrooms; apply lookup_delete_eq).
  exists w'. split; [exact Hrun|]. split; [exact Hgone|].
  intros conn' fuel v Htype Hfield.
  apply (onMessage_joinRoom_missing entropy clock conn' fuel v (VStr (room u)) w');
    auto.
  unfold rooms_get. rewrite Hgone. reflexivity.
Qed.

Lemma registered_rooms_have_members_witness :
  exists w',
    onClose 1 (Scenario.after [Message 1 Scenario.createRoom_frame])
    = Returned tt w'
    /\ rooms w' !! "BCDEFFc1" = None
    /\ exists w'',
         onMessage Scenario.entropy Scenario.clock 2 1
           (Scenario.joinRoom_frame "BCDEFFc1") w' = Returned tt w''
         /\ wire w'' = (wire w' ++ [(2, error "Room not found")])%list.
Proof.
  destruct (registered_rooms_have_members Scenario.entropy Scenario.clock
              (Scenario.after [Message 1 Scenario.createRoom_frame]))
    as [_ Hlast].
  - apply after_reachable. vm_compute. reflexivity.
  - destruct (Hlast 1 (mkUser 1 "BCDEFFc1" "4xnaciw7nkp")
                {| id := "BCDEFFc1";
                   users := [mkUser 1 "BCDEFFc1" "4xnaciw7nkp"];
                   createdAt := 1705314600000 |})
      as (w' & Hrun & Hgone & Hjoin).
    + vm_compute. reflexivity.
    + vm_compute. reflexivity.
    + reflexivity.
    + exists w'. split; [exact Hrun|]. split; [exact Hgone|].
      destruct (Hjoin 2 1
                  (VObj [("type", VStr "joinRoom");
                         ("payload", VObj [("roomId", VStr "BCDEFFc1")])]))
        as (w'' & Hrun' & Hwire & _).
      * reflexivity.
      * eexists. split; reflexivity.
      * exists w''. auto.
Defined.

(** ** One record per connection (C8) *)

(** C8, as stated, fails: the handlers never look for an existing record of
    the connection.  Connection 1 sends [createRoom] twice and has two
    records. *)
Lemma two_records_of_one_connection :
  reachable Scenario.entropy Scenario.clock
    (Scenario.after
       [Message 1 Scenario.createRoom_frame; Message 1 Scenario.createRoom_frame])
  /\ records 1
       (allSockets
          (Scenario.after
             [Message 1 Scenario.createRoom_frame;
              Message 1 Scenario.createRoom_frame]))
     = [mkUser 1 "BCDEFFc1" "4xnaciw7nkp"; mkUser 1 "LLMNOPg2" "ad1nryjrw8v"].
Proof.
  split.
  - apply after_reachable. vm_compute. reflexivity.
  - vm_compute. reflexivity.
Qed.

(** C8, amended.  In every world reached by events among which no
    connection that has a record sends [createRoom] or [joinRoom], each
    connection has at most one record in [allSockets]. *)
Theorem one_record_per_connection entropy clock w conn :
  reachable_disciplined entropy clock w ->
  length (records conn (allSockets w)) <= 1.
Proof. intros Hw. apply (disciplined_unique entropy clock w Hw). Qed.

Lemma one_record_per_connection_witness :
  length
    (records 1
       (allSockets
          (Scenario.after
             [Message 1 Scenario.createRoom_frame;
              Message 2 (Scenario.joinRoom_frame "BCDEFFc1")]))) <= 1.
Proof.
  apply (one_record_per_connection Scenario.entropy Scenario.clock).
  eapply (disciplined_returned _ _ _ 1
            (Message 2 (Scenario.joinRoom_frame "BCDEFFc1"))).
  - eapply (disciplined_returned _ _ initial 1
              (Message 1 Scenario.createRoom_frame)).
    + apply disciplined_initial.
    + intros c [= <-]. reflexivity.
    + vm_compute. reflexivity.
  - intros c [= <-]. vm_compute. reflexivity.
  - vm_compute. reflexivity.
Defined.

(** * Further properties of the server *)

(** ** Every handled event has one of the effects *)

Lemma imap_zip_with {A B C} (f : A -> B -> C) (l : list A) : forall g : nat -> B,
  imap (fun i m => f m (g i)) l = zip_with f l (imap (fun i _ => g i) l).
Proof.
  induction l as [|x l IH]; intros g; [reflexivity|].
  rewrite !imap_cons. simpl. f_equal. apply (IH (fun i => g (S i))).
Qed.

Lemma handle_effect entropy clock fuel e w w' :
  handle entropy clock fuel e w = Returned tt w' -> effect e w w'.
Proof.
  destruct e as [conn data|conn]; simpl.
  - pose proof (onMessage_cases entropy clock conn fuel data w) as Hcases.
    destruct data as [|v]; [congruence|].
    destruct (get_prop v "type") as [x|t] eqn:Htype; [congruence|].
    destruct (strict_eq_str t "createRoom").
    { rewrite Hcases. intros Hrun.
      destruct (createRoom_spec entropy clock conn fuel w)
        as [(? & Hd & _) | (rid & uid & w1 & Hstep & Hlen & _ & Hfree & Ha & Hr & Hw & _)];
        [congruence|].
      rewrite Hstep in Hrun. injection Hrun as <-.
      eapply effect_created; eauto. }
    destruct (strict_eq_str t "joinRoom").
    { rewrite Hcases. intros Hrun.
      destruct (get_prop_defined v "payload") as [payload Hp];
        try (intros ->; discriminate).
      destruct (get_prop payload "roomId") as [x|roomId] eqn:Hr.
      { destruct (joinRoom_thrown entropy conn v w) as [x' Hx]; [|congruence].
        intros p. rewrite Hp. intros [= <-].
        destruct payload; simpl in Hr; try discriminate; auto. }
      destruct (rooms_get roomId w) as [[rid r]|] eqn:Hget.
      - unfold rooms_get in Hget. destruct roomId; try discriminate.
        destruct (rooms w !! s) as [r'|] eqn:Hlook; [|discriminate].
        injection Hget as <- <-.
        destruct (joinRoom_found entropy conn v payload s r' w Hp Hr Hlook)
          as (uid & w1 & Hstep & Ha & Hrooms & Hw & _).
        rewrite Hstep in Hrun. injection Hrun as <-.
        rewrite length_app in Hw. simpl in Hw.
        eapply effect_joined; eauto.
      - destruct (joinRoom_missing entropy conn v payload roomId w Hp Hr Hget)
          as (w1 & Hstep & Ha & Hrooms & Hw & _).
        rewrite Hstep in Hrun. injection Hrun as <-.
        eapply effect_not_found; eauto. }
    destruct (strict_eq_str t "chat"); rewrite Hcases;
      [|intros [= <-]; apply effect_none; reflexivity].
    intros Hrun.
    destruct (get_prop_defined v "payload") as [payload Hp];
      try (intros ->; discriminate).
    destruct (get_prop payload "message") as [x|text] eqn:Ht.
    { destruct (chat_thrown clock conn v w) as [x' Hx]; [|congruence].
      intros p. rewrite Hp. intros [= <-].
      destruct payload; simpl in Ht; try discriminate; auto. }
    assert (Hsilent : chat clock conn v w = Returned tt w ->
              effect (Message conn (Parsed v)) w w')
      by (intros Hs; rewrite Hs in Hrun; injection Hrun as <-;
          apply effect_none; reflexivity).
    destruct (find conn (allSockets w)) as [u|] eqn:Hu.
    + destruct (String.eqb_spec (room u) "") as [Hempty|Hne].
      { apply Hsilent. eapply chat_silent; eauto. }
      destruct (rooms w !! room u) as [r|] eqn:Hr.
      * destruct (chat_broadcast clock conn v payload text u r w Hp Ht Hu Hne Hr)
          as (w1 & Hstep & Ha & Hrooms & Hw & _).
        rewrite Hstep in Hrun. injection Hrun as <-.
        rewrite (imap_zip_with
                   (fun m stamp => (socket m, message text (Some (userId u)) stamp))
                   (users r)
                   (fun i => Platform.toISOString (clock (dates w + i)))) in Hw.
        eapply effect_chat; eauto. apply length_imap.
      * apply Hsilent. eapply chat_silent; eauto.
    + apply Hsilent. eapply chat_silent; eauto.
  - destruct (list_find (fun u => socket u = conn) (allSockets w))
      as [[i u]|] eqn:Hfind.
    + destruct (onClose_bound conn w i u Hfind) as (w1 & Hstep & Ha & _ & _ & Hm).
      intros Hrun. rewrite Hstep in Hrun. injection Hrun as <-.
      destruct (rooms w !! room u) as [r|] eqn:Hr.
      * destruct (list_find (fun u => socket u = conn) (users r))
          as [[j member]|] eqn:Hj.
        -- simpl in Hm. destruct Hm as [Hrooms Hw].
           rewrite delete_insert_eq in Hrooms.
           eapply effect_closed; eauto.
        -- destruct Hm as [Hrooms Hw]. eapply effect_unlisted; eauto.
      * destruct Hm as [Hrooms Hw]. eapply effect_unlisted; eauto.
    + rewrite onClose_unbound by (apply find_None_list_find, Hfind).
      intros [= <-]. apply effect_none; reflexivity.
Qed.

(** In a coherent registry the close of a bound connection removes its
    oldest record from the room that record names. *)
Lemma effect_closed_coherent conn w w' :
  coherent w -> effect (Close conn) w w' ->
  (allSockets w' = allSockets w /\ rooms w' = rooms w /\ wire w' = wire w)
  \/ exists i u r j,
       list_find (fun m => socket m = conn) (allSockets w) = Some (i, u)
       /\ rooms w !! room u = Some r
       /\ list_find (fun m => socket m = conn) (users r) = Some (j, u)
       /\ delete j (users r)
          = filter (fun m => room m = room u) (delete i (allSockets w))
       /\ allSockets w' = delete i (allSockets w)
       /\ rooms w' =
            (if (length (delete j (users r)) =? 0)%nat
             then delete (room u) (rooms w)
             else <[room u := mkRoom (id r) (delete j (users r)) (createdAt r)]>
                    (rooms w))
       /\ wire w' =
            (wire w
             ++ map (fun m => (socket m, userLeft (length (delete j (users r)))))
                  (delete j (users r)))%list.
Proof.
  intros Hc Heff. inversion Heff; subst.
  - left. auto.
  - exfalso.
    match goal with
    | H : list_find _ (allSockets w) = Some (?i, ?u) |- _ =>
        destruct (coherent_first_record w conn i u Hc H) as (r & j & Hroom & Hj & _)
    end.
    match goal with
    | H : _ \/ _ |- _ => destruct H as [Hnone | (r' & Hroom' & Hnone)]
    end; congruence.
  - right.
    match goal with
    | H : list_find _ (allSockets w) = Some (?i, ?u) |- _ =>
        destruct (coherent_first_record w conn i u Hc H)
          as (r' & j' & Hroom' & Hj' & Hrem);
        exists i, u, r', j'
    end.
    match goal with
    | H1 : rooms w !! _ = Some ?r, H2 : list_find _ (users ?r) = Some _ |- _ =>
        rewrite Hroom' in H1; injection H1 as <-;
        rewrite Hj' in H2; injection H2 as <- <-
    end.
    auto 10.
Qed.

(** ** The registry and its records *)

Lemma elem_of_map_sent {A} (f : A -> WebSocket * envelope) (l : list A) p :
  p ∈ map f l -> exists x, p = f x /\ x ∈ l.
Proof.
  rewrite list_elem_of_In, in_map_iff. intros (x & Hx & Hin).
  exists x. rewrite list_elem_of_In. auto.
Qed.

(** X1.  In every reachable world the two collections agree: the members of
    a registered room are the records of [allSockets] that name it, in the
    same order; every record is a member of the room it names, which is
    registered; and every member of a room is a record. *)
Theorem members_are_the_records entropy clock w :
  reachable entropy clock w ->
  (forall k r,
     rooms w !! k = Some r ->
     users r = filter (fun u => room u = k) (allSockets w))
  /\ (forall u,
        u ∈ allSockets w -> exists r, rooms w !! room u = Some r /\ u ∈ users r)
  /\ (forall k r u,
        rooms w !! k = Some r -> u ∈ users r -> u ∈ allSockets w /\ room u = k).
Proof.
  intros Hw. apply reachable_coherent in Hw. split; [|split].
  - apply (coherent_members w Hw).
  - intros u Hin. destruct (coherent_records w Hw u Hin) as [r Hr].
    exists r. split; [exact Hr|].
    rewrite (coherent_members w Hw _ r Hr). apply list_elem_of_filter. auto.
  - intros k r u Hr Hin. rewrite (coherent_members w Hw k r Hr) in Hin.
    apply list_elem_of_filter in Hin. tauto.
Qed.

Lemma members_are_the_records_witness :
  exists r,
    rooms (Scenario.after
             [Message 1 Scenario.createRoom_frame;
              Message 2 (Scenario.joinRoom_frame "BCDEFFc1")]) !! "BCDEFFc1"
    = Some r
    /\ mkUser 2 "BCDEFFc1" "5ferxkbg1gb" ∈ users r.
Proof.
  destruct (members_are_the_records Scenario.entropy Scenario.clock
              (Scenario.after
                 [Message 1 Scenario.createRoom_frame;
                  Message 2 (Scenario.joinRoom_frame "BCDEFFc1")]))
    as (_ & Hrecords & _).
  - apply after_reachable. vm_compute. reflexivity.
  - apply (Hrecords (mkUser 2 "BCDEFFc1" "5ferxkbg1gb")).
    vm_compute. right. left.
Defined.

Lemma reachable_disciplined_reachable entropy clock w :
  reachable_disciplined entropy clock w -> reachable entropy clock w.
Proof.
  induction 1 as [|w fuel e w' _ IH _ Hstep|w fuel e x w' _ IH _ Hstep].
  - apply reachable_initial.
  - eapply reachable_returned; eauto.
  - eapply reachable_thrown; eauto.
Qed.

(** X2.  When a room outlives a connection.  In a reachable world without
    records no room is registered.  In a world reached with one room per
    connection, the ["close"] handler leaves no record of the closing
    connection and no room with a member on that connection.  Without that
    discipline a room does outlive its connection: after two [createRoom]
    envelopes on one connection and its close, the second room is still
    registered, with the closed connection as a member. *)
Theorem rooms_of_closed_connections entropy clock w conn :
  (reachable entropy clock w -> allSockets w = [] -> rooms w = ∅)
  /\ (reachable_disciplined entropy clock w ->
      exists w',
        onClose conn w = Returned tt w'
        /\ records conn (allSockets w') = []
        /\ forall k r m, rooms w' !! k = Some r -> m ∈ users r -> socket m <> conn)
  /\ (exists r,
        rooms (Scenario.after
                 [Message 1 Scenario.createRoom_frame;
                  Message 1 Scenario.createRoom_frame;
                  Close 1]) !! "LLMNOPg2" = Some r
        /\ Exists (fun m => socket m = 1) (users r)).
Proof.
  split; [|split].
  - intros Hw Hnil. apply reachable_coherent in Hw.
    apply map_empty. intros k.
    destruct (rooms w !! k) as [r|] eqn:Hr; [|reflexivity].
    exfalso. apply (coherent_nonempty w Hw k r Hr).
    rewrite (coherent_members w Hw k r Hr), Hnil. reflexivity.
  - intros Hw.
    pose proof (disciplined_unique entropy clock w Hw conn) as Hone.
    apply reachable_disciplined_reachable, reachable_coherent in Hw.
    pose proof (handle_coherent entropy clock 0 (Close conn) w Hw) as Hc.
    simpl in Hc.
    assert (Hclose : exists w',
              onClose conn w = Returned tt w'
              /\ records conn (allSockets w') = []).
    { destruct (list_find (fun u => socket u = conn) (allSockets w))
        as [[i u]|] eqn:Hfind.
      - destruct (onClose_bound conn w i u Hfind) as (w' & Hrun & Ha & _).
        exists w'. split; [exact Hrun|]. apply length_zero_iff_nil.
        rewrite Ha, (records_delete_first conn _ i u Hfind). lia.
      - exists w. split; [apply onClose_unbound, find_None_list_find, Hfind|].
        apply records_unbound, find_None_list_find, Hfind. }
    destruct Hclose as (w' & Hrun & Hnone). rewrite Hrun in Hc.
    exists w'. split; [exact Hrun|]. split; [exact Hnone|].
    intros k r m Hr Hm Hs.
    rewrite (coherent_members w' Hc k r Hr) in Hm.
    apply list_elem_of_filter in Hm as [_ Hm].
    assert (Hin : m ∈ records conn (allSockets w'))
      by (apply list_elem_of_filter; auto).
    rewrite Hnone in Hin. apply elem_of_nil in Hin. contradiction.
  - destruct (rooms (Scenario.after
                       [Message 1 Scenario.createRoom_frame;
                        Message 1 Scenario.createRoom_frame;
                        Close 1]) !! "LLMNOPg2") as [r|] eqn:Hr;
      vm_compute in Hr; [|discriminate].
    injection Hr as <-. eexists. split; [reflexivity|].
    apply Exists_cons_hd. reflexivity.
Qed.

Lemma rooms_of_closed_connections_witness :
  exists w',
    onClose 2
      (Scenario.after
         [Message 1 Scenario.createRoom_frame;
          Message 2 (Scenario.joinRoom_frame "BCDEFFc1")])
    = Returned tt w'
    /\ records 2 (allSockets w') = []
    /\ forall k r m, rooms w' !! k = Some r -> m ∈ users r -> socket m <> 2.
Proof.
  apply (rooms_of_closed_connections Scenario.entropy Scenario.clock).
  eapply (disciplined_returned _ _ _ 1
            (Message 2 (Scenario.joinRoom_frame "BCDEFFc1"))).
  - eapply (disciplined_returned _ _ initial 1
              (Message 1 Scenario.createRoom_frame)).
    + apply disciplined_initial.
    + intros c _. reflexivity.
    + vm_compute. reflexivity.
  - intros c [= <-]. vm_compute. reflexivity.
  - vm_compute. reflexivity.
Defined.

(** X3.  An event concerns one room.  Whatever the world, a handled event
    only appends to the wire, leaves every room but one as it was, and sends
    envelopes to nobody but the connection it arrived on and the members of
    that one room. *)
Theorem event_concerns_one_room entropy clock fuel e w w' :
  handle entropy clock fuel e w = Returned tt w' ->
  exists k sent,
    wire w' = (wire w ++ sent)%list
    /\ (forall k', k' <> k -> rooms w' !! k' = rooms w !! k')
    /\ (forall c env,
          (c, env) ∈ sent ->
          c = connection e
          \/ exists r m, rooms w !! k = Some r /\ m ∈ users r /\ socket m = c).
Proof.
  intros Hrun. apply handle_effect in Hrun.
  inversion Hrun; subst; simpl.
  - exists "", []. rewrite app_nil_r. split; [assumption|]. split; [congruence|].
    intros c env Hin. apply elem_of_nil in Hin. contradiction.
  - exists "". eexists. split; [eassumption|]. split; [congruence|].
    intros c env Hin. apply list_elem_of_singleton in Hin. left. congruence.
  - exists roomId. eexists. split; [eassumption|]. split.
    + intros k' Hk'. match goal with H : rooms w' = _ |- _ => rewrite H end.
      apply lookup_insert_ne. congruence.
    + intros c env Hin. apply list_elem_of_singleton in Hin. left. congruence.
  - exists roomId. eexists. split; [eassumption|]. split.
    + intros k' Hk'. match goal with H : rooms w' = _ |- _ => rewrite H end.
      apply lookup_insert_ne. congruence.
    + intros c env [Hin|Hin]%elem_of_app.
      * right. apply elem_of_map_sent in Hin as (m & [= -> _] & Hm). eauto.
      * apply list_elem_of_singleton in Hin. left. congruence.
  - exists (room u). eexists. split; [eassumption|]. split; [congruence|].
    intros c env Hin. right.
    apply elem_of_zip_with in Hin as (m & stamp & [= -> _] & Hm & _). eauto.
  - exists "", []. rewrite app_nil_r. split; [assumption|]. split; [congruence|].
    intros c env Hin. apply elem_of_nil in Hin. contradiction.
  - exists (room u). eexists. split; [eassumption|]. split.
    + intros k' Hk'. match goal with H : rooms w' = _ |- _ => rewrite H end.
      destruct (length _ =? 0)%nat.
      * apply lookup_delete_ne. congruence.
      * apply lookup_insert_ne. congruence.
    + intros c env Hin. right.
      apply elem_of_map_sent in Hin as (m & [= -> _] & Hm).
      exists r, m. split; [assumption|]. split; [|reflexivity].
      eapply elem_of_sublist; [exact Hm|apply sublist_delete].
Qed.

Lemma event_concerns_one_room_witness :
  exists k sent,
    wire (Scenario.after
            [Message 1 Scenario.createRoom_frame;
             Message 2 (Scenario.joinRoom_frame "BCDEFFc1")])
    = (wire (Scenario.after [Message 1 Scenario.createRoom_frame]) ++ sent)%list
    /\ (forall k', k' <> k ->
          rooms (Scenario.after
                   [Message 1 Scenario.createRoom_frame;
                    Message 2 (Scenario.joinRoom_frame "BCDEFFc1")]) !! k'
          = rooms (Scenario.after [Message 1 Scenario.createRoom_frame]) !! k').
Proof.
  destruct (event_concerns_one_room Scenario.entropy Scenario.clock 1
              (Message 2 (Scenario.joinRoom_frame "BCDEFFc1"))
              (Scenario.after [Message 1 Scenario.createRoom_frame])
              (Scenario.after
                 [Message 1 Scenario.createRoom_frame;
                  Message 2 (Scenario.joinRoom_frame "BCDEFFc1")]))
    as (k & sent & Hw & Hother & _).
  - vm_compute. reflexivity.
  - exists k, sent. auto.
Defined.

(** ** Round trips *)

Lemma list_find_snoc conn (l : list User) u :
  find conn l = None -> socket u = conn ->
  list_find (fun m => socket m = conn) (l ++ [u])%list = Some (length l, u).
Proof.
  intros Hnone Hu. unfold find in Hnone.
  destruct (list_find _ l) as [[i m]|] eqn:Hl; [discriminate|].
  apply list_find_app_Some. right. split; [lia|]. split; [exact Hl|].
  rewrite Nat.sub_diag. apply list_find_Some. split; [reflexivity|].
  split; [exact Hu|]. intros j y _ Hlt. lia.
Qed.

Lemma find_None_filter conn (P : User -> Prop) `{!forall x, Decision (P x)}
    (l : list User) :
  find conn l = None -> find conn (filter P l) = None.
Proof.
  unfold find. intros Hnone.
  destruct (list_find _ l) as [[i m]|] eqn:Hl; [discriminate|].
  apply list_find_None in Hl.
  destruct (list_find _ (filter P l)) as [[j m]|] eqn:Hf; [|reflexivity].
  exfalso. apply list_find_Some in Hf as (Hlook & Hm & _).
  apply list_elem_of_lookup_2, list_elem_of_filter in Hlook as [_ Hin].
  rewrite Forall_forall in Hl. exact (Hl m Hin Hm).
Qed.

Lemma delete_snoc {A} (l : list A) x : delete (length l) (l ++ [x])%list = l.
Proof. rewrite delete_middle. apply app_nil_r. Qed.

Lemma mkRoom_eta r : mkRoom (id r) (users r) (createdAt r) = r.
Proof. destruct r. reflexivity. Qed.

(** X4.  A room can be joined as soon as it is announced.  When
    [createRoom] returns, the room it announced is registered with the
    caller as its one member, and a [joinRoom] with the announced identifier,
    from any connection, succeeds: the creator is sent [userJoined] with
    count 2, the joiner [roomJoined] with count 2, and the room then has
    the two members in that order. *)
Theorem created_room_can_be_joined entropy clock conn fuel v w w1 :
  has_type v "createRoom" ->
  onMessage entropy clock conn fuel (Parsed v) w = Returned tt w1 ->
  exists roomId userId,
    wire w1 = (wire w ++ [(conn, roomCreated roomId userId)])%list
    /\ rooms w1 !! roomId
       = Some (mkRoom roomId [mkUser conn roomId userId] (clock (dates w)))
    /\ forall conn' fuel' v',
         has_type v' "joinRoom" ->
         payload_field v' "roomId" (VStr roomId) ->
         exists userId' w2,
           onMessage entropy clock conn' fuel' (Parsed v') w1 = Returned tt w2
           /\ wire w2
              = (wire w1
                 ++ [(conn, userJoined 2); (conn', roomJoined roomId userId' 2)])%list
           /\ rooms w2 !! roomId
              = Some (mkRoom roomId
                        [mkUser conn roomId userId; mkUser conn' roomId userId']
                        (clock (dates w))).
Proof.
  intros Htype Hrun.
  rewrite (onMessage_createRoom entropy clock conn fuel v w Htype) in Hrun.
  destruct (createRoom_spec entropy clock conn fuel w)
    as [(? & Hd & _) | (rid & uid & w1' & Hstep & _ & _ & _ & _ & Hrooms & Hwire & _)];
    [congruence|].
  rewrite Hstep in Hrun. injection Hrun as ->.
  assert (Hroom : rooms w1 !! rid
                  = Some (mkRoom rid [mkUser conn rid uid] (clock (dates w))))
    by (rewrite Hrooms; apply lookup_insert_eq).
  exists rid, uid. split; [exact Hwire|]. split; [exact Hroom|].
  intros conn' fuel' v' Htype' (payload & Hp & Hr).
  rewrite (onMessage_joinRoom entropy clock conn' fuel' v' w1 Htype').
  destruct (joinRoom_found entropy conn' v' payload rid _ w1 Hp Hr Hroom)
    as (uid' & w2 & Hstep' & _ & Hrooms' & Hwire' & _).
  exists uid', w2. split; [exact Hstep'|]. split; [exact Hwire'|].
  rewrite Hrooms'. apply lookup_insert_eq.
Qed.

Lemma created_room_can_be_joined_witness :
  exists roomId userId,
    wire (Scenario.after [Message 1 Scenario.createRoom_frame])
    = (wire initial ++ [(1, roomCreated roomId userId)])%list
    /\ exists userId' w2,
         onMessage Scenario.entropy Scenario.clock 2 1
           (Scenario.joinRoom_frame roomId)
           (Scenario.after [Message 1 Scenario.createRoom_frame])
         = Returned tt w2
         /\ wire w2
            = (wire (Scenario.after [Message 1 Scenario.createRoom_frame])
               ++ [(1, userJoined 2); (2, roomJoined roomId userId' 2)])%list.
Proof.
  destruct (created_room_can_be_joined Scenario.entropy Scenario.clock 1 1
              (VObj [("type", VStr "createRoom")]) initial
              (Scenario.after [Message 1 Scenario.createRoom_frame]))
    as (rid & uid & Hw & _ & Hjoin).
  - reflexivity.
  - vm_compute. reflexivity.
  - exists rid, uid. split; [exact Hw|].
    destruct (Hjoin 2 1
                (VObj [("type", VStr "joinRoom");
                       ("payload", VObj [("roomId", VStr rid)])]))
      as (uid' & w2 & Hrun & Hw2 & _).
    + reflexivity.
    + eexists. split; reflexivity.
    + exists uid', w2. auto.
Defined.

(** X5.  Joining and leaving cancel out on the registry.  In a reachable
    world, when a connection without a record joins a registered room and
    then closes, [allSockets] and [rooms] are again what they were; the
    members of the room, [N] of them, were sent [userJoined] with [N + 1]
    and then [userLeft] with [N]. *)
Theorem join_then_close_restores entropy clock conn fuel v roomId r w :
  reachable entropy clock w ->
  find conn (allSockets w) = None ->
  has_type v "joinRoom" ->
  payload_field v "roomId" (VStr roomId) ->
  rooms w !! roomId = Some r ->
  exists userId w1 w2,
    onMessage entropy clock conn fuel (Parsed v) w = Returned tt w1
    /\ onClose conn w1 = Returned tt w2
    /\ allSockets w2 = allSockets w
    /\ rooms w2 = rooms w
    /\ wire w2
       = (wire w
          ++ map (fun m => (socket m, userJoined (length (users r) + 1))) (users r)
          ++ [(conn, roomJoined roomId userId (length (users r) + 1))]
          ++ map (fun m => (socket m, userLeft (length (users r)))) (users r))%list.
Proof.
  intros Hw Hnone Htype (payload & Hp & Hr) Hroom.
  apply reachable_coherent in Hw.
  rewrite (onMessage_joinRoom entropy clock conn fuel v w Htype).
  destruct (joinRoom_found entropy conn v payload roomId r w Hp Hr Hroom)
    as (uid & w1 & Hstep & Ha & Hrooms & Hwire & _).
  rewrite length_app in Hwire. simpl in Hwire.
  set (u0 := mkUser conn roomId uid) in *.
  assert (Hfind : list_find (fun m => socket m = conn) (allSockets w1)
                  = Some (length (allSockets w), u0))
    by (rewrite Ha; apply list_find_snoc; auto).
  assert (Hmember : list_find (fun m => socket m = conn) (users r ++ [u0])%list
                    = Some (length (users r), u0)).
  { apply list_find_snoc; [|reflexivity].
    rewrite (coherent_members w Hw roomId r Hroom).
    apply find_None_filter, Hnone. }
  destruct (onClose_bound conn w1 _ _ Hfind) as (w2 & Hclose & Ha2 & _ & _ & Hm).
  assert (Hroom1 : rooms w1 !! room u0
                   = Some (mkRoom (id r) (users r ++ [u0])%list (createdAt r)))
    by (rewrite Hrooms; apply lookup_insert_eq).
  rewrite Hroom1 in Hm. simpl in Hm. rewrite Hmember in Hm. simpl in Hm.
  rewrite delete_snoc in Hm. destruct Hm as [Hrooms2 Hwire2].
  exists uid, w1, w2. split; [exact Hstep|]. split; [exact Hclose|].
  split; [rewrite Ha2, Ha; apply delete_snoc|]. split.
  - rewrite Hrooms2.
    destruct (Nat.eqb_spec (length (users r)) 0) as [Hz|_].
    { apply nil_length_inv in Hz.
      destruct (coherent_nonempty w Hw roomId r Hroom Hz). }
    rewrite Hrooms, insert_insert_eq, mkRoom_eta. apply insert_id, Hroom.
  - rewrite Hwire2, Hwire, <- !app_assoc. reflexivity.
Qed.

Lemma join_then_close_restores_witness :
  exists userId w1 w2,
    onMessage Scenario.entropy Scenario.clock 2 1
      (Scenario.joinRoom_frame "BCDEFFc1")
      (Scenario.after [Message 1 Scenario.createRoom_frame])
    = Returned tt w1
    /\ onClose 2 w1 = Returned tt w2
    /\ rooms w2 = rooms (Scenario.after [Message 1 Scenario.createRoom_frame])
    /\ wire w2
       = (wire (Scenario.after [Message 1 Scenario.createRoom_frame])
          ++ [(1, userJoined 2); (2, roomJoined "BCDEFFc1" userId 2);
              (1, userLeft 1)])%list.
Proof.
  destruct (join_then_close_restores Scenario.entropy Scenario.clock 2 1
              (VObj [("type", VStr "joinRoom");
                     ("payload", VObj [("roomId", VStr "BCDEFFc1")])])
              "BCDEFFc1"
              {| id := "BCDEFFc1";
                 users := [mkUser 1 "BCDEFFc1" "4xnaciw7nkp"];
                 createdAt := 1705314600000 |}
              (Scenario.after [Message 1 Scenario.createRoom_frame]))
    as (uid & w1 & w2 & Hjoin & Hclose & _ & Hrooms & Hwire).
  - apply after_reachable. vm_compute. reflexivity.
  - vm_compute. reflexivity.
  - reflexivity.
  - eexists. split; reflexivity.
  - vm_compute. reflexivity.
  - exists uid, w1, w2. auto.
Defined.

(** X6.  Creating and leaving cancel out on the registry.  When a
    connection without a record creates a room and then closes, the room is
    removed again and [allSockets] and [rooms] are what they were; the only
    envelope sent is the [roomCreated] to the caller. *)
Theorem create_then_close_restores entropy clock conn fuel v w w1 :
  find conn (allSockets w) = None ->
  has_type v "createRoom" ->
  onMessage entropy clock conn fuel (Parsed v) w = Returned tt w1 ->
  exists roomId userId w2,
    onClose conn w1 = Returned tt w2
    /\ allSockets w2 = allSockets w
    /\ rooms w2 = rooms w
    /\ wire w2 = (wire w ++ [(conn, roomCreated roomId userId)])%list.
Proof.
  intros Hnone Htype Hrun.
  rewrite (onMessage_createRoom entropy clock conn fuel v w Htype) in Hrun.
  destruct (createRoom_spec entropy clock conn fuel w)
    as [(? & Hd & _) | (rid & uid & w1' & Hstep & _ & _ & Hfree & Ha & Hrooms & Hwire & _)];
    [congruence|].
  rewrite Hstep in Hrun. injection Hrun as ->.
  set (u0 := mkUser conn rid uid) in *.
  assert (Hfind : list_find (fun m => socket m = conn) (allSockets w1)
                  = Some (length (allSockets w), u0))
    by (rewrite Ha; apply list_find_snoc; auto).
  destruct (onClose_bound conn w1 _ _ Hfind) as (w2 & Hclose & Ha2 & _ & _ & Hm).
  assert (Hroom1 : rooms w1 !! room u0 = Some (mkRoom rid [u0] (clock (dates w))))
    by (rewrite Hrooms; apply lookup_insert_eq).
  rewrite Hroom1 in Hm. simpl in Hm.
  rewrite decide_True in Hm by reflexivity. simpl in Hm.
  destruct Hm as [Hrooms2 Hwire2].
  exists rid, uid, w2. split; [exact Hclose|].
  split; [rewrite Ha2, Ha; apply delete_snoc|]. split.
  - rewrite Hrooms2, delete_insert_eq, Hrooms, delete_insert_eq.
    apply delete_id, Hfree.
  - rewrite Hwire2, app_nil_r. exact Hwire.
Qed.

Lemma create_then_close_restores_witness :
  exists roomId userId w2,
    onClose 1 (Scenario.after [Message 1 Scenario.createRoom_frame])
    = Returned tt w2
    /\ allSockets w2 = allSockets initial
    /\ rooms w2 = rooms initial
    /\ wire w2 = (wire initial ++ [(1, roomCreated roomId userId)])%list.
Proof.
  apply (create_then_close_restores Scenario.entropy Scenario.clock 1 1
           (VObj [("type", VStr "createRoom")]) initial).
  - reflexivity.
  - reflexivity.
  - vm_compute. reflexivity.
Defined.

(** ** Closing *)

(** X7.  The ["close"] handler always returns, in every world; it removes
    one record of the closing connection when it has one, and no record of
    any other connection; for a connection without a record it leaves the
    world as it is. *)
Theorem close_removes_one_record conn w :
  exists w',
    onClose conn w = Returned tt w'
    /\ length (records conn (allSockets w'))
       = length (records conn (allSockets w)) - 1
    /\ (forall c, c <> conn ->
          records c (allSockets w') = records c (allSockets w))
    /\ (find conn (allSockets w) = None -> w' = w).
Proof.
  destruct (list_find (fun u => socket u = conn) (allSockets w))
    as [[i u]|] eqn:Hfind.
  - destruct (onClose_bound conn w i u Hfind) as (w' & Hrun & Ha & _).
    exists w'. split; [exact Hrun|]. rewrite Ha. split; [|split].
    + apply (records_delete_first conn _ i u Hfind).
    + intros c Hc. unfold records.
      apply (first_match_filter_other _ _ _ i u Hfind).
      apply list_find_Some in Hfind as (_ & Hu & _). congruence.
    + unfold find. rewrite Hfind. discriminate.
  - exists w. split; [apply onClose_unbound, find_None_list_find, Hfind|].
    split; [|auto].
    rewrite (records_unbound conn _ (find_None_list_find conn _ Hfind)).
    reflexivity.
Qed.

(** ** The character classes of a room identifier *)

Lemma bind_inv {A B} (m : M A) (k : A -> M B) w b w' :
  bind m k w = Returned b w' ->
  exists a w1, m w = Returned a w1 /\ k a w1 = Returned b w'.
Proof.
  unfold bind. destruct (m w) as [a w1|]; try discriminate. eauto.
Qed.

Lemma ret_inv {A} (a b : A) w w' : ret a w = Returned b w' -> a = b /\ w = w'.
Proof. unfold ret. intros [= -> ->]. auto. Qed.

Lemma test_append class s t :
  JsString.test class (s ++ t) = JsString.test class s || JsString.test class t.
Proof.
  unfold JsString.test. induction s as [|c s IH]; simpl; [reflexivity|].
  rewrite IH. apply orb_assoc.
Qed.

Lemma generateRoomId_candidate entropy fuel : forall w s w',
  generateRoomId entropy fuel w = Returned s w' ->
  exists w0, candidate entropy w0 = Returned s w'.
Proof.
  induction fuel as [|fuel IH]; intros w s w' Hrun; [discriminate|].
  rewrite generateRoomId_unfold in Hrun.
  destruct (candidate entropy w) as [result w1|] eqn:Hc; try discriminate.
  destruct (rooms w1 !! result); [eapply IH, Hrun|].
  injection Hrun as <- <-. eauto.
Qed.

(** The last repair: what [candidate] returns either had a digit before
    it, or is seven characters of the string before it followed by a
    digit. *)
Lemma candidate_last_repair entropy w s w' :
  candidate entropy w = Returned s w' ->
  exists s2,
    String.length s2 = 8 /\ JsString.all is_alnum s2 = true
    /\ JsString.test JsString.is_lower s2 = true
    /\ ((JsString.test JsString.is_digit s2 = true /\ s = s2)
        \/ (JsString.test JsString.is_digit s2 = false
            /\ exists i, i < 10
                 /\ s = JsString.substring_from 1 s2
                        ++ JsString.charAt chars (52 + i))).
Proof.
  unfold candidate. intros Hrun.
  apply bind_inv in Hrun as (s0 & w0 & H0 & Hrun).
  apply bind_inv in Hrun as (s1 & w1 & H1 & Hrun).
  apply bind_inv in Hrun as (s2 & w2 & H2 & Hrun).
  destruct (random_chars_spec entropy 8 "" w) as (s0' & w0' & H0' & _ & L0 & A0).
  rewrite H0 in H0'. injection H0' as <- <-. simpl in L0. specialize (A0 eq_refl).
  assert (L1 : String.length s1 = 8 /\ JsString.all is_alnum s1 = true).
  { destruct (negb (JsString.test JsString.is_upper s0)).
    - destruct (repair_spec entropy 26 0 s0 w0 ltac:(lia) ltac:(simpl; lia) L0 A0)
        as (s' & w4 & H' & _ & L & A).
      cbn [Nat.add] in H'. rewrite H1 in H'. injection H' as <- <-. auto.
    - injection H1 as <- <-. auto. }
  destruct L1 as [L1 A1].
  assert (L2 : String.length s2 = 8 /\ JsString.all is_alnum s2 = true
               /\ JsString.test JsString.is_lower s2 = true).
  { destruct (JsString.test JsString.is_lower s1) eqn:Hlow; cbn [negb] in H2.
    - injection H2 as <- <-. auto.
    - destruct (repair_spec entropy 26 26 s1 w1 ltac:(lia) ltac:(simpl; lia) L1 A1)
        as (s' & w4 & H' & _ & L & A).
      rewrite H2 in H'. injection H' as <- <-. split; [exact L|]. split; [exact A|].
      apply bind_inv in H2 as (i & w3 & Hi & Hret).
      destruct (random_index_spec entropy 26 w1) as (i' & w3' & Hi' & _ & Hlt); [lia|].
      rewrite Hi in Hi'. injection Hi' as <- <-.
      apply ret_inv in Hret as [Hs _]. rewrite <- Hs, test_append.
      replace (JsString.test JsString.is_lower (JsString.charAt chars (26 + i)))
        with true; [apply orb_true_r|].
      simpl in Hlt. symmetry.
      assert (Hrange : forallb (fun j =>
                match String.get j chars with
                | Some c => JsString.is_lower c
                | None => false
                end) (seq 26 (52 - 26)) = true) by (vm_compute; reflexivity).
      rewrite forallb_forall in Hrange. specialize (Hrange (26 + i)).
      unfold JsString.charAt.
      destruct (String.get (26 + i) chars) as [c|];
        [|discriminate Hrange; apply in_seq; lia].
      unfold JsString.test. simpl. rewrite Hrange; [reflexivity|apply in_seq; lia]. }
  destruct L2 as (L2 & A2 & Hlower).
  exists s2. split; [exact L2|]. split; [exact A2|]. split; [exact Hlower|].
  destruct (JsString.test JsString.is_digit s2) eqn:Hdig; cbn [negb] in Hrun.
  - left. apply ret_inv in Hrun as [Hs _]. auto.
  - right. split; [reflexivity|].
    apply bind_inv in Hrun as (i & w3 & Hi & Hret).
    destruct (random_index_spec entropy 10 w2) as (i' & w3' & Hi' & _ & Hlt); [lia|].
    rewrite Hi in Hi'. injection Hi' as <- <-.
    apply ret_inv in Hret as [Hs _]. exists i. split; [exact Hlt|].
    symmetry. exact Hs.
Qed.

Lemma digit_at_52 i :
  i < 10 -> JsString.test JsString.is_digit (JsString.charAt chars (52 + i)) = true.
Proof.
  intros Hlt.
  assert (Hrange : forallb (fun j =>
            match String.get j chars with
            | Some c => JsString.is_digit c
            | None => false
            end) (seq 52 (62 - 52)) = true) by (vm_compute; reflexivity).
  rewrite forallb_forall in Hrange. specialize (Hrange (52 + i)).
  unfold JsString.charAt.
  destruct (String.get (52 + i) chars) as [c|];
    [|discriminate Hrange; apply in_seq; lia].
  unfold JsString.test. simpl. rewrite Hrange; [reflexivity|apply in_seq; lia].
Qed.

(** An alphanumeric character that is not a digit is a letter. *)
Lemma letter_of_alnum c :
  is_alnum c = true -> JsString.is_digit c = false ->
  JsString.is_upper c || JsString.is_lower c = true.
Proof. unfold is_alnum. intros H Hd. rewrite Hd, orb_false_r in H. exact H. Qed.

(** X8.  What the repairs of [generateRoomId] achieve.  Every identifier
    returned contains a digit and a letter.  It need not contain a letter of
    each case, although the comment in the source announces one character
    of each type: a repair drops the first character, which may be the only
    one of its class; there are random sources for which the identifier has
    no upper-case letter, and others for which it has no lower-case
    letter. *)
Theorem roomId_classes :
  (forall entropy fuel w roomId w',
     generateRoomId entropy fuel w = Returned roomId w' ->
     JsString.test JsString.is_digit roomId = true
     /\ JsString.test (fun c => JsString.is_upper c || JsString.is_lower c) roomId
        = true)
  /\ (exists entropy roomId w',
        generateRoomId entropy 1 initial = Returned roomId w'
        /\ JsString.test JsString.is_upper roomId = false)
  /\ (exists entropy roomId w',
        generateRoomId entropy 1 initial = Returned roomId w'
        /\ JsString.test JsString.is_lower roomId = false).
Proof.
  split; [|split].
  - intros entropy fuel w roomId w' Hrun.
    apply generateRoomId_candidate in Hrun as [w0 Hc].
    apply candidate_last_repair in Hc
      as (s2 & L2 & A2 & Hlower & [[Hdig ->] | (Hdig & i & Hlt & ->)]).
    + split; [exact Hdig|].
      unfold JsString.test in *. apply existsb_exists in Hlower as (c & Hin & Hc).
      apply existsb_exists. exists c. rewrite Hc, orb_true_r. auto.
    + rewrite !test_append, digit_at_52, orb_true_r by exact Hlt.
      split; [reflexivity|]. apply orb_true_iff. left.
      destruct s2 as [|c0 [|c1 rest]]; try discriminate L2.
      unfold JsString.substring_from. simpl String.length. simpl Nat.sub.
      change (String.substring 1 (S (String.length rest)) (String c0 (String c1 rest)))
        with (String.substring 0 (S (String.length rest)) (String c1 rest)).
      simpl String.substring. unfold JsString.test. simpl existsb.
      apply orb_true_iff. left.
      rewrite !all_String in A2. apply andb_prop in A2 as [_ A2].
      apply andb_prop in A2 as [Hc1 _].
      unfold JsString.test in Hdig. simpl in Hdig.
      apply orb_false_iff in Hdig as [_ Hdig].
      apply orb_false_iff in Hdig as [Hd1 _].
      apply letter_of_alnum; assumption.
  - exists (Script.source (Script.draw 0 :: repeat (Script.draw 53) 7)).
    eexists _, _. split; vm_compute; reflexivity.
  - exists (Script.source (Script.draw 26 :: repeat (Script.draw 0) 7)).
    eexists _, _. split; vm_compute; reflexivity.
Qed.

Example roomId_without_upper :
  exists w',
    generateRoomId (Script.source (Script.draw 0 :: repeat (Script.draw 53) 7))
      1 initial = Returned "1111111a" w'.
Proof. eexists. vm_compute. reflexivity. Qed.

Example roomId_without_lower :
  exists w',
    generateRoomId (Script.source (Script.draw 26 :: repeat (Script.draw 0) 7))
      1 initial = Returned "AAAAAAA0" w'.
Proof. eexists. vm_compute. reflexivity. Qed.

(** ** What a connection was told *)

(** A handler that throws has left the registry and the wire alone. *)
Lemma handle_thrown_same entropy clock fuel e x w w' :
  handle entropy clock fuel e w = Thrown x w' -> same_registry w w'.
Proof.
  destruct e as [conn data|conn]; simpl; intros Hrun.
  - destruct (malformed data) eqn:Hbad.
    + destruct (malformed_thrown entropy clock conn fuel data w Hbad) as [x' Hx].
      replace w' with w by congruence. apply same_registry_refl.
    + apply (wellformed_thrown entropy clock conn fuel data w x w' Hbad Hrun).
  - destruct (list_find (fun u => socket u = conn) (allSockets w))
      as [[i u]|] eqn:Hfind.
    + destruct (onClose_bound conn w i u Hfind) as (w1 & Hstep & _). congruence.
    + rewrite onClose_unbound in Hrun by (apply find_None_list_find, Hfind).
      discriminate.
Qed.

Lemma announced_app u sent more : announced u sent -> announced u (sent ++ more).
Proof.
  intros [H | [n H]]; [left|right; exists n]; apply elem_of_app; auto.
Qed.

Lemma effect_announced e w w' :
  effect e w w' ->
  (forall u, u ∈ allSockets w -> announced u (wire w)) ->
  forall u, u ∈ allSockets w' -> announced u (wire w').
Proof.
  intros Heff Hinv u Hin.
  inversion Heff; subst;
    repeat match goal with
    | H : allSockets w' = _ |- _ => rewrite H in Hin
    | H : wire w' = _ |- _ => rewrite H
    end;
    try (apply announced_app; apply Hinv; exact Hin);
    try (apply Hinv; exact Hin).
  - apply elem_of_app in Hin as [Hin | ->%list_elem_of_singleton].
    + apply announced_app, Hinv, Hin.
    + left. apply elem_of_app. right. left.
  - apply elem_of_app in Hin as [Hin | ->%list_elem_of_singleton].
    + apply announced_app, Hinv, Hin.
    + right. eexists. rewrite app_assoc. apply elem_of_app. right. left.
  - apply Hinv. eapply elem_of_sublist; [exact Hin|apply sublist_delete].
  - apply announced_app, Hinv.
    eapply elem_of_sublist; [exact Hin|apply sublist_delete].
Qed.

Lemma reachable_announced entropy clock w :
  reachable entropy clock w -> forall u, u ∈ allSockets w -> announced u (wire w).
Proof.
  induction 1 as [|w fuel e w' _ IH Hstep|w fuel e x w' _ IH Hstep].
  - intros u Hin. apply elem_of_nil in Hin. contradiction.
  - eapply effect_announced; [eapply handle_effect, Hstep|exact IH].
  - apply handle_thrown_same in Hstep as (Ha & _ & Hwire & _).
    rewrite Ha, Hwire. exact IH.
Qed.

(** X9.  No record without an announcement.  In every reachable world each
    record of [allSockets], and so each member of each room, was announced
    to its connection: the wire holds a [roomCreated] or a [roomJoined]
    envelope to that connection with the room and the user identifier of the
    record. *)
Theorem records_were_announced entropy clock w u :
  reachable entropy clock w -> u ∈ allSockets w ->
  (socket u, roomCreated (room u) (userId u)) ∈ wire w
  \/ exists n, (socket u, roomJoined (room u) (userId u) n) ∈ wire w.
Proof. intros Hw Hin. exact (reachable_announced entropy clock w Hw u Hin). Qed.

Lemma records_were_announced_witness :
  (2, roomCreated "BCDEFFc1" "5ferxkbg1gb")
    ∈ wire (Scenario.after
              [Message 1 Scenario.createRoom_frame;
               Message 2 (Scenario.joinRoom_frame "BCDEFFc1")])
  \/ exists n,
       (2, roomJoined "BCDEFFc1" "5ferxkbg1gb" n)
         ∈ wire (Scenario.after
                   [Message 1 Scenario.createRoom_frame;
                    Message 2 (Scenario.joinRoom_frame "BCDEFFc1")]).
Proof.
  apply (records_were_announced Scenario.entropy Scenario.clock _
           (mkUser 2 "BCDEFFc1" "5ferxkbg1gb")).
  - apply after_reachable. vm_compute. reflexivity.
  - vm_compute. right. left.
Defined.

(** X10.  The sender of a message is named by an identifier it knows.  In
    a reachable world, every envelope sent while a [chat] envelope is
    handled is a [message] envelope that carries the text as received and,
    as [userId], an identifier the server announced to the sending
    connection in a [roomCreated] or [roomJoined] envelope. *)
Theorem message_names_announced_sender entropy clock conn fuel v text w w' :
  reachable entropy clock w ->
  has_type v "chat" ->
  payload_field v "message" text ->
  onMessage entropy clock conn fuel (Parsed v) w = Returned tt w' ->
  exists sent,
    wire w' = (wire w ++ sent)%list
    /\ forall c env,
         (c, env) ∈ sent ->
         exists sender stamp roomId,
           env = message text (Some sender) stamp
           /\ ((conn, roomCreated roomId sender) ∈ wire w
               \/ exists n, (conn, roomJoined roomId sender n) ∈ wire w).
Proof.
  intros Hw Htype (payload & Hp & Ht) Hrun.
  rewrite (onMessage_chat entropy clock conn fuel v w Htype) in Hrun.
  destruct (find conn (allSockets w)) as [u|] eqn:Hu.
  - destruct (reachable_record entropy clock w conn u Hw Hu) as (r & Hr & _ & Hne).
    destruct (chat_broadcast clock conn v payload text u r w Hp Ht Hu Hne Hr)
      as (w1 & Hstep & _ & _ & Hwire & _).
    rewrite Hstep in Hrun. injection Hrun as ->.
    eexists. split; [exact Hwire|].
    intros c env Hin.
    rewrite (imap_zip_with
               (fun m stamp => (socket m, message text (Some (userId u)) stamp))
               (users r)
               (fun i => Platform.toISOString (clock (dates w + i)))) in Hin.
    apply elem_of_zip_with in Hin as (m & stamp & [= _ ->] & _).
    exists (userId u), stamp, (room u). split; [reflexivity|].
    assert (Hin : u ∈ allSockets w).
    { apply find_Some_list_find in Hu as [i Hi].
      apply list_find_Some in Hi as (Hlook & Hs & _).
      eapply list_elem_of_lookup_2, Hlook. }
    assert (Hconn : socket u = conn).
    { apply find_Some_list_find in Hu as [i Hi].
      apply list_find_Some in Hi as (_ & Hs & _). exact Hs. }
    rewrite <- Hconn. exact (reachable_announced entropy clock w Hw u Hin).
  - rewrite (chat_silent clock conn v payload text w Hp Ht) in Hrun by auto.
    injection Hrun as <-. exists []. rewrite app_nil_r. split; [reflexivity|].
    intros c env Hin. apply elem_of_nil in Hin. contradiction.
Qed.

Lemma message_names_announced_sender_witness :
  exists sent,
    wire (Scenario.after
            [Message 1 Scenario.createRoom_frame;
             Message 2 (Scenario.joinRoom_frame "BCDEFFc1");
             Message 2 (Scenario.chat_frame "hi")])
    = (wire (Scenario.after
               [Message 1 Scenario.createRoom_frame;
                Message 2 (Scenario.joinRoom_frame "BCDEFFc1")]) ++ sent)%list.
Proof.
  destruct (message_names_announced_sender Scenario.entropy Scenario.clock 2 1
              (VObj [("type", VStr "chat");
                     ("payload", VObj [("message", VStr "hi")])])
              (VStr "hi")
              (Scenario.after
                 [Message 1 Scenario.createRoom_frame;
                  Message 2 (Scenario.joinRoom_frame "BCDEFFc1")])
              (Scenario.after
                 [Message 1 Scenario.createRoom_frame;
                  Message 2 (Scenario.joinRoom_frame "BCDEFFc1");
                  Message 2 (Scenario.chat_frame "hi")]))
    as (sent & Hwire & _).
  - apply after_reachable. vm_compute. reflexivity.
  - reflexivity.
  - eexists. split; reflexivity.
  - vm_compute. reflexivity.
  - exists sent. exact Hwire.
Defined.

(** ** The member count a connection was told last *)

Section Told.

Variable conn : WebSocket.

Lemma told_app sent more : told conn (sent ++ more) = foldl (told_step conn) (told conn sent) more.
Proof. unfold told. apply foldl_app. Qed.

(** Envelopes that carry no count for [conn] leave the count alone. *)
Lemma foldl_step_silent more : forall count,
  (forall e, (conn, e) ∈ more -> userCount_of e = None) ->
  foldl (told_step conn) count more = count.
Proof.
  induction more as [|[c e] more IH]; intros count Hsilent; [reflexivity|].
  simpl. rewrite IH.
  - unfold told_step. simpl. case_decide as Hc; [|reflexivity].
    subst c. rewrite (Hsilent e); [reflexivity|left].
  - intros e' Hin. apply Hsilent. right. exact Hin.
Qed.

(** Envelopes that agree on the count [n], one of them at least for
    [conn], leave the count [n]. *)
Lemma foldl_step_agree n more : forall count,
  (forall e k, (conn, e) ∈ more -> userCount_of e = Some k -> k = n) ->
  (count = n \/ exists e, (conn, e) ∈ more /\ userCount_of e = Some n) ->
  foldl (told_step conn) count more = n.
Proof.
  induction more as [|[c e] more IH]; intros count Hagree Hsome.
  - destruct Hsome as [-> | (e & Hin & _)]; [reflexivity|].
    apply elem_of_nil in Hin. contradiction.
  - simpl. apply IH.
    + intros e' k Hin. apply Hagree. right. exact Hin.
    + unfold told_step at 1. simpl. case_decide as Hc.
      * subst c. destruct (userCount_of e) as [k|] eqn:He; simpl.
        -- left. apply (Hagree e k); [left|exact He].
        -- destruct Hsome as [-> | (e' & Hin & He')]; [left; reflexivity|].
           apply elem_of_cons in Hin as [[= <-] | Hin]; [congruence|].
           right. eauto.
      * destruct Hsome as [-> | (e' & Hin & He')]; [left; reflexivity|].
        apply elem_of_cons in Hin as [[= <- _] | Hin]; [congruence|].
        right. eauto.
Qed.

Lemma told_silent sent more :
  (forall e, (conn, e) ∈ more -> userCount_of e = None) ->
  told conn (sent ++ more) = told conn sent.
Proof. intros H. rewrite told_app. apply foldl_step_silent, H. Qed.

Lemma told_agree n sent more :
  (forall e k, (conn, e) ∈ more -> userCount_of e = Some k -> k = n) ->
  (exists e, (conn, e) ∈ more /\ userCount_of e = Some n) ->
  told conn (sent ++ more) = n.
Proof. intros H1 H2. rewrite told_app. apply foldl_step_agree; auto. Qed.

Lemma told_fresh w : fresh conn w -> told conn (wire w) = 1.
Proof.
  intros Hfresh. unfold told. apply (foldl_step_silent (wire w) 1).
  intros e Hin. destruct (Hfresh e Hin) as [text ->]. reflexivity.
Qed.

End Told.

Lemma reachable_fresh_reachable entropy clock w :
  reachable_fresh entropy clock w -> reachable entropy clock w.
Proof.
  induction 1 as [|w fuel e w' _ IH _ Hstep|w fuel e x w' _ IH _ Hstep].
  - apply reachable_initial.
  - eapply reachable_returned; eauto.
  - eapply reachable_thrown; eauto.
Qed.

(** A fresh connection has no record. *)
Lemma fresh_unbound entropy clock conn w :
  reachable entropy clock w -> fresh conn w -> find conn (allSockets w) = None.
Proof.
  intros Hw Hfresh.
  destruct (find conn (allSockets w)) as [u|] eqn:Hu; [|reflexivity].
  exfalso. apply find_Some_list_find in Hu as [i Hi].
  apply list_find_Some in Hi as (Hlook & Hs & _).
  apply list_elem_of_lookup_2 in Hlook.
  destruct (reachable_announced entropy clock w Hw u Hlook) as [Hin | [n Hin]];
    rewrite Hs in Hin; destruct (Hfresh _ Hin) as [text Heq]; discriminate.
Qed.

Lemma reachable_fresh_disciplined entropy clock w :
  reachable_fresh entropy clock w -> reachable_disciplined entropy clock w.
Proof.
  induction 1 as [|w fuel e w' Hw IH Hfresh Hstep|w fuel e x w' Hw IH Hfresh Hstep].
  - apply disciplined_initial.
  - eapply disciplined_returned; [exact IH| |exact Hstep].
    intros conn Hreq. eapply fresh_unbound.
    + apply reachable_fresh_reachable, Hw.
    + apply Hfresh, Hreq.
  - eapply disciplined_thrown; [exact IH| |exact Hstep].
    intros conn Hreq. eapply fresh_unbound.
    + apply reachable_fresh_reachable, Hw.
    + apply Hfresh, Hreq.
Qed.

(** With one record per connection, two records of one connection are the
    same record. *)
Lemma one_record_eq (l : list User) u m :
  (forall c, length (records c l) <= 1) ->
  u ∈ l -> m ∈ l -> socket m = socket u -> m = u.
Proof.
  intros Hone Hu Hm Hs. specialize (Hone (socket u)). unfold records in Hone.
  assert (Hu' : u ∈ filter (fun x => socket x = socket u) l)
    by (apply list_elem_of_filter; auto).
  assert (Hm' : m ∈ filter (fun x => socket x = socket u) l)
    by (apply list_elem_of_filter; auto).
  destruct (filter _ l) as [|x [|y rest]]; simpl in Hone; [| |lia].
  - apply elem_of_nil in Hu'. contradiction.
  - apply list_elem_of_singleton in Hu', Hm'. congruence.
Qed.

Lemma find_None_not_member conn (l : list User) u :
  find conn l = None -> u ∈ l -> socket u <> conn.
Proof.
  unfold find. destruct (list_find _ l) as [[i m]|] eqn:Hl; [discriminate|].
  intros _ Hin Hs. apply list_find_None in Hl. rewrite Forall_forall in Hl.
  exact (Hl u Hin Hs).
Qed.

(** The step of the invariant: the count told last to the connection of a
    record is the size of the room of the record. *)
Lemma effect_told e w w' :
  effect e w w' ->
  coherent w ->
  (forall c, length (records c (allSockets w)) <= 1) ->
  (forall conn data, e = Message conn data ->
     allSockets w' <> allSockets w ->
     fresh conn w /\ find conn (allSockets w) = None) ->
  (forall u r, u ∈ allSockets w -> rooms w !! room u = Some r ->
     told (socket u) (wire w) = length (users r)) ->
  forall u r, u ∈ allSockets w' -> rooms w' !! room u = Some r ->
    told (socket u) (wire w') = length (users r).
Proof.
  intros Heff Hc Hone Hbind IH u r' Hin Hr'.
  destruct e as [conn data|conn].
  - pose proof (Hbind conn data eq_refl) as Hnew. clear Hbind.
    inversion Heff; subst.
    + (* nothing *)
      match goal with
      | H1 : allSockets w' = _, H2 : rooms w' = _, H3 : wire w' = _ |- _ =>
          rewrite H1 in Hin; rewrite H2 in Hr'; rewrite H3
      end. auto.
    + (* room not found *)
      match goal with
      | H1 : allSockets w' = _, H2 : rooms w' = _, H3 : wire w' = _ |- _ =>
          rewrite H1 in Hin; rewrite H2 in Hr'; rewrite H3
      end.
      rewrite told_silent; [auto|].
      intros e Hin'. apply list_elem_of_singleton in Hin'.
      injection Hin' as _ ->. reflexivity.
    + (* created *)
      match goal with
      | H1 : allSockets w' = _, H2 : rooms w' = _, H3 : wire w' = _ |- _ =>
          rename H1 into Ha; rename H2 into Hrooms; rename H3 into Hwire
      end.
      destruct Hnew as [Hfresh Hunbound].
      { rewrite Ha. intros Heq. apply (f_equal length) in Heq.
        rewrite length_app in Heq. simpl in Heq. lia. }
      rewrite Hwire, told_silent
        by (intros e Hin'; apply list_elem_of_singleton in Hin';
            injection Hin' as _ ->; reflexivity).
      rewrite Ha in Hin. rewrite Hrooms in Hr'.
      apply elem_of_app in Hin as [Hin | ->%list_elem_of_singleton].
      * destruct (coherent_records w Hc u Hin) as [r0 Hr0].
        rewrite lookup_insert_ne in Hr' by congruence. auto.
      * simpl in Hr'. rewrite lookup_insert_eq in Hr'. injection Hr' as <-.
        simpl. apply told_fresh, Hfresh.
    + (* joined *)
      match goal with
      | H0 : rooms w !! roomId = Some _,
        H1 : allSockets w' = _, H2 : rooms w' = _, H3 : wire w' = _ |- _ =>
          rename H0 into Hroom;
          rename H1 into Ha; rename H2 into Hrooms; rename H3 into Hwire
      end.
      destruct Hnew as [Hfresh Hunbound].
      { rewrite Ha. intros Heq. apply (f_equal length) in Heq.
        rewrite length_app in Heq. simpl in Heq. lia. }
      rewrite Hwire. rewrite Ha in Hin. rewrite Hrooms in Hr'.
      assert (Hmembers : forall m, m ∈ users r -> m ∈ allSockets w /\ room m = roomId).
      { intros m Hm. rewrite (coherent_members w Hc roomId r Hroom) in Hm.
        apply list_elem_of_filter in Hm. tauto. }
      apply elem_of_app in Hin as [Hin | ->%list_elem_of_singleton].
      * destruct (decide (room u = roomId)) as [Heq | Hne].
        -- rewrite Heq, lookup_insert_eq in Hr'. injection Hr' as <-.
           simpl. rewrite length_app. simpl.
           apply told_agree.
           ++ intros e k [Hin' | Hin']%elem_of_app Hk.
              ** apply elem_of_map_sent in Hin' as (m & [= _ ->] & _).
                 simpl in Hk. congruence.
              ** apply list_elem_of_singleton in Hin'. injection Hin' as _ ->.
                 simpl in Hk. congruence.
           ++ exists (userJoined (length (users r) + 1)). split; [|reflexivity].
              apply elem_of_app. left.
              apply list_elem_of_In, in_map_iff. exists u. split; [reflexivity|].
              apply list_elem_of_In.
              rewrite (coherent_members w Hc roomId r Hroom).
              apply list_elem_of_filter. auto.
        -- rewrite lookup_insert_ne in Hr' by congruence.
           rewrite told_silent; [auto|].
           intros e [Hin' | Hin']%elem_of_app.
           ++ exfalso. apply elem_of_map_sent in Hin' as (m & [= Hs _] & Hm).
              destruct (Hmembers m Hm) as [Hml Hmr].
              rewrite (one_record_eq _ u m Hone Hin Hml (eq_sym Hs)) in Hmr.
              contradiction.
           ++ exfalso. apply list_elem_of_singleton in Hin'.
              injection Hin' as Hs _.
              exact (find_None_not_member conn _ u Hunbound Hin Hs).
      * simpl in Hr'. rewrite lookup_insert_eq in Hr'. injection Hr' as <-.
        simpl. rewrite length_app. simpl.
        apply told_agree.
        -- intros e k [Hin' | Hin']%elem_of_app Hk.
           ++ apply elem_of_map_sent in Hin' as (m & [= _ ->] & _).
              simpl in Hk. congruence.
           ++ apply list_elem_of_singleton in Hin'. injection Hin' as ->.
              simpl in Hk. congruence.
        -- eexists. split; [apply elem_of_app; right; left|reflexivity].
    + (* chat *)
      match goal with
      | H1 : allSockets w' = _, H2 : rooms w' = _, H3 : wire w' = _ |- _ =>
          rewrite H1 in Hin; rewrite H2 in Hr'; rewrite H3
      end.
      rewrite told_silent; [auto|].
      intros e Hin'.
      apply elem_of_zip_with in Hin' as (m & stamp & [= _ ->] & _). reflexivity.
  - clear Hbind.
    destruct (effect_closed_coherent conn w w' Hc Heff)
      as [(Ha & Hrooms & Hwire)
         | (i & u0 & r & j & Hfind & Hroom & Hj & Hrem & Ha & Hrooms & Hwire)].
    { rewrite Ha in Hin. rewrite Hrooms in Hr'. rewrite Hwire. auto. }
    rewrite Ha in Hin. rewrite Hwire.
    assert (Hin0 : u ∈ allSockets w)
      by (eapply elem_of_sublist; [exact Hin|apply sublist_delete]).
    assert (Hremaining : forall m,
      m ∈ delete j (users r) <-> m ∈ delete i (allSockets w) /\ room m = room u0).
    { intros m. rewrite Hrem, list_elem_of_filter. tauto. }
    destruct (decide (room u = room u0)) as [Heq | Hne].
    + rewrite Hrooms, Heq in Hr'.
      destruct (length (delete j (users r)) =? 0)%nat;
        [rewrite lookup_delete_eq in Hr'; discriminate|].
      rewrite lookup_insert_eq in Hr'. injection Hr' as <-. simpl.
      apply told_agree.
      * intros e k Hin' Hk.
        apply elem_of_map_sent in Hin' as (m & [= _ ->] & _).
        simpl in Hk. congruence.
      * exists (userLeft (length (delete j (users r)))). split; [|reflexivity].
        apply list_elem_of_In, in_map_iff. exists u. split; [reflexivity|].
        apply list_elem_of_In, Hremaining. auto.
    + assert (Hr0 : rooms w !! room u = Some r').
      { rewrite Hrooms in Hr'.
        destruct (length (delete j (users r)) =? 0)%nat.
        - rewrite lookup_delete_ne in Hr' by congruence. exact Hr'.
        - rewrite lookup_insert_ne in Hr' by congruence. exact Hr'. }
      rewrite told_silent; [auto|].
      intros e Hin'. exfalso.
      apply elem_of_map_sent in Hin' as (m & [= Hs _] & Hm).
      apply Hremaining in Hm as [Hm Hmr].
      assert (Hm0 : m ∈ allSockets w)
        by (eapply elem_of_sublist; [exact Hm|apply sublist_delete]).
      rewrite (one_record_eq _ u m Hone Hin0 Hm0 (eq_sym Hs)) in Hmr.
      contradiction.
Qed.

Lemma session_fresh :
  reachable_fresh Scenario.entropy Scenario.clock (Scenario.after session).
Proof.
  eapply (fresh_returned _ _ _ 1 (Close 2)).
  - eapply (fresh_returned _ _ _ 1 (Message 3 (Scenario.joinRoom_frame "BCDEFFc1"))).
    + eapply (fresh_returned _ _ _ 1
                (Message 2 (Scenario.joinRoom_frame "BCDEFFc1"))).
      * eapply (fresh_returned _ _ initial 1
                  (Message 1 Scenario.createRoom_frame)).
        -- apply fresh_initial.
        -- intros c _ e Hin. apply elem_of_nil in Hin. contradiction.
        -- vm_compute. reflexivity.
      * intros c [= <-] e Hin. vm_compute in Hin.
        apply list_elem_of_singleton in Hin. discriminate.
      * vm_compute. reflexivity.
    + intros c [= <-] e Hin. vm_compute in Hin.
      repeat (apply elem_of_cons in Hin as [Hin|Hin]; [discriminate|]).
      apply elem_of_nil in Hin. contradiction.
    + vm_compute. reflexivity.
  - intros c [=].
  - vm_compute. reflexivity.
Qed.

(** Only a request for a room makes [allSockets] grow or change. *)
Lemma message_changes_records entropy clock conn fuel data w w' :
  onMessage entropy clock conn fuel data w = Returned tt w' ->
  allSockets w' <> allSockets w ->
  binding_request (Message conn data) = Some conn.
Proof.
  intros Hrun Hne.
  pose proof (onMessage_cases entropy clock conn fuel data w) as Hcases.
  destruct data as [|v]; [congruence|]. simpl.
  destruct (get_prop v "type") as [x|t]; [congruence|].
  destruct (strict_eq_str t "createRoom"); [reflexivity|].
  destruct (strict_eq_str t "joinRoom"); [reflexivity|].
  exfalso. apply Hne.
  destruct (strict_eq_str t "chat"); rewrite Hcases in Hrun.
  - destruct (chat_cases clock conn v w) as [[x Hx] | (w1 & Hstep & Ha & _)];
      congruence.
  - congruence.
Qed.

Lemma reachable_fresh_told entropy clock w :
  reachable_fresh entropy clock w ->
  forall u r, u ∈ allSockets w -> rooms w !! room u = Some r ->
    told (socket u) (wire w) = length (users r).
Proof.
  induction 1 as [|w fuel e w' Hw IH Hfresh Hstep|w fuel e x w' Hw IH _ Hstep].
  - intros u r Hin. apply elem_of_nil in Hin. contradiction.
  - pose proof (reachable_fresh_reachable entropy clock w Hw) as Hreach.
    apply (effect_told e w w').
    + eapply handle_effect, Hstep.
    + apply (reachable_coherent entropy clock w Hreach).
    + apply (disciplined_unique entropy clock w).
      apply reachable_fresh_disciplined, Hw.
    + intros conn data -> Hne.
      assert (Hf : fresh conn w).
      { apply Hfresh. eapply message_changes_records; eauto. }
      split; [exact Hf|]. eapply fresh_unbound; eauto.
    + exact IH.
  - apply handle_thrown_same in Hstep as (Ha & Hrooms & Hwire & _).
    rewrite Ha, Hrooms, Hwire. exact IH.
Qed.

(** X11.  The counts sent keep every member up to date.  When only fresh
    connections ask for a room (a connection is not reused for a second
    room), then in every world reached the count told last to the
    connection of a record, in a [roomJoined], [userJoined] or [userLeft]
    envelope, or 1 when it was told none, is the number of members of the
    room of that record. *)
Theorem told_count_is_room_size entropy clock w u :
  reachable_fresh entropy clock w ->
  u ∈ allSockets w ->
  exists r,
    rooms w !! room u = Some r
    /\ told (socket u) (wire w) = length (users r).
Proof.
  intros Hw Hin.
  pose proof (reachable_fresh_reachable entropy clock w Hw) as Hreach.
  destruct (coherent_records w (reachable_coherent entropy clock w Hreach) u Hin)
    as [r Hr].
  exists r. split; [exact Hr|].
  apply (reachable_fresh_told entropy clock w Hw u r Hin Hr).
Qed.

Lemma told_count_is_room_size_witness :
  exists r,
    rooms (Scenario.after session) !! "BCDEFFc1" = Some r
    /\ told 1 (wire (Scenario.after session)) = length (users r).
Proof.
  apply (told_count_is_room_size Scenario.entropy Scenario.clock _
           (mkUser 1 "BCDEFFc1" "4xnaciw7nkp")).
  - apply session_fresh.
  - vm_compute. left.
Defined.

(** * The client against the server *)

(** ** The frames the client sends *)

Lemma joinRoom_request_returns entropy clock conn fuel roomIdToJoin w :
  exists w',
    onMessage entropy clock conn fuel (App.joinRoom_request roomIdToJoin) w
    = Returned tt w'.
Proof.
  unfold App.joinRoom_request.
  rewrite onMessage_joinRoom by reflexivity.
  destruct (rooms w !! roomIdToJoin) as [r|] eqn:Hr.
  - destruct (joinRoom_found entropy conn
                (VObj [("type", VStr "joinRoom");
                       ("payload", VObj [("roomId", VStr roomIdToJoin)])])
                (VObj [("roomId", VStr roomIdToJoin)]) roomIdToJoin r w
                eq_refl eq_refl Hr) as (uid & w' & Hrun & _).
    eauto.
  - destruct (joinRoom_missing entropy conn
                (VObj [("type", VStr "joinRoom");
                       ("payload", VObj [("roomId", VStr roomIdToJoin)])])
                (VObj [("roomId", VStr roomIdToJoin)]) (VStr roomIdToJoin) w
                eq_refl eq_refl) as (w' & Hrun & _).
    + simpl. rewrite Hr. reflexivity.
    + eauto.
Qed.

Lemma chat_request_returns entropy clock conn fuel text w :
  exists w',
    onMessage entropy clock conn fuel (App.chat_request text) w = Returned tt w'.
Proof.
  unfold App.chat_request.
  rewrite onMessage_chat by reflexivity.
  destruct (chat_cases clock conn
              (VObj [("type", VStr "chat");
                     ("payload", VObj [("message", VStr text)])]) w)
    as [[e He] | (w' & Hrun & _)]; [|eauto].
  exfalso.
  destruct (wellformed_thrown entropy clock conn fuel
              (App.chat_request text) w e w eq_refl)
    as (_ & (v & [= <-] & Htype) & _); [|discriminate Htype].
  unfold App.chat_request.
  rewrite onMessage_chat by reflexivity. exact He.
Qed.

(** X12.  The server finds no fault with the frames of the client.  The
    message handler returns on the frame sent when a socket of [joinRoom]
    opens, whatever the room identifier typed, and on every frame
    [sendMessage] sends.  On the frame sent when a socket of [createRoom]
    opens the one exception that can leave the handler is the [RangeError]
    of [generateRoomId] exhausting the stack, and it leaves the registry
    and the wire as they were. *)
Theorem client_frames_are_served entropy clock conn fuel w :
  (forall s f, f ∈ (App.createRoom_onopen s).2 ->
     forall e w',
       onMessage entropy clock conn fuel f w = Thrown e w' ->
       e = RangeError /\ same_registry w w')
  /\ (forall roomIdToJoin s f, f ∈ (App.joinRoom_onopen roomIdToJoin s).2 ->
        exists w', onMessage entropy clock conn fuel f w = Returned tt w')
  /\ (forall input s f, f ∈ (App.sendMessage input s).2 ->
        exists w', onMessage entropy clock conn fuel f w = Returned tt w').
Proof.
  split; [|split].
  - intros s f Hf e w' Hrun. simpl in Hf. apply list_elem_of_singleton in Hf.
    subst f.
    destruct (wellformed_thrown entropy clock conn fuel
                App.createRoom_request w e w' eq_refl Hrun)
      as (He & _ & Hreg).
    auto.
  - intros roomIdToJoin s f Hf. simpl in Hf.
    apply list_elem_of_singleton in Hf. subst f.
    apply joinRoom_request_returns.
  - intros input s f Hf. unfold App.sendMessage in Hf.
    destruct input as [[|a text]|]; simpl in Hf;
      try (apply elem_of_nil in Hf; contradiction).
    destruct (App.socket s); simpl in Hf;
      try (apply elem_of_nil in Hf; contradiction).
    destruct (App.isSendingMessage s); simpl in Hf;
      try (apply elem_of_nil in Hf; contradiction).
    apply list_elem_of_singleton in Hf. subst f.
    apply chat_request_returns.
Qed.

(** ** What the client makes of its inbox *)

Lemma inbox_app conn sent more :
  inbox conn (sent ++ more) = (inbox conn sent ++ inbox conn more)%list.
Proof. apply deliveries_app. Qed.

Lemma elem_of_deliveries kind conn e sent :
  e ∈ deliveries kind conn sent <-> (conn, e) ∈ sent /\ kind e = true.
Proof.
  unfold deliveries. rewrite list_elem_of_fmap. split.
  - intros ([c e'] & -> & Hin). apply list_elem_of_filter in Hin.
    simpl in Hin. destruct Hin as [[-> Hk] Hin]. auto.
  - intros [Hin Hk]. exists (conn, e). split; [reflexivity|].
    apply list_elem_of_filter. auto.
Qed.

Lemma deliveries_none kind conn sent :
  (forall e, (conn, e) ∈ sent -> kind e = false) ->
  deliveries kind conn sent = [].
Proof.
  intros Hnone. destruct (deliveries kind conn sent) as [|e l] eqn:Hd;
    [reflexivity|].
  assert (He : e ∈ deliveries kind conn sent) by (rewrite Hd; left).
  apply elem_of_deliveries in He as [Hin Hk].
  rewrite (Hnone e Hin) in Hk. discriminate.
Qed.

(** The envelopes of one kind, picked from all those sent to [conn]. *)
Lemma deliveries_inbox kind conn sent :
  deliveries kind conn sent = filter (fun e => kind e = true) (inbox conn sent).
Proof.
  unfold inbox. induction sent as [|[c e] sent IH]; [reflexivity|].
  rewrite !deliveries_cons.
  destruct (decide (c = conn)) as [->|Hc].
  - rewrite (decide_True (P := conn = conn /\ true = true)) by auto.
    rewrite filter_cons. destruct (kind e) eqn:Hk.
    + rewrite decide_True by auto. rewrite decide_True by reflexivity.
      f_equal. exact IH.
    + rewrite decide_False by (intros [_ H]; discriminate).
      rewrite decide_False by discriminate. exact IH.
  - rewrite decide_False by tauto. rewrite decide_False by tauto. exact IH.
Qed.

Lemma told_inbox conn sent :
  told conn sent
  = foldl (fun count e => default count (userCount_of e)) 1 (inbox conn sent).
Proof.
  unfold told, told_step, inbox. generalize 1.
  induction sent as [|[c e] sent IH]; intros count; [reflexivity|].
  rewrite deliveries_cons. simpl.
  destruct (decide (c = conn)) as [->|Hc].
  - rewrite decide_True by auto. simpl. apply IH.
  - rewrite decide_False by tauto. apply IH.
Qed.

Section Receive.

Variable onmessage : envelope -> App.state -> App.state.
Hypothesis handler :
  onmessage = App.createRoom_onmessage \/ onmessage = App.joinRoom_onmessage.

Lemma receive_app s l more :
  App.receive onmessage s (l ++ more)
  = App.receive onmessage (App.receive onmessage s l) more.
Proof. apply foldl_app. Qed.

(** The history grows by the [message] envelopes, in their order, and by
    nothing else. *)
Lemma receive_messages l : forall s,
  App.messages (App.receive onmessage s l)
  = (App.messages s ++ omap shown_message l)%list.
Proof using handler.
  induction l as [|e l IH]; intros s; simpl.
  - rewrite app_nil_r. reflexivity.
  - rewrite IH. destruct handler as [-> | ->]; destruct e; simpl;
      rewrite <- ?app_assoc; reflexivity.
Qed.

(** Without an envelope that gives a room, the room and user identifiers
    shown stay. *)
Lemma receive_keeps_room l : forall s,
  filter (fun e => is_binding e = true) l = [] ->
  App.roomId (App.receive onmessage s l) = App.roomId s
  /\ App.userId (App.receive onmessage s l) = App.userId s.
Proof using handler.
  induction l as [|e l IH]; intros s Hnone; [split; reflexivity|].
  rewrite filter_cons in Hnone. simpl.
  destruct (is_binding e) eqn:Hb.
  - rewrite decide_True in Hnone by reflexivity. discriminate.
  - rewrite decide_False in Hnone by discriminate.
    destruct (IH (onmessage e s) Hnone) as [-> ->].
    destruct handler as [-> | ->]; destruct e; try discriminate;
      split; reflexivity.
Qed.

(** The count shown is the count of the last envelope that carries one;
    the handler of [createRoom] has no case for [roomJoined]. *)
Lemma receive_userCount l : forall s,
  onmessage = App.joinRoom_onmessage
  \/ (forall rid uid n, roomJoined rid uid n ∉ l) ->
  App.userCount (App.receive onmessage s l)
  = foldl (fun count e => default count (userCount_of e)) (App.userCount s) l.
Proof using handler.
  induction l as [|e l IH]; intros s Hcases; [reflexivity|]. simpl.
  rewrite IH.
  - f_equal. destruct Hcases as [-> | Hcases].
    + destruct e; reflexivity.
    + destruct handler as [-> | ->]; destruct e as [| rid uid n | | | |];
        try reflexivity.
      exfalso. apply (Hcases rid uid n). left.
  - destruct Hcases as [-> | Hcases]; [left; reflexivity|].
    right. intros rid uid n Hin. apply (Hcases rid uid n). right. exact Hin.
Qed.

End Receive.

(** ** One announcement per record *)

Lemma effect_binding e w w' :
  effect e w w' ->
  (forall conn data, e = Message conn data ->
     allSockets w' <> allSockets w ->
     fresh conn w /\ find conn (allSockets w) = None) ->
  (forall u, u ∈ allSockets w ->
     exists b, deliveries is_binding (socket u) (wire w) = [b] /\ announces b u) ->
  forall u, u ∈ allSockets w' ->
    exists b, deliveries is_binding (socket u) (wire w') = [b] /\ announces b u.
Proof.
  intros Heff Hbind IH u Hin.
  assert (Hgrow : forall l x, (l ++ [x])%list <> l :> list User).
  { intros l x Heq. apply (f_equal length) in Heq.
    rewrite length_app in Heq. simpl in Heq. lia. }
  assert (Hfresh_none : forall conn, fresh conn w ->
            deliveries is_binding conn (wire w) = []).
  { intros conn Hf. apply deliveries_none. intros e0 Hin0.
    destruct (Hf e0 Hin0) as [text ->]. reflexivity. }
  inversion Heff; subst;
    repeat match goal with
    | H : allSockets w' = _ |- _ => rewrite H in Hin, Hbind; clear H
    | H : wire w' = _ |- _ => rewrite H; clear H
    end.
  - (* nothing *) auto.
  - (* room not found *)
    rewrite deliveries_app, (deliveries_none _ _ [_]), app_nil_r; [auto|].
    intros e0 [= _ ->]%list_elem_of_singleton. reflexivity.
  - (* created *)
    destruct (Hbind conn data eq_refl (Hgrow _ _)) as [Hfresh Hunbound].
    rewrite deliveries_app.
    apply elem_of_app in Hin as [Hin | ->%list_elem_of_singleton].
    + rewrite (deliveries_none _ _ [_]), app_nil_r; [auto|].
      intros e0 [= Hs _]%list_elem_of_singleton. exfalso.
      exact (find_None_not_member conn _ u Hunbound Hin Hs).
    + simpl socket. rewrite (Hfresh_none conn Hfresh).
      rewrite deliveries_cons, decide_True by auto.
      eexists. split; [reflexivity|]. left. reflexivity.
  - (* joined *)
    destruct (Hbind conn data eq_refl (Hgrow _ _)) as [Hfresh Hunbound].
    rewrite !deliveries_app.
    rewrite (deliveries_none _ _ (map _ _)); cycle 1.
    { intros e0 Hin0. apply elem_of_map_sent in Hin0 as (m & [= _ ->] & _).
      reflexivity. }
    apply elem_of_app in Hin as [Hin | ->%list_elem_of_singleton].
    + rewrite (deliveries_none _ _ [_]), !app_nil_r; [auto|].
      intros e0 [= Hs _]%list_elem_of_singleton. exfalso.
      exact (find_None_not_member conn _ u Hunbound Hin Hs).
    + simpl socket. rewrite (Hfresh_none conn Hfresh).
      rewrite deliveries_cons, decide_True by auto.
      eexists. split; [reflexivity|]. right. eexists. reflexivity.
  - (* chat *)
    rewrite deliveries_app, (deliveries_none _ _ (zip_with _ _ _)), app_nil_r;
      [auto|].
    intros e0 Hin0.
    apply elem_of_zip_with in Hin0 as (m & stamp & [= _ ->] & _). reflexivity.
  - (* close, no member removed *)
    apply IH. eapply elem_of_sublist; [exact Hin|apply sublist_delete].
  - (* close *)
    rewrite deliveries_app, (deliveries_none _ _ (map _ _)), app_nil_r.
    + apply IH. eapply elem_of_sublist; [exact Hin|apply sublist_delete].
    + intros e0 Hin0. apply elem_of_map_sent in Hin0 as (m & [= _ ->] & _).
      reflexivity.
Qed.

Lemma reachable_fresh_binding entropy clock w :
  reachable_fresh entropy clock w ->
  forall u, u ∈ allSockets w ->
    exists b, deliveries is_binding (socket u) (wire w) = [b] /\ announces b u.
Proof.
  induction 1 as [|w fuel e w' Hw IH Hfresh Hstep|w fuel e x w' Hw IH _ Hstep].
  - intros u Hin. apply elem_of_nil in Hin. contradiction.
  - apply (effect_binding e w w'); [eapply handle_effect, Hstep| |exact IH].
    intros conn data -> Hne.
    assert (Hf : fresh conn w).
    { apply Hfresh. eapply message_changes_records; eauto. }
    split; [exact Hf|]. eapply fresh_unbound; eauto.
    apply reachable_fresh_reachable, Hw.
  - apply handle_thrown_same in Hstep as (Ha & _ & Hwire & _).
    rewrite Ha, Hwire. exact IH.
Qed.

(** ** What the client shows of its room *)

Lemma receive_created l rid uid : forall s,
  filter (fun e => is_binding e = true) l = [roomCreated rid uid] ->
  App.roomId (App.receive App.createRoom_onmessage s l) = rid
  /\ App.userId (App.receive App.createRoom_onmessage s l) = uid.
Proof.
  induction l as [|e l IH]; intros s Hone; [discriminate|].
  rewrite filter_cons in Hone. simpl.
  destruct (is_binding e) eqn:Hb.
  - rewrite decide_True in Hone by reflexivity. injection Hone as -> Hnone.
    destruct (receive_keeps_room App.createRoom_onmessage (or_introl eq_refl) l
                (App.createRoom_onmessage (roomCreated rid uid) s) Hnone)
      as [-> ->].
    split; reflexivity.
  - rewrite decide_False in Hone by discriminate. apply IH, Hone.
Qed.

Lemma receive_joined l rid uid n : forall s,
  filter (fun e => is_binding e = true) l = [roomJoined rid uid n] ->
  App.roomId (App.receive App.joinRoom_onmessage s l) = rid
  /\ App.userId (App.receive App.joinRoom_onmessage s l) = uid.
Proof.
  induction l as [|e l IH]; intros s Hone; [discriminate|].
  rewrite filter_cons in Hone. simpl.
  destruct (is_binding e) eqn:Hb.
  - rewrite decide_True in Hone by reflexivity. injection Hone as -> Hnone.
    destruct (receive_keeps_room App.joinRoom_onmessage (or_intror eq_refl) l
                (App.joinRoom_onmessage (roomJoined rid uid n) s) Hnone)
      as [-> ->].
    split; reflexivity.
  - rewrite decide_False in Hone by discriminate. apply IH, Hone.
Qed.

(** X13.  The client shows its room as the server has it.  When only fresh
    connections ask for a room, then for every record of the registry and
    every client state that starts with the count 1: either the record was
    announced by [roomCreated], and the handler of [createRoom], given all
    the envelopes sent to the connection of the record, shows the room and
    user identifiers of the record and the number of members of its room;
    or it was announced by [roomJoined], and the handler of [joinRoom]
    shows them. *)
Theorem client_shows_its_room entropy clock w u s :
  reachable_fresh entropy clock w ->
  u ∈ allSockets w ->
  App.userCount s = 1 ->
  exists r,
    rooms w !! room u = Some r
    /\ (((socket u, roomCreated (room u) (userId u)) ∈ wire w
         /\ shows (App.receive App.createRoom_onmessage s
                     (inbox (socket u) (wire w))) u r)
        \/ ((exists n, (socket u, roomJoined (room u) (userId u) n) ∈ wire w)
            /\ shows (App.receive App.joinRoom_onmessage s
                        (inbox (socket u) (wire w))) u r)).
Proof.
  intros Hw Hin Hs.
  pose proof (reachable_fresh_reachable entropy clock w Hw) as Hreach.
  destruct (coherent_records w (reachable_coherent entropy clock w Hreach) u Hin)
    as [r Hr].
  exists r. split; [exact Hr|].
  pose proof (reachable_fresh_told entropy clock w Hw u r Hin Hr) as Htold.
  rewrite told_inbox, <- Hs in Htold.
  destruct (reachable_fresh_binding entropy clock w Hw u Hin) as (b & Hb & Hann).
  assert (Hsent : (socket u, b) ∈ wire w).
  { apply (elem_of_deliveries is_binding). rewrite Hb. left. }
  rewrite deliveries_inbox in Hb.
  destruct Hann as [-> | [n ->]]; [left | right].
  - split; [exact Hsent|].
    destruct (receive_created _ _ _ s Hb) as [Hrid Huid].
    repeat split; [exact Hrid|exact Huid|].
    rewrite receive_userCount; [exact Htold|left; reflexivity|].
    right. intros rid uid n Hj.
    assert (Hj' : roomJoined rid uid n
                  ∈ filter (fun e => is_binding e = true)
                      (inbox (socket u) (wire w)))
      by (apply list_elem_of_filter; auto).
    rewrite Hb in Hj'. apply list_elem_of_singleton in Hj'. discriminate.
  - split; [exists n; exact Hsent|].
    destruct (receive_joined _ _ _ _ s Hb) as [Hrid Huid].
    repeat split; [exact Hrid|exact Huid|].
    rewrite receive_userCount; [exact Htold|right; reflexivity|].
    left. reflexivity.
Qed.

Lemma client_shows_its_room_witness :
  exists r,
    rooms (Scenario.after session) !! "BCDEFFc1" = Some r
    /\ (((3, roomCreated "BCDEFFc1" "5x69ilqofbx") ∈ wire (Scenario.after session)
         /\ shows (App.receive App.createRoom_onmessage App.initial
                     (inbox 3 (wire (Scenario.after session))))
              (mkUser 3 "BCDEFFc1" "5x69ilqofbx") r)
        \/ ((exists n,
               (3, roomJoined "BCDEFFc1" "5x69ilqofbx" n)
                 ∈ wire (Scenario.after session))
            /\ shows (App.receive App.joinRoom_onmessage App.initial
                        (inbox 3 (wire (Scenario.after session))))
                 (mkUser 3 "BCDEFFc1" "5x69ilqofbx") r)).
Proof.
  apply (client_shows_its_room Scenario.entropy Scenario.clock _
           (mkUser 3 "BCDEFFc1" "5x69ilqofbx") App.initial).
  - apply session_fresh.
  - vm_compute. right. left.
  - reflexivity.
Defined.

(** ** A chat message in the histories of the clients *)

Lemma records_filter_le conn (Q : User -> Prop) `{!forall x, Decision (Q x)}
    (l : list User) :
  length (records conn (filter Q l)) <= length (records conn l).
Proof.
  unfold records. induction l as [|x l IH]; [reflexivity|].
  rewrite (filter_cons Q), (filter_cons (fun u => socket u = conn) x l).
  destruct (decide (Q x)); destruct (decide (socket x = conn)) as [Hs|Hs];
    rewrite ?filter_cons, ?decide_True, ?decide_False by assumption;
    simpl; lia.
Qed.

(** What a broadcast of the chat branch brings to one connection: one
    envelope per record it has among the members, each with the text and
    the sender. *)
Lemma inbox_broadcast conn text uid (stamp : nat -> string) (l : list User) :
  length (inbox conn
            (imap (fun i m => (socket m, message text (Some uid) (stamp i))) l))
  = length (records conn l)
  /\ forall e,
       e ∈ inbox conn
             (imap (fun i m => (socket m, message text (Some uid) (stamp i))) l) ->
       exists t, e = message text (Some uid) t.
Proof.
  split.
  - unfold inbox.
    apply (deliveries_imap (fun _ => true) conn l
             (fun i _ => message text (Some uid) (stamp i))).
    reflexivity.
  - intros e He. apply elem_of_deliveries in He as [He _].
    apply elem_of_lookup_imap in He as (i & m & [= _ ->] & _). eauto.
Qed.

(** X14.  A chat message reaches the history of every member once.  In a
    world reached with one room per connection, when a connection with a
    record sends a chat frame with a payload, the handler returns, and
    for the client of every connection, whichever of the two handlers it
    runs: if the connection has a record in the room of the sender, its
    history grows by one entry, with the text sent and the user
    identifier of the sender; if it has none there, its history is the
    same. *)
Theorem chat_reaches_every_history entropy clock fuel w conn v text u onmessage :
  reachable_disciplined entropy clock w ->
  has_type v "chat" ->
  payload_field v "message" text ->
  find conn (allSockets w) = Some u ->
  onmessage = App.createRoom_onmessage \/ onmessage = App.joinRoom_onmessage ->
  exists w',
    handle entropy clock fuel (Message conn (Parsed v)) w = Returned tt w'
    /\ forall c s,
         (forall m, m ∈ allSockets w -> socket m = c -> room m = room u ->
            exists stamp,
              App.messages (App.receive onmessage s (inbox c (wire w')))
              = (App.messages (App.receive onmessage s (inbox c (wire w)))
                 ++ [App.mkMessage text (Some (userId u)) stamp])%list)
         /\ ((forall m, m ∈ allSockets w -> socket m = c -> room m <> room u) ->
             App.messages (App.receive onmessage s (inbox c (wire w')))
             = App.messages (App.receive onmessage s (inbox c (wire w)))).
Proof.
  intros Hw Htype (payload & Hpayload & Htext) Hfind Hhandler.
  pose proof (reachable_disciplined_reachable entropy clock w Hw) as Hreach.
  pose proof (reachable_coherent entropy clock w Hreach) as Hc.
  pose proof (disciplined_unique entropy clock w Hw) as Hone.
  destruct (reachable_record entropy clock w conn u Hreach Hfind)
    as (r & Hr & _ & Hnamed).
  destruct (chat_broadcast clock conn v payload text u r w
              Hpayload Htext Hfind Hnamed Hr)
    as (w' & Hrun & _ & _ & Hwire & _).
  exists w'. split.
  { simpl. rewrite onMessage_chat by exact Htype. exact Hrun. }
  intros c s. rewrite Hwire, inbox_app, receive_app by exact Hhandler.
  rewrite (receive_messages onmessage Hhandler).
  set (stamp := fun i => Platform.toISOString (clock (dates w + i))).
  destruct (inbox_broadcast c text (userId u) stamp (users r)) as [Hlen Hform].
  fold stamp. set (D := inbox c _) in *.
  pose proof (coherent_members w Hc (room u) r Hr) as Hmembers.
  assert (Hle : length (records c (users r)) <= 1).
  { rewrite Hmembers.
    etransitivity; [apply records_filter_le|apply Hone]. }
  split.
  - intros m Hin Hs Hroom.
    assert (Hm : m ∈ records c (users r)).
    { unfold records. apply list_elem_of_filter. split; [exact Hs|].
      rewrite Hmembers. apply list_elem_of_filter. auto. }
    destruct D as [|e [|e' D]]; simpl in Hlen.
    + destruct (records c (users r)); [|discriminate Hlen].
      apply elem_of_nil in Hm. contradiction.
    + destruct (Hform e) as [t ->]; [left|].
      exists t. reflexivity.
    + lia.
  - intros Hnone.
    destruct (records c (users r)) as [|m rest] eqn:Hrec.
    + destruct D; [|discriminate]. simpl. rewrite app_nil_r. reflexivity.
    + exfalso.
      assert (Hm : m ∈ records c (users r)) by (rewrite Hrec; left).
      unfold records in Hm. apply list_elem_of_filter in Hm as [Hs Hm].
      rewrite Hmembers in Hm. apply list_elem_of_filter in Hm as [Hroom Hm].
      exact (Hnone m Hm Hs Hroom).
Qed.

Lemma chat_reaches_every_history_witness :
  exists w',
    handle Scenario.entropy Scenario.clock 1
      (Message 1 (Scenario.chat_frame "hi")) (Scenario.after session)
    = Returned tt w'
    /\ forall c s,
         (forall m, m ∈ allSockets (Scenario.after session) -> socket m = c ->
            room m = "BCDEFFc1" ->
            exists stamp,
              App.messages
                (App.receive App.joinRoom_onmessage s (inbox c (wire w')))
              = (App.messages
                   (App.receive App.joinRoom_onmessage s
                      (inbox c (wire (Scenario.after session))))
                 ++ [App.mkMessage (VStr "hi") (Some "4xnaciw7nkp") stamp])%list)
         /\ ((forall m, m ∈ allSockets (Scenario.after session) -> socket m = c ->
                room m <> "BCDEFFc1") ->
             App.messages
               (App.receive App.joinRoom_onmessage s (inbox c (wire w')))
             = App.messages
                 (App.receive App.joinRoom_onmessage s
                    (inbox c (wire (Scenario.after session))))).
Proof.
  apply (chat_reaches_every_history Scenario.entropy Scenario.clock 1
           (Scenario.after session) 1
           (VObj [("type", VStr "chat");
                  ("payload", VObj [("message", VStr "hi")])])
           (VStr "hi") (mkUser 1 "BCDEFFc1" "4xnaciw7nkp")
           App.joinRoom_onmessage).
  - apply reachable_fresh_disciplined, session_fresh.
  - reflexivity.
  - exists (VObj [("message", VStr "hi")]). split; reflexivity.
  - vm_compute. reflexivity.
  - right. reflexivity.
Defined.

(** ** Leaving a room and asking for a room that is not there *)

Lemma state_eq (s s' : App.state) :
  App.appState s = App.appState s' -> App.messages s = App.messages s' ->
  App.socket s = App.socket s' -> App.roomId s = App.roomId s' ->
  App.userId s = App.userId s' -> App.userCount s = App.userCount s' ->
  App.isConnecting s = App.isConnecting s' ->
  App.isSendingMessage s = App.isSendingMessage s' ->
  App.isLoadingChat s = App.isLoadingChat s' ->
  App.isLeavingRoom s = App.isLeavingRoom s' ->
  App.error s = App.error s' -> App.timers s = App.timers s' ->
  s = s'.
Proof. destruct s, s'; simpl; intros; subst; reflexivity. Qed.

(** The callbacks that wait touch neither the socket nor the callbacks
    that wait, and those of [sendMessage] and of the two announcements put
    an end to the sending and to the loading. *)
Lemma fire_all l : forall s,
  let s' := foldl (fun s t => App.fire t s) s l in
  App.socket s' = App.socket s
  /\ App.isConnecting s' = App.isConnecting s
  /\ App.timers s' = App.timers s
  /\ (App.isSendingMessage s = false \/ App.sending_done ∈ l ->
      App.isSendingMessage s' = false)
  /\ (App.isLoadingChat s = false \/ App.show_chat ∈ l ->
      App.isLoadingChat s' = false).
Proof.
  induction l as [|t l IH]; intros s; simpl.
  - repeat split; try reflexivity.
    + intros [H | H]; [exact H|]. apply elem_of_nil in H. contradiction.
    + intros [H | H]; [exact H|]. apply elem_of_nil in H. contradiction.
  - destruct (IH (App.fire t s)) as (H1 & H2 & H3 & H4 & H5).
    rewrite H1, H2, H3. repeat split; try (destruct t; reflexivity).
    + intros Hs. apply H4.
      destruct t; simpl; auto;
        destruct Hs as [Hs | [Hs | Hs]%elem_of_cons]; auto; discriminate.
    + intros Hs. apply H5.
      destruct t; simpl; auto;
        destruct Hs as [Hs | [Hs | Hs]%elem_of_cons]; auto; discriminate.
Qed.

(** X15.  Leaving resets the client.  From a state in which a callback
    waits for every sending and every loading under way, once [leaveRoom]
    was called, the socket has closed and the callbacks that wait have
    run, the client is in its initial state again: the landing page, an
    empty history, no room and user identifiers, the count 1, no socket
    and no error. *)
Theorem leaveRoom_resets s :
  (App.isSendingMessage s = true -> App.sending_done ∈ App.timers s) ->
  (App.isLoadingChat s = true -> App.show_chat ∈ App.timers s) ->
  App.flush (App.onclose (App.leaveRoom s).1) = App.initial.
Proof.
  intros Hsending Hloading.
  unfold App.flush.
  cbn [App.timers App.leaveRoom App.onclose App.setTimeout App.set_timers
       App.set_isConnecting App.set_socket App.set_isLeavingRoom fst].
  rewrite foldl_app. cbn [foldl].
  match goal with
  | |- App.fire _ (foldl _ ?s0 ?l) = _ =>
      destruct (fire_all l s0) as (H1 & H2 & H3 & H4 & H5)
  end.
  simpl in H1, H2, H3, H4, H5.
  apply state_eq; simpl; try reflexivity; try assumption.
  - apply H4. destruct (App.isSendingMessage s); auto.
  - apply H5. destruct (App.isLoadingChat s); auto.
Qed.

Lemma leaveRoom_resets_witness :
  App.flush
    (App.onclose
       (App.leaveRoom
          (App.sendMessage (Some "hi")
             (App.createRoom_onmessage (roomCreated "BCDEFFc1" "4xnaciw7nkp")
                (App.createRoom 1 App.initial))).1).1)
  = App.initial.
Proof.
  apply (leaveRoom_resets
           (App.sendMessage (Some "hi")
              (App.createRoom_onmessage (roomCreated "BCDEFFc1" "4xnaciw7nkp")
                 (App.createRoom 1 App.initial))).1).
  - intros _. vm_compute. right. left.
  - intros _. vm_compute. left.
Defined.

(** X16.  A room that is not there is reported on the landing page.  When
    the room identifier typed is not registered, the server returns from
    the frame sent by [ws.onopen] of [joinRoom], registers nothing, and
    the envelopes it sends to the connection leave the client with the
    error [Room not found], on the page, with the room, the count and the
    callbacks it had. *)
Theorem unknown_room_is_reported entropy clock conn fuel w roomIdToJoin s f :
  rooms w !! roomIdToJoin = None ->
  f ∈ (App.joinRoom_onopen roomIdToJoin s).2 ->
  exists w' reply,
    onMessage entropy clock conn fuel f w = Returned tt w'
    /\ allSockets w' = allSockets w /\ rooms w' = rooms w
    /\ wire w' = (wire w ++ reply)%list
    /\ App.receive App.joinRoom_onmessage (App.joinRoom_onopen roomIdToJoin s).1
         (inbox conn reply)
       = App.set_isConnecting false (App.set_error "Room not found" s).
Proof.
  intros Hr Hf. simpl in Hf. apply list_elem_of_singleton in Hf. subst f.
  destruct (onMessage_joinRoom_missing entropy clock conn fuel
              (VObj [("type", VStr "joinRoom");
                     ("payload", VObj [("roomId", VStr roomIdToJoin)])])
              (VStr roomIdToJoin) w)
    as (w' & Hrun & Hwire & Hrooms & Ha).
  - reflexivity.
  - exists (VObj [("roomId", VStr roomIdToJoin)]). split; reflexivity.
  - simpl. rewrite Hr. reflexivity.
  - exists w', [(conn, error "Room not found")].
    repeat split; [exact Hrun|exact Ha|exact Hrooms|exact Hwire|].
    unfold inbox. rewrite deliveries_cons, decide_True by auto.
    destruct s; reflexivity.
Qed.

Lemma unknown_room_is_reported_witness :
  exists w' reply,
    onMessage Scenario.entropy Scenario.clock 7 1
      (App.joinRoom_request "Nowhere1") (Scenario.after session)
    = Returned tt w'
    /\ allSockets w' = allSockets (Scenario.after session)
    /\ rooms w' = rooms (Scenario.after session)
    /\ wire w' = (wire (Scenario.after session) ++ reply)%list
    /\ App.receive App.joinRoom_onmessage
         (App.joinRoom_onopen "Nowhere1" App.initial).1 (inbox 7 reply)
       = App.set_isConnecting false (App.set_error "Room not found" App.initial).
Proof.
  apply (unknown_room_is_reported Scenario.entropy Scenario.clock 7 1
           (Scenario.after session) "Nowhere1" App.initial).
  - vm_compute. reflexivity.
  - left.
Defined.
